(** * GDS2 wafer-map converter: the conversion core of [wafermap_gui.py]

    A shallow embedding of the five routines of the converter
    ([parse_gds2], [detect_pitch], [build_grid], [format_output] and the
    reverse parser inside [_update_from_raw_auto]) together with the
    properties of the design document that concern them.

    Conventions of the embedding:
    - a Python [str] is a Rocq [string]; its characters are the code points
      0..255, so that [.encode('latin-1')] is the identity on the model;
    - a Python [int] is a [Z], a [len] is a [nat];
    - a Python [float] is an element of a type [F] carrying the operations
      of the class [PyFloat]; the routines are written once over that
      interface and run on the instances [QFloat] (exact rationals) and
      [XFloat] (rationals of the range of a double, with the infinities
      and NaN);
    - a raised exception is the result [None]. *)

From Stdlib Require Import ZArith QArith Qround Qabs List Bool Ascii String Lia.
From Stdlib Require Import DecimalString Sorted.
Import ListNotations.

Open Scope string_scope.
Open Scope Z_scope.

(** ** Python string primitives *)

Module PyStr.

(** The double-quote character and the one-character strings built from it. *)
Definition dq : ascii := ascii_of_nat 34.
Definition DQ : string := String dq EmptyString.
Definition cr : ascii := ascii_of_nat 13.
Definition nl : ascii := ascii_of_nat 10.
Definition CR : string := String cr EmptyString.
Definition NL : string := String nl EmptyString.

(** [str.isspace] on one character of the range 0..255. *)
Definition isspace (c : ascii) : bool :=
  let n := nat_of_ascii c in
  (((9 <=? n) && (n <=? 13)) || ((28 <=? n) && (n <=? 32))
   || (n =? 133) || (n =? 160))%nat.

Definition is_empty (s : string) : bool :=
  match s with EmptyString => true | String _ _ => false end.

(** [s.lstrip(chars)], [s.rstrip(chars)], [s.strip(chars)], the set of
    characters given as a predicate. *)
Fixpoint lstrip_by (p : ascii -> bool) (s : string) : string :=
  match s with
  | EmptyString => EmptyString
  | String c s' => if p c then lstrip_by p s' else s
  end.

Fixpoint rstrip_by (p : ascii -> bool) (s : string) : string :=
  match s with
  | EmptyString => EmptyString
  | String c s' =>
      let r := rstrip_by p s' in
      if is_empty r && p c then EmptyString else String c r
  end.

Definition strip_by (p : ascii -> bool) (s : string) : string :=
  rstrip_by p (lstrip_by p s).

(** [s.strip()] *)
Definition strip (s : string) : string := strip_by isspace s.

(** [s.strip(q)] where [q] is the one-character string holding a double
    quote. *)
Definition strip_quotes (s : string) : string := strip_by (Ascii.eqb dq) s.

(** Puts a character in front of the first piece of a split. *)
Definition cons_head (c : ascii) (l : list string) : list string :=
  match l with
  | [] => [String c EmptyString]
  | h :: t => String c h :: t
  end.

(** [s.split(sep)] for a non-empty separator: the occurrences of [sep] are
    found from left to right without overlap.  [skip] counts the characters
    of a separator just found that are still to be passed over. *)
Fixpoint split_go (sep : string) (skip : nat) (s : string) : list string :=
  match s with
  | EmptyString => [EmptyString]
  | String c s' =>
      match skip with
      | S k => split_go sep k s'
      | O =>
          if prefix sep s
          then EmptyString :: split_go sep (String.length sep - 1) s'
          else cons_head c (split_go sep 0 s')
      end
  end.

Definition split (sep s : string) : list string := split_go sep 0 s.

(** [sep.join(l)] *)
Definition join (sep : string) (l : list string) : string := String.concat sep l.

(** [str(n)] for an integer. *)
Definition str_of_int (z : Z) : string := NilEmpty.string_of_int (Z.to_int z).
Definition str_of_len (n : nat) : string := str_of_int (Z.of_nat n).

(** Line boundaries of [str.splitlines] in the range 0..255:
    LF, VT, FF, CR (a CR LF pair counts once), FS, GS, RS and NEL. *)
Definition is_linebreak (c : ascii) : bool :=
  let n := nat_of_ascii c in
  (((10 <=? n) && (n <=? 13)) || ((28 <=? n) && (n <=? 30)) || (n =? 133))%nat.

(** [s.splitlines()]: no empty last line after a final line boundary. *)
Fixpoint splitlines (s : string) : list string :=
  match s with
  | EmptyString => []
  | String c s' =>
      if is_linebreak c then
        match s' with
        | String c' s'' =>
            if (nat_of_ascii c =? 13)%nat && (nat_of_ascii c' =? 10)%nat
            then EmptyString :: splitlines s''
            else EmptyString :: splitlines s'
        | EmptyString => [EmptyString]
        end
      else cons_head c (splitlines s')
  end.

(** All the pieces one after the other. *)
Definition flat (l : list string) : string := fold_right append EmptyString l.

(** [s.endswith(sfx)] *)
Fixpoint ends_with (sfx s : string) : bool :=
  if (s =? sfx)%string then true
  else match s with
       | EmptyString => false
       | String _ s' => ends_with sfx s'
       end.

(** [x in s] for a character [x]. *)
Fixpoint has_char (x : ascii) (s : string) : bool :=
  match s with
  | EmptyString => false
  | String c s' => Ascii.eqb x c || has_char x s'
  end.

(** Every character of [w] satisfies [p]. *)
Fixpoint all_chars (p : ascii -> bool) (w : string) : bool :=
  match w with
  | EmptyString => true
  | String c w' => p c && all_chars p w'
  end.

End PyStr.
Import PyStr.

(** ** The float interface *)

(** The operations the converter applies to floats.  [of_int] is the
    conversion of an integer operand in mixed arithmetic (the integers the
    converter multiplies by a float are grid indices, at most one beyond a
    rounded float, and their conversion raises nothing), [float_of_str] is
    [float(s)] on a numeral matched by the coordinate pattern, [str_of_float]
    is [str(x)], [fpow x n] is [x ** n], [fround] and [fceil] are [round(x)]
    and [math.ceil(x)], [is_finite] is [math.isfinite(x)]: false on the
    infinities and on NaN.  The operations give the value of the Python
    expression where it raises nothing; where it raises is said by [pydiv],
    [pypow], [pyround] and [pyceil] below.  Nothing is assumed of the
    operations but what a property states as a law. *)
Class PyFloat (F : Type) : Type := {
  of_int : Z -> F;
  float_of_str : string -> F;
  str_of_float : F -> string;
  fadd : F -> F -> F;
  fsub : F -> F -> F;
  fmul : F -> F -> F;
  fdiv : F -> F -> F;
  fpow : F -> Z -> F;
  fabs : F -> F;
  fsqrt : F -> F;
  feqb : F -> F -> bool;
  fltb : F -> F -> bool;
  fleb : F -> F -> bool;
  fround : F -> Z;
  fceil : F -> Z;
  is_finite : F -> bool
}.

(** Laws of the float interface that some of the properties rest on.
    [SignLaws]: a positive value is not zero; a finite quotient has a finite
    numerator; finite quotients and ceilings of values that are not negative
    are not negative. *)
Class SignLaws (F : Type) `{PyFloat F} : Prop := {
  pos_nonzero : forall a : F, fltb (of_int 0) a = true -> feqb a (of_int 0) = false;
  pos_nonneg : forall a : F, fltb (of_int 0) a = true -> fleb (of_int 0) a = true;
  two_pos : fltb (of_int 0) (of_int 2) = true;
  div_finite : forall a b : F, is_finite (fdiv a b) = true -> is_finite a = true;
  div_nonneg : forall a b : F,
    fleb (of_int 0) a = true -> fltb (of_int 0) b = true ->
    is_finite (fdiv a b) = true ->
    fleb (of_int 0) (fdiv a b) = true;
  ceil_nonneg : forall a : F,
    is_finite a = true -> fleb (of_int 0) a = true -> 0 <= fceil a
}.

(** [OrderLaws]: [==] is an equivalence, [<] is a strict total order on its
    classes, the difference of a smaller value from a larger one is
    positive, and [abs] leaves a positive value as it is. *)
Class OrderLaws (F : Type) `{PyFloat F} : Prop := {
  feqb_refl : forall a : F, feqb a a = true;
  feqb_sym : forall a b : F, feqb a b = feqb b a;
  feqb_trans : forall a b c : F,
    feqb a b = true -> feqb b c = true -> feqb a c = true;
  fltb_asym : forall a b : F, fltb a b = true -> fltb b a = false;
  fltb_trans : forall a b c : F,
    fltb a b = true -> fltb b c = true -> fltb a c = true;
  fltb_total : forall a b : F,
    fltb a b = false -> fltb b a = false -> feqb a b = true;
  fsub_pos : forall a b : F, fltb a b = true -> fltb (of_int 0) (fsub b a) = true;
  fabs_pos : forall d : F, fltb (of_int 0) d = true -> fabs d = d;
  fpos_nonzero : forall d : F, fltb (of_int 0) d = true -> feqb d (of_int 0) = false
}.

(** [a / b] raises [ZeroDivisionError] when [b == 0]. *)
Definition pydiv {F} `{PyFloat F} (a b : F) : option F :=
  if feqb b (of_int 0) then None else Some (fdiv a b).

(** [x ** n] raises [OverflowError] when the power of a finite [x] is out of
    range; the power of an infinity or of a NaN raises nothing.  (The code
    takes second powers only: a negative power of zero does not occur.) *)
Definition pypow {F} `{PyFloat F} (x : F) (n : Z) : option F :=
  let p := fpow x n in
  if is_finite x && negb (is_finite p) then None else Some p.

(** [round(x)] and [math.ceil(x)] raise [OverflowError] on an infinity and
    [ValueError] on a NaN. *)
Definition pyround {F} `{PyFloat F} (x : F) : option Z :=
  if is_finite x then Some (fround x) else None.

Definition pyceil {F} `{PyFloat F} (x : F) : option Z :=
  if is_finite x then Some (fceil x) else None.

(** [min(a, b)]: the first of the two unless the second is smaller. *)
Definition pymin {F} `{PyFloat F} (a b : F) : F := if fltb b a then b else a.

(** ** Map formatter: [format_output] *)

Definition Grid : Type := list (list string).

Section Formatter.
Context {F : Type} `{PyFloat F}.

Definition quoted (s : string) : string := DQ ++ s ++ DQ.

Definition rvd (n : nat) : string := join "," (repeat (quoted "RVD") n).

(** The first line of the header: wafer id, diameter and grid size. *)
Definition wafer_line (grid : Grid) (wafer_id : string) (diameter : F) : string :=
  let n_rows := List.length grid in
  let n_cols := match grid with [] => O | r :: _ => List.length r end in
  let diam_str := str_of_float diameter in
  DQ ++ wafer_id ++ DQ ++ ",6," ++ quoted "METRIC" ++ "," ++ quoted "BOTTOM"
    ++ "," ++ DQ ++ diam_str ++ DQ ++ "," ++ DQ ++ diam_str ++ DQ ++ ","
    ++ str_of_len n_rows ++ "," ++ str_of_len n_cols ++ ","
    ++ quoted "0" ++ "," ++ quoted "0".

(** The list [header] of the source, bin rows included. *)
Definition header (grid : Grid) (wafer_id : string) (diameter : F)
    (die_count : Z) (bin_rows : list string) : list string :=
  [ wafer_line grid wafer_id diameter;
    quoted "44" ++ "," ++ quoted "4"; quoted "0"; quoted "1" ++ "," ++ quoted "4";
    quoted "POST"; "0"; "0"; "0";
    quoted "FALSE"; "0"; "0"; quoted "FALSE"; quoted "0"; quoted "0";
    DQ ++ str_of_int die_count ++ DQ;
    rvd 3; quoted "FALSE"; quoted EmptyString; quoted "0"; quoted "100:6";
    rvd 11;
    quoted EmptyString; quoted EmptyString;
    rvd 14 ]
  ++ match bin_rows with
     | [] => []
     | _ :: _ => (DQ ++ str_of_len (List.length bin_rows) ++ DQ) :: bin_rows
     end.

(** The text appended for one header line and for one grid row. *)
Definition header_line (h : string) : string := h ++ CR ++ NL.

Definition row_cells (row : list string) : string :=
  join "," (map (fun c => DQ ++ c ++ DQ) row).

Definition row_line (line_mode : string) (row : list string) : string :=
  let cells := row_cells row in
  if (line_mode =? "sinf")%string then (cells ++ "," ++ DQ ++ CR ++ DQ) ++ CR ++ NL
  else if (line_mode =? "crlf")%string then cells ++ CR ++ NL
  else cells ++ NL.

Definition format_output (grid : Grid) (wafer_id : string) (diameter : F)
    (die_count : Z) (line_mode : string) (bin_rows : list string) : string :=
  let out := EmptyString in
  let out := fold_left (fun out h => out ++ header_line h)
               (header grid wafer_id diameter die_count bin_rows) out in
  let out := fold_left (fun out row => out ++ row_line line_mode row) grid out in
  out.

End Formatter.

(** ** Map reparser: the body of [_update_from_raw_auto] *)

Module Reparser.

(** The three-character delimiter: quote, comma, quote. *)
Definition SEP : string := DQ ++ "," ++ DQ.

Definition is_symbol (c : string) : bool :=
  ((c =? ".") || (c =? "?") || (c =? "*"))%string.

(** [cells = [p.strip().strip(q) for p in parts]] *)
Definition cells_of (parts : list string) : list string :=
  map (fun p => strip_quotes (strip p)) parts.

(** [all(c in ('.', '?', '*') for c in cells if c)] *)
Definition all_symbols (cells : list string) : bool :=
  forallb is_symbol (filter (fun c => negb (is_empty c)) cells).

(** The test of the first loop on one line. *)
Definition looks_like_row (line : string) : bool :=
  let line_s := strip line in
  if is_empty line_s then false
  else
    let parts := split SEP line_s in
    if (List.length parts <? 10)%nat then false
    else all_symbols (cells_of parts).

(** The first loop: the index of the first line passing the test, and 0
    when there is none. *)
Fixpoint first_index (i : nat) (lines : list string) : option nat :=
  match lines with
  | [] => None
  | line :: rest => if looks_like_row line then Some i else first_index (S i) rest
  end.

Definition header_end (lines : list string) : nat :=
  match first_index 0 lines with Some i => i | None => O end.

(** The body of the second loop: the row a line contributes, if any. *)
Definition row_of_line (line : string) : option (list string) :=
  let line := strip line in
  if is_empty line then None
  else
    let cells := cells_of (split SEP line) in
    if negb (match cells with [] => true | _ => false end) && all_symbols cells
    then Some (filter (fun c => negb (is_empty c)) cells)
    else None.

Fixpoint rows_of (map_lines : list string) : Grid :=
  match map_lines with
  | [] => []
  | line :: rest =>
      match row_of_line line with
      | Some row => row :: rows_of rest
      | None => rows_of rest
      end
  end.

(** The grid stored in [self._grid], or [None] when the routine returns
    without storing one. *)
Definition _update_from_raw_auto (raw_text : string) : option Grid :=
  let lines := split NL (strip raw_text) in
  let header_end := header_end lines in
  if (header_end =? 0)%nat then None
  else
    let map_lines := skipn header_end lines in
    let new_grid := rows_of map_lines in
    match new_grid with
    | [] => None
    | _ :: _ => Some new_grid
    end.

(** The name of the routine in the design document. *)
Definition reparse (text : string) : option Grid := _update_from_raw_auto text.

End Reparser.
Import Reparser.

(** ** Coordinate extractor: [parse_gds2] *)

(** A placement: [(x, y, name)]. *)
Definition Coord (F : Type) : Type := (F * F * string)%type.

Module Extractor.

(** The rest of [s] after the literal [p], when [s] starts with it. *)
Fixpoint drop_prefix (p s : string) : option string :=
  match p with
  | EmptyString => Some s
  | String a p' =>
      match s with
      | EmptyString => None
      | String b s' => if Ascii.eqb a b then drop_prefix p' s' else None
      end
  end.

Definition all_space (s : string) : bool := is_empty (lstrip_by isspace s).

Definition is_digit (c : ascii) : bool :=
  let n := nat_of_ascii c in ((48 <=? n) && (n <=? 57))%nat.

Fixpoint has_newline (s : string) : bool :=
  match s with
  | EmptyString => false
  | String c s' => (nat_of_ascii c =? 10)%nat || has_newline s'
  end.

(** The longest run of digits at the start of [s], and what follows it. *)
Fixpoint span_digits (s : string) : string * string :=
  match s with
  | EmptyString => (EmptyString, EmptyString)
  | String c s' =>
      if is_digit c
      then let '(d, r) := span_digits s' in (String c d, r)
      else (EmptyString, s)
  end.

(** The group [-?\d+(?:\.\d+)?] at the start of [s]: the text matched and
    the rest. *)
Definition take_number (s : string) : option (string * string) :=
  let '(sign, s1) :=
    match s with
    | String c s' => if (nat_of_ascii c =? 45)%nat then ("-", s') else (EmptyString, s)
    | EmptyString => (EmptyString, s)
    end in
  let '(ds, s2) := span_digits s1 in
  if is_empty ds then None
  else
    match s2 with
    | String c s3 =>
        if (nat_of_ascii c =? 46)%nat then
          let '(fs, s4) := span_digits s3 in
          if is_empty fs then Some (sign ++ ds, s2)
          else Some (sign ++ ds ++ "." ++ fs, s4)
        else Some (sign ++ ds, s2)
    | EmptyString => Some (sign ++ ds, s2)
    end.

(** The four patterns, applied to a line already stripped of the white
    space around it (so that nothing but the end follows a match of [$]).
    [re_sref] is [^SREF\s*$], [re_endel] is [^ENDEL\s*$]. *)
Definition re_sref (line : string) : bool :=
  match drop_prefix "SREF" line with
  | Some rest => all_space rest
  | None => false
  end.

Definition re_endel (line : string) : bool :=
  match drop_prefix "ENDEL" line with
  | Some rest => all_space rest
  | None => false
  end.

(** [^SNAME\s+(.+)$]: the group is what follows the white space. *)
Definition re_sname (line : string) : option string :=
  match drop_prefix "SNAME" line with
  | Some (String c rest) =>
      if isspace c then
        let name := lstrip_by isspace rest in
        if is_empty name || has_newline name then None else Some name
      else None
  | _ => None
  end.

(** [^XY\s+(-?\d+(?:\.\d+)?)\s*:\s*(-?\d+(?:\.\d+)?)]: the two groups. *)
Definition re_xy (line : string) : option (string * string) :=
  match drop_prefix "XY" line with
  | Some (String c rest) =>
      if isspace c then
        match take_number (lstrip_by isspace rest) with
        | Some (a, r1) =>
            match lstrip_by isspace r1 with
            | String c' r2 =>
                if (nat_of_ascii c' =? 58)%nat then
                  match take_number (lstrip_by isspace r2) with
                  | Some (b, _) => Some (a, b)
                  | None => None
                  end
                else None
            | EmptyString => None
            end
        | None => None
        end
      else None
  | _ => None
  end.

(** The kind of a line of the listing, as the loop sees it. *)
Definition is_sref (line : string) : bool := re_sref (strip line).
Definition is_endel (line : string) : bool := re_endel (strip line).
Definition is_sname (line : string) : bool :=
  match re_sname (strip line) with Some _ => true | None => false end.
Definition is_xy (line : string) : bool :=
  match re_xy (strip line) with Some _ => true | None => false end.

(** The lines [pre] end outside any [SREF ... ENDEL] block: they hold no
    [SREF] line, or an [ENDEL] line with no [SREF] line after it. *)
Definition outside_block (pre : list string) : Prop :=
  (forall l, In l pre -> is_sref l = false)
  \/ (exists l1 e l2, pre = (l1 ++ e :: l2)%list /\ is_endel e = true
                       /\ forall l, In l l2 -> is_sref l = false).

(** The lines [pre] end in a block that has had no [SNAME] line yet: an
    [SREF] line with no [SNAME] line after it. *)
Definition before_sname (pre : list string) : Prop :=
  exists l1 s l2, pre = (l1 ++ s :: l2)%list /\ is_sref s = true
                  /\ forall l, In l l2 -> is_sname l = false.

Section Parse.
Context {F : Type} `{PyFloat F}.

(** The variables of the loop. *)
Record state : Type := mkState {
  in_sref : bool;
  cur_sname : option string;
  coords : list (Coord F)
}.

Definition init : state := mkState false None [].

Definition is_empty_list {A} (l : list A) : bool :=
  match l with [] => true | _ :: _ => false end.

(** [cur_sname and (not names or cur_sname in names)] *)
Definition accepts (names : list string) (cur : option string) : option string :=
  match cur with
  | None => None
  | Some n =>
      if is_empty n then None
      else if is_empty_list names || existsb (String.eqb n) names then Some n
      else None
  end.

(** One turn of the loop. *)
Definition step (names : list string) (st : state) (line : string) : state :=
  let line := strip line in
  if re_sref line then mkState true None (coords st)
  else if negb (in_sref st) then st
  else
    match re_sname line with
    | Some n => mkState (in_sref st) (Some n) (coords st)
    | None =>
        match re_xy line with
        | Some (a, b) =>
            match accepts names (cur_sname st) with
            | Some n =>
                mkState (in_sref st) (cur_sname st)
                  (coords st ++
                     [(fdiv (float_of_str a) (of_int 1000000),
                       fdiv (float_of_str b) (of_int 1000000), n)])
            | None => st
            end
        | None =>
            if re_endel line then mkState false (cur_sname st) (coords st)
            else st
        end
    end.

Definition run (names : list string) (st : state) (lines : list string) : state :=
  fold_left (step names) lines st.

Definition parse_lines (names : list string) (lines : list string) : list (Coord F) :=
  coords (run names init lines).

Definition parse_gds2 (text : string) (die_structure_names : list string)
  : list (Coord F) :=
  parse_lines die_structure_names (splitlines text).

End Parse.
End Extractor.
Import Extractor.

(** ** Pitch detector: [detect_pitch] *)

Module Pitch.
Section Detect.
Context {F : Type} `{PyFloat F}.

Definition fmem (x : F) (l : list F) : bool := existsb (feqb x) l.

(** [set(...)]: one representative of every value, the first met. *)
Fixpoint distinct (l : list F) : list F :=
  match l with
  | [] => []
  | x :: r => x :: filter (fun y => negb (feqb x y)) (distinct r)
  end.

(** [sorted(...)]: a stable sort that compares with [<] only. *)
Fixpoint insert (x : F) (l : list F) : list F :=
  match l with
  | [] => [x]
  | y :: r => if fltb y x then y :: insert x r else x :: y :: r
  end.

Definition sorted (l : list F) : list F := fold_right insert [] l.

(** [Counter(diffs)]: the values in the order of their first occurrence,
    each with the number of its occurrences. *)
Fixpoint count_up (d : F) (c : list (F * nat)) : list (F * nat) :=
  match c with
  | [] => [(d, 1%nat)]
  | (k, n) :: r => if feqb k d then (k, S n) :: r else (k, n) :: count_up d r
  end.

Definition Counter (l : list F) : list (F * nat) :=
  fold_left (fun c d => count_up d c) l [].

(** [most_common(1)] is [max(items, key=itemgetter(1))]: the first item of
    the largest count. *)
Definition max_item (best : F * nat) (items : list (F * nat)) : F * nat :=
  fold_left (fun b it => if (snd b <? snd it)%nat then it else b) items best.

(** [[abs(vals[i+1] - vals[i]) for i in range(len(vals)-1)]] *)
Fixpoint abs_diffs (vals : list F) : list F :=
  match vals with
  | a :: ((b :: _) as r) => fabs (fsub b a) :: abs_diffs r
  | _ => []
  end.

Definition most_common_diff (vals : list F) : option F :=
  if (List.length vals <? 2)%nat then None
  else
    let diffs := abs_diffs vals in
    let diffs := filter (fun d => fltb (of_int 0) d) diffs in
    match diffs with
    | [] => None
    | _ :: _ =>
        match Counter diffs with
        | it :: items => Some (fst (max_item it items))
        | [] => None
        end
    end.

Definition detect_pitch (coords : list (Coord F)) : option F * option F :=
  let xs := sorted (distinct (map (fun c => fst (fst c)) coords)) in
  let ys := sorted (distinct (map (fun c => snd (fst c)) coords)) in
  (most_common_diff xs, most_common_diff ys).

End Detect.

(** The pitch of an axis in the words of the design document: the distinct
    coordinate values sorted ascending, their consecutive differences, the
    zero differences discarded, the most frequent positive difference;
    absent with fewer than two distinct values or no positive difference. *)
Section Spec.
Context {F : Type} `{PyFloat F}.

Definition ascending (vals : list F) : Prop :=
  StronglySorted (fun a b => fltb a b = true) vals.

(** No two values of the list are equal. *)
Definition all_differ (l : list F) : Prop :=
  ForallOrdPairs (fun a b => feqb a b = false) l.

(** The order of [sorted]: no value is followed by a smaller one. *)
Definition not_after (a b : F) : Prop := fltb b a = false.

Definition distinct_sorted (values vals : list F) : Prop :=
  ascending vals
  /\ (forall v, In v vals -> In v values)
  /\ (forall v, In v values -> exists u, In u vals /\ feqb u v = true).

Fixpoint differences (vals : list F) : list F :=
  match vals with
  | a :: ((b :: _) as r) => fsub b a :: differences r
  | _ => []
  end.

Definition positive_differences (vals : list F) : list F :=
  filter (fun d => fltb (of_int 0) d)
         (filter (fun d => negb (feqb d (of_int 0))) (differences vals)).

Definition occurrences (d : F) (l : list F) : nat :=
  List.length (filter (feqb d) l).

(** The counter [c] holds, for the list [l], one key for every class of
    equal values, with the number of its occurrences. *)
Definition counted (c : list (F * nat)) (l : list F) : Prop :=
  all_differ (map fst c)
  /\ (forall k n, In (k, n) c -> In k l /\ n = occurrences k l)
  /\ (forall e, In e l -> exists k n, In (k, n) c /\ feqb k e = true).

Definition most_frequent (d : F) (l : list F) : Prop :=
  In d l /\ forall d', In d' l -> (occurrences d' l <= occurrences d l)%nat.

Definition pitch_spec (values : list F) (r : option F) : Prop :=
  exists vals,
    distinct_sorted values vals
    /\ match r with
       | None => (List.length vals < 2)%nat \/ positive_differences vals = []
       | Some d =>
           (2 <= List.length vals)%nat
           /\ most_frequent d (positive_differences vals)
       end.

End Spec.
End Pitch.
Import Pitch.

(** ** Grid builder: [build_grid] *)

Module Builder.
Section Build.
Context {F : Type} `{PyFloat F}.

(** [die_set]: the occupied indices.  Only membership, emptiness and the
    extreme indices are ever asked of it. *)
Definition DieSet : Type := list (Z * Z).

Definition mem (g : Z * Z) (s : DieSet) : bool :=
  existsb (fun h => (fst g =? fst h) && (snd g =? snd h)) s.

Definition add (g : Z * Z) (s : DieSet) : DieSet :=
  if mem g s then s else (s ++ [g])%list.

(** The value of [math.sqrt((gx * die_x)**2 + (gy * die_y)**2)]. *)
Definition dist (die_x die_y : F) (gx gy : Z) : F :=
  fsqrt (fadd (fpow (fmul (of_int gx) die_x) 2) (fpow (fmul (of_int gy) die_y) 2)).

(** The same expression as the code evaluates it: each of the two powers
    may raise; the products, the sum and the root raise nothing (the sum of
    two squares is not negative). *)
Definition eval_dist (die_x die_y : F) (gx gy : Z) : option F :=
  match pypow (fmul (of_int gx) die_x) 2 with
  | None => None
  | Some a =>
      match pypow (fmul (of_int gy) die_y) 2 with
      | None => None
      | Some b => Some (fsqrt (fadd a b))
      end
  end.

(** The second power of [g * die] is in range: it raises nothing. *)
Definition square_ok (die : F) (g : Z) : bool :=
  match pypow (fmul (of_int g) die) 2 with
  | Some _ => true
  | None => false
  end.

(** [gx, gy = round(x / die_x), round(y / die_y)] *)
Definition index_of (die_x die_y : F) (c : Coord F) : option (Z * Z) :=
  let '(x, y, _) := c in
  match pydiv x die_x with
  | None => None
  | Some qx =>
      match pyround qx with
      | None => None
      | Some gx =>
          match pydiv y die_y with
          | None => None
          | Some qy =>
              match pyround qy with
              | None => None
              | Some gy => Some (gx, gy)
              end
          end
      end
  end.

(** One turn of the first loop. *)
Definition place (half die_x die_y : F) (acc : option DieSet) (c : Coord F)
  : option DieSet :=
  match acc with
  | None => None
  | Some s =>
      match index_of die_x die_y c with
      | None => None
      | Some (gx, gy) =>
          match eval_dist die_x die_y gx gy with
          | None => None
          | Some d => if fleb d half then Some (add (gx, gy) s) else Some s
          end
      end
  end.

Definition die_set_of (coords : list (Coord F)) (half die_x die_y : F)
  : option DieSet :=
  fold_left (place half die_x die_y) coords (Some []).

Definition min_of (z : Z) (l : list Z) : Z := fold_left Z.min l z.
Definition max_of (z : Z) (l : list Z) : Z := fold_left Z.max l z.

(** [(min_gx, max_gx, min_gy, max_gy)] *)
Definition bounds (die_set : DieSet) (half die_x die_y : F)
  : option (Z * Z * Z * Z) :=
  match die_set with
  | g :: rest =>
      Some (min_of (fst g) (map fst rest) - 1, max_of (fst g) (map fst rest) + 1,
            min_of (snd g) (map snd rest) - 1, max_of (snd g) (map snd rest) + 1)
  | [] =>
      match pydiv half (pymin die_x die_y) with
      | None => None
      | Some q =>
          match pyceil q with
          | None => None
          | Some c => let r := c + 1 in Some (- r, r, - r, r)
          end
      end
  end.

(** [range(lo, hi + 1)] and [range(hi, lo - 1, -1)] *)
Definition range_up (lo hi : Z) : list Z :=
  map (fun k => lo + Z.of_nat k) (seq 0 (Z.to_nat (hi + 1 - lo))).

Definition range_down (hi lo : Z) : list Z :=
  map (fun k => hi - Z.of_nat k) (seq 0 (Z.to_nat (hi + 1 - lo))).

Definition neighbours : list (Z * Z) := [(-1, 0); (1, 0); (0, -1); (0, 1)].

Definition has_neighbour (die_set : DieSet) (gx gy : Z) : bool :=
  existsb (fun d => mem (gx + fst d, gy + snd d) die_set) neighbours.

(** The branches of the inner loop: the symbol of the cell [(gx, gy)] whose
    distance is [d]. *)
Definition symbol (die_set : DieSet) (half : F) (show_edge : bool)
    (gx gy : Z) (d : F) : string :=
  if fltb half d then "."
  else if mem (gx, gy) die_set then "?"
  else
    let edge := show_edge && has_neighbour die_set gx gy in
    if edge then "*" else ".".

(** The symbol of the cell [(gx, gy)], at the value of its distance. *)
Definition cell (die_set : DieSet) (half die_x die_y : F) (show_edge : bool)
    (gx gy : Z) : string :=
  symbol die_set half show_edge gx gy (dist die_x die_y gx gy).

(** The body of the inner loop: the distance is evaluated, which may raise,
    and the symbol is appended. *)
Definition eval_cell (die_set : DieSet) (half die_x die_y : F) (show_edge : bool)
    (gx gy : Z) : option string :=
  match eval_dist die_x die_y gx gy with
  | None => None
  | Some d => Some (symbol die_set half show_edge gx gy d)
  end.

(** A loop that appends one result per element, or raises with its body. *)
Fixpoint for_each {A B : Type} (body : A -> option B) (l : list A)
  : option (list B) :=
  match l with
  | [] => Some []
  | a :: l' =>
      match body a with
      | None => None
      | Some b =>
          match for_each body l' with
          | None => None
          | Some bs => Some (b :: bs)
          end
      end
  end.

Definition build_grid (coords : list (Coord F)) (diameter die_x die_y : F)
    (show_edge : bool) : option Grid :=
  let half := fdiv diameter (of_int 2) in
  match die_set_of coords half die_x die_y with
  | None => None
  | Some die_set =>
      match bounds die_set half die_x die_y with
      | None => None
      | Some (min_gx, max_gx, min_gy, max_gy) =>
          for_each
            (fun gy =>
               for_each
                 (fun gx => eval_cell die_set half die_x die_y show_edge gx gy)
                 (range_up min_gx max_gx))
            (range_down max_gy min_gy)
      end
  end.

(** The two comparisons of the source, [d > half] and [d <= half], agree on
    [d]: one holds exactly when the other does not (as for any two numbers;
    a NaN would compare false both ways). *)
Definition comparable (half d : F) : Prop := fltb half d = negb (fleb d half).

(** The occupied set and the bounds [build_grid] works with. *)
Definition layout (coords : list (Coord F)) (diameter die_x die_y : F)
  : option (DieSet * (Z * Z * Z * Z)) :=
  let half := fdiv diameter (of_int 2) in
  match die_set_of coords half die_x die_y with
  | None => None
  | Some die_set =>
      match bounds die_set half die_x die_y with
      | None => None
      | Some b => Some (die_set, b)
      end
  end.

(** The index [(gx, gy)] of the cell in row [i] and column [j]. *)
Definition index_at (b : Z * Z * Z * Z) (i j : nat) : Z * Z :=
  let '(min_gx, _, _, max_gy) := b in
  (min_gx + Z.of_nat j, max_gy - Z.of_nat i).

(** [grid[i][j]] *)
Definition cell_at (grid : Grid) (i j : nat) : option string :=
  match nth_error grid i with
  | Some row => nth_error row j
  | None => None
  end.

End Build.
End Builder.
Import Builder.

(** ** Exact rationals as floats *)

Module QModel.

Definition digit_of (c : ascii) : option Z :=
  let n := nat_of_ascii c in
  if ((48 <=? n) && (n <=? 57))%nat then Some (Z.of_nat (n - 48)) else None.

(** Reads [-?digits(.digits)?]: the accumulated digits and the number of
    them after the point. *)
Fixpoint read_decimal (s : string) (acc : Z) (frac : bool) (scale : nat) : Z * nat :=
  match s with
  | EmptyString => (acc, scale)
  | String c s' =>
      match digit_of c with
      | Some d => read_decimal s' (10 * acc + d) frac (if frac then S scale else scale)
      | None => read_decimal s' acc true scale
      end
  end.

Definition q_of_str (s : string) : Q :=
  let '(neg, body) :=
    match s with
    | String c s' => if (nat_of_ascii c =? 45)%nat then (true, s') else (false, s)
    | EmptyString => (false, s)
    end in
  let '(n, k) := read_decimal body 0 false 0 in
  let v := Qmake n (Pos.pow 10 (Pos.of_nat k)) in
  let v := match k with O => inject_Z n | S _ => v end in
  if neg then Qopp v else v.

(** Digits of the fractional part [n / d], most significant first. *)
Fixpoint frac_digits (fuel : nat) (n d : Z) : string :=
  match fuel with
  | O => EmptyString
  | S k =>
      if n =? 0 then EmptyString
      else str_of_int ((10 * n) / d) ++ frac_digits k ((10 * n) mod d) d
  end.

Definition str_of_q (q : Q) : string :=
  let a := Qabs q in
  let i := Qfloor a in
  let r := Qnum a - i * Zpos (Qden a) in
  let fr := frac_digits 12 r (Zpos (Qden a)) in
  (if Qle_bool 0 q then EmptyString else "-")
    ++ str_of_int i ++ "." ++ (if is_empty fr then "0" else fr).

(** Round to the nearest integer, ties to the even one. *)
Definition q_round (q : Q) : Z :=
  let f := Qfloor q in
  match Qcompare (q - inject_Z f) (1 # 2) with
  | Lt => f
  | Gt => f + 1
  | Eq => if Z.even f then f else f + 1
  end.

(** Square root to six decimals. *)
Definition q_sqrt (q : Q) : Q :=
  Qmake (Z.sqrt (Qfloor (q * inject_Z (10 ^ 12)))) (10 ^ 6).

#[export] Instance QFloat : PyFloat Q := {|
  of_int := inject_Z;
  float_of_str := q_of_str;
  str_of_float := str_of_q;
  fadd := Qplus;
  fsub := Qminus;
  fmul := Qmult;
  fdiv := Qdiv;
  fpow := Qpower;
  fabs := Qabs;
  fsqrt := q_sqrt;
  feqb := Qeq_bool;
  fltb := fun a b => negb (Qle_bool b a);
  fleb := Qle_bool;
  fround := q_round;
  fceil := Qceiling;
  is_finite := fun _ => true
|}.

(** Sample wafers: one die at the origin; three dies in a row. *)
Definition one_die : list (Coord Q) := [(0 # 1, 0 # 1, "die")].

Definition three_dies : list (Coord Q) :=
  [(0 # 1, 0 # 1, "die"); (1473 # 1000, 0 # 1, "die"); (2946 # 1000, 0 # 1, "die")].

(** A listing of two blocks, of the structures [a] and [b]. *)
Definition two_blocks : string :=
  "SREF" ++ NL ++ "SNAME a" ++ NL ++ "XY 1:2" ++ NL ++ "ENDEL" ++ NL
  ++ "SREF" ++ NL ++ "SNAME b" ++ NL ++ "XY 3:4" ++ NL ++ "ENDEL".

(** A listing of two dies of the structure [a], seven pitches apart. *)
Definition two_dies_apart : string :=
  "SREF" ++ NL ++ "SNAME a" ++ NL ++ "XY 0:0" ++ NL ++ "ENDEL" ++ NL
  ++ "SREF" ++ NL ++ "SNAME a" ++ NL ++ "XY 7000000:0" ++ NL ++ "ENDEL".

(** The map of that listing on a wafer of diameter 20 with dies of size 1. *)
Definition two_dies_apart_grid : Grid :=
  [["."; "."; "."; "."; "."; "."; "."; "."; "."; "."];
   ["."; "?"; "."; "."; "."; "."; "."; "."; "?"; "."];
   ["."; "."; "."; "."; "."; "."; "."; "."; "."; "."]].

End QModel.
Import QModel.

(** ** Rationals of the range of a double, with the infinities and NaN *)

Module XModel.

(** A finite value, an infinity with its sign, or NaN.  The finite values
    are exact rationals: the model has the range of a double and its
    special values, not its rounding. *)
Inductive xfloat : Type :=
| Fin (q : Q)
| Inf (negative : bool)
| NaN.

(** The largest finite double, [sys.float_info.max]. *)
Definition max_float : Q := inject_Z (2 ^ 1024 - 2 ^ 971).

Definition is_neg (q : Q) : bool := negb (Qle_bool 0 q).

(** A result out of the range is an infinity. *)
Definition ranged (q : Q) : xfloat :=
  if Qle_bool (Qabs q) max_float then Fin q else Inf (is_neg q).

Definition x_opp (a : xfloat) : xfloat :=
  match a with
  | Fin p => Fin (- p)
  | Inf s => Inf (negb s)
  | NaN => NaN
  end.

Definition x_add (a b : xfloat) : xfloat :=
  match a, b with
  | Fin p, Fin q => ranged (p + q)
  | Fin _, Inf s => Inf s
  | Inf s, Fin _ => Inf s
  | Inf s, Inf t => if Bool.eqb s t then Inf s else NaN
  | _, _ => NaN
  end.

Definition x_mul (a b : xfloat) : xfloat :=
  match a, b with
  | Fin p, Fin q => ranged (p * q)
  | Fin p, Inf s => if Qeq_bool p 0 then NaN else Inf (xorb s (is_neg p))
  | Inf s, Fin p => if Qeq_bool p 0 then NaN else Inf (xorb s (is_neg p))
  | Inf s, Inf t => Inf (xorb s t)
  | _, _ => NaN
  end.

(** The quotient by zero is never asked for: the division raises. *)
Definition x_div (a b : xfloat) : xfloat :=
  match a, b with
  | Fin p, Fin q => if Qeq_bool q 0 then NaN else ranged (p / q)
  | Fin _, Inf _ => Fin 0
  | Inf s, Fin q => Inf (xorb s (is_neg q))
  | _, _ => NaN
  end.

Definition x_pow (a : xfloat) (n : Z) : xfloat :=
  match n with
  | Z0 => Fin 1
  | Zpos p => Pos.iter (x_mul a) (Fin 1) p
  | Zneg p => x_div (Fin 1) (Pos.iter (x_mul a) (Fin 1) p)
  end.

Definition x_abs (a : xfloat) : xfloat :=
  match a with
  | Fin p => Fin (Qabs p)
  | Inf _ => Inf false
  | NaN => NaN
  end.

Definition x_sqrt (a : xfloat) : xfloat :=
  match a with
  | Fin p => if is_neg p then NaN else Fin (q_sqrt p)
  | Inf false => Inf false
  | _ => NaN
  end.

Definition x_eqb (a b : xfloat) : bool :=
  match a, b with
  | Fin p, Fin q => Qeq_bool p q
  | Inf s, Inf t => Bool.eqb s t
  | _, _ => false
  end.

Definition x_ltb (a b : xfloat) : bool :=
  match a, b with
  | Fin p, Fin q => negb (Qle_bool q p)
  | Fin _, Inf t => negb t
  | Inf s, Fin _ => s
  | Inf s, Inf t => s && negb t
  | _, _ => false
  end.

Definition x_leb (a b : xfloat) : bool :=
  match a, b with
  | Fin p, Fin q => Qle_bool p q
  | Fin _, Inf t => negb t
  | Inf s, Fin _ => s
  | Inf s, Inf t => s || negb t
  | _, _ => false
  end.

Definition x_str (a : xfloat) : string :=
  match a with
  | Fin p => str_of_q p
  | Inf false => "inf"
  | Inf true => "-inf"
  | NaN => "nan"
  end.

(** The integer of a finite value; on the other values, where [round] and
    [math.ceil] raise, there is none and 0 stands for it. *)
Definition x_round (a : xfloat) : Z :=
  match a with Fin p => q_round p | _ => 0 end.

Definition x_ceil (a : xfloat) : Z :=
  match a with Fin p => Qceiling p | _ => 0 end.

Definition x_finite (a : xfloat) : bool :=
  match a with Fin _ => true | _ => false end.

#[export] Instance XFloat : PyFloat xfloat := {|
  of_int := fun z => ranged (inject_Z z);
  float_of_str := fun s => ranged (q_of_str s);
  str_of_float := x_str;
  fadd := x_add;
  fsub := fun a b => x_add a (x_opp b);
  fmul := x_mul;
  fdiv := x_div;
  fpow := x_pow;
  fabs := x_abs;
  fsqrt := x_sqrt;
  feqb := x_eqb;
  fltb := x_ltb;
  fleb := x_leb;
  fround := x_round;
  fceil := x_ceil;
  is_finite := x_finite
|}.

(** A die size of 1e-320 and a die size of 1e200. *)
Definition tiny : xfloat := Fin (1 # 10 ^ 320).
Definition huge : xfloat := Fin (inject_Z (10 ^ 200)).

End XModel.
Import XModel.

(** ** Vocabulary of the round trip *)

Module RoundTrip.

(** The text of a row after its first cell. *)
Definition rest_cells (cs : list string) : string :=
  flat (map (fun c => "," ++ DQ ++ c ++ DQ) cs).

(** The pieces the delimiter cuts out of [c ++ DQ ++ rest_cells cs]. *)
Fixpoint tail_parts (c : string) (cs : list string) : list string :=
  match cs with
  | [] => [c ++ DQ]
  | c' :: cs' => c :: tail_parts c' cs'
  end.

(** The field a mode adds after the cells of a row, and the white space it
    puts before the line feed. *)
Definition extra (line_mode : string) : list string :=
  if (line_mode =? "sinf")%string then [CR] else [].

Definition eol_space (line_mode : string) : string :=
  if (line_mode =? "sinf")%string then CR
  else if (line_mode =? "crlf")%string then CR
  else EmptyString.

(** A cell of a row text: a symbol, or the carriage return of SINF. *)
Definition okcell (c : string) : bool := is_symbol c || (c =? CR)%string.

(** What the reparser reads in such a cell. *)
Definition uncr (c : string) : string :=
  if (c =? CR)%string then EmptyString else c.

(** The least number of columns for the first row to be taken as the start
    of the data section. *)
Definition min_cols (line_mode : string) : nat :=
  if (line_mode =? "sinf")%string then 9%nat else 10%nat.

(** The lines the reparser sees before the first grid row. *)
Definition header_text_lines (hdr : list string) : list string :=
  flat_map (fun h => split NL (h ++ CR)) hdr.

(** A row the round trip preserves: not empty, made of symbols. *)
Definition good_row (row : list string) : Prop :=
  row <> [] /\ Forall (fun c => is_symbol c = true) row.

(** The line of a row without its line feed. *)
Definition row_text (line_mode : string) (row : list string) : string :=
  row_cells (row ++ extra line_mode) ++ eol_space line_mode.

(** A line whose stripped text is the payload of a good row. *)
Definition line_of_row (line_mode : string) (row : list string) (line : string) : Prop :=
  strip line = row_cells (row ++ extra line_mode).

End RoundTrip.
Import RoundTrip.

(** ** The routines around the core: [_get_bin_rows], [_convert_worker],
    [_fit], the statistics and the file label *)

Module Gui.

(** [_get_bin_rows]: [[ln.strip() for ln in raw.splitlines() if ln.strip()]] *)
Definition get_bin_rows (raw : string) : list string :=
  map strip (filter (fun ln => negb (is_empty (strip ln))) (splitlines raw)).

(** The structure filter of [_convert_worker] and [_auto_detect_pitch]:
    [[s.strip() for s in field.split(",") if s.strip()]] *)
Definition parse_structs (field : string) : list string :=
  map strip (filter (fun s => negb (is_empty (strip s))) (split "," field)).

(** [sum(row.count('?') for row in grid)]: the die count of the statistics. *)
Definition count_dies (grid : Grid) : nat :=
  fold_right (fun row n => (List.length (filter (String.eqb "?") row) + n)%nat) O grid.

(** [len(grid)] and [len(grid[0]) if grid else 0]: the rows and columns of
    the statistics. *)
Definition n_rows (grid : Grid) : nat := List.length grid.
Definition n_cols (grid : Grid) : nat :=
  match grid with [] => O | r :: _ => List.length r end.

(** What [_convert_worker] hands back: [_conv_err] for a listing without
    coordinates, [_conv_err] for an exception of the grid builder, or
    [_conv_done(grid, out, len(coords), elapsed)]. *)
Inductive outcome : Type :=
| NoCoordinates
| Raised
| Done (grid : Grid) (out : string) (n_dies : nat).

Section Convert.
Context {F : Type} `{PyFloat F}.

(** [_convert_worker], from the values read in the entry fields on; the
    diameter and the die sizes are the floats already converted. *)
Definition convert_worker (gds_text wafer_id_field : string)
    (diameter die_x die_y : F) (structs_field : string) (show_edge : bool)
    (line_mode bin_text : string) : outcome :=
  let wafer_id :=
    if is_empty wafer_id_field then "GDS2_WAFER_MAP" else wafer_id_field in
  let structs := parse_structs structs_field in
  let coords := parse_gds2 gds_text structs in
  match coords with
  | [] => NoCoordinates
  | _ :: _ =>
      match build_grid coords diameter die_x die_y show_edge with
      | None => Raised
      | Some grid =>
          let bin_rows := get_bin_rows bin_text in
          let out := format_output grid wafer_id diameter
                       (Z.of_nat (List.length coords)) line_mode bin_rows in
          Done grid out (List.length coords)
      end
  end.

End Convert.

(** What [_fit] does for a canvas of [w] by [h] pixels: nothing without a
    grid, a retry while the canvas is not laid out, [ZeroDivisionError] for
    a grid whose first row is empty, or the new cell size. *)
Inductive fit_result : Type :=
| FitNothing
| FitRetry
| FitRaised
| FitPx (px : Z).

Definition fit (grid : Grid) (w h : Z) : fit_result :=
  match grid with
  | [] => FitNothing
  | first :: _ =>
      if (w <=? 1) || (h <=? 1) then FitRetry
      else
        let w := w - 8 in
        let h := h - 8 in
        let rows := Z.of_nat (List.length grid) in
        let cols := Z.of_nat (List.length first) in
        if cols =? 0 then FitRaised
        else FitPx (Z.max 1 (Z.min (w / cols) (h / rows)))
  end.

(** The file label of [_browse] and [_open_ascii_map]:
    [name if len(name) <= 30 else "..." + name[-27:]] *)
Definition file_label (name : string) : string :=
  if (String.length name <=? 30)%nat then name
  else "..." ++ substring (String.length name - 27) 27 name.

End Gui.
Import Gui.

(** ** Vocabulary of the further properties *)

Module More.

(** The test of the filter of [parse_gds2] on a record. *)
Definition named_in {F : Type} (names : list string) (c : Coord F) : bool :=
  existsb (String.eqb (snd c)) names.

(** An unsigned integer numeral: digits, at least one. *)
Definition numeral (s : string) : bool :=
  negb (is_empty s) && all_chars is_digit s.

(** What may follow the second number of an [XY] line: nothing, or a
    character that is neither a digit nor a point. *)
Definition ends_number (rest : string) : bool :=
  match rest with
  | EmptyString => true
  | String c _ => negb (is_digit c) && negb (nat_of_ascii c =? 46)%nat
  end.

(** A structure name as the listings write it: not empty, beginning with a
    character that is not white space, without line feed. *)
Definition plain_name (n : string) : bool :=
  match n with
  | EmptyString => false
  | String c _ => negb (isspace c) && negb (has_newline n)
  end.

(** The indices of the bounding rectangle in the order of the cells of the
    grid, row after row. *)
Definition box (b : Z * Z * Z * Z) : list (Z * Z) :=
  let '(min_gx, max_gx, min_gy, max_gy) := b in
  flat_map (fun gy => map (fun gx => (gx, gy)) (range_up min_gx max_gx))
           (range_down max_gy min_gy).

(** A cell without its edge mark. *)
Definition unstar (c : string) : string := if (c =? "*")%string then "." else c.

End More.
Import More.

(** * Properties *)

(** ** Strings *)

Section StringFacts.

Lemma append_nil_r (s : string) : s ++ EmptyString = s.
Proof. induction s as [|c s IH]; simpl; [reflexivity | now rewrite IH]. Qed.

Lemma append_assoc (a b c : string) : (a ++ b) ++ c = a ++ (b ++ c).
Proof. induction a as [|x a IH]; simpl; [reflexivity | now rewrite IH]. Qed.

Lemma flat_app (l1 l2 : list string) : flat (l1 ++ l2) = flat l1 ++ flat l2.
Proof.
  induction l1 as [|x l1 IH]; simpl; [reflexivity|].
  now rewrite IH, append_assoc.
Qed.

Lemma fold_left_append {A} (f : A -> string) (l : list A) (init : string) :
  fold_left (fun out x => out ++ f x) l init = init ++ flat (map f l).
Proof.
  revert init; induction l as [|x l IH]; intros init; simpl.
  - now rewrite append_nil_r.
  - now rewrite IH, append_assoc.
Qed.

Lemma ends_with_append (a sfx : string) : ends_with sfx (a ++ sfx) = true.
Proof.
  induction a as [|c a IH].
  - destruct sfx; simpl; [reflexivity|].
    now rewrite Ascii.eqb_refl, String.eqb_refl.
  - change (String c a ++ sfx) with (String c (a ++ sfx)).
    cbn [ends_with]. rewrite IH.
    destruct (String.eqb (String c (a ++ sfx)) sfx); reflexivity.
Qed.

Lemma has_char_append (x : ascii) (a b : string) :
  has_char x (a ++ b) = has_char x a || has_char x b.
Proof.
  induction a as [|c a IH]; simpl; [reflexivity|].
  now rewrite IH, orb_assoc.
Qed.

End StringFacts.

(** ** The formatter writes the header lines, then the rows *)

Section FormatterFacts.
Context {F : Type} `{PyFloat F}.

Lemma format_output_flat (grid : Grid) wafer_id (diameter : F) die_count
      line_mode bin_rows :
  format_output grid wafer_id diameter die_count line_mode bin_rows
  = flat (map header_line (header grid wafer_id diameter die_count bin_rows))
    ++ flat (map (row_line line_mode) grid).
Proof.
  unfold format_output.
  now rewrite !fold_left_append.
Qed.

Lemma row_line_sinf (row : list string) :
  row_line "sinf" row = row_cells row ++ "," ++ DQ ++ CR ++ DQ ++ CR ++ NL.
Proof. unfold row_line; simpl. now rewrite !append_assoc. Qed.

Lemma row_line_lf (row : list string) : row_line "lf" row = row_cells row ++ NL.
Proof. reflexivity. Qed.

Lemma is_symbol_cases (c : string) :
  is_symbol c = true -> c = "." \/ c = "?" \/ c = "*".
Proof.
  unfold is_symbol; intros Hc.
  apply orb_true_iff in Hc as [Hc|Hc]; [apply orb_true_iff in Hc as [Hc|Hc]|];
    apply String.eqb_eq in Hc; auto.
Qed.

Lemma row_cells_no_char (x : ascii) (row : list string) :
  x <> dq -> x <> ","%char ->
  Forall (fun c => has_char x c = false) row ->
  has_char x (row_cells row) = false.
Proof.
  intros Hq Hc Hrow. unfold row_cells, join.
  induction Hrow as [|c row Hx Hrow IH]; [reflexivity|].
  assert (Hcell : has_char x (DQ ++ c ++ DQ) = false).
  { rewrite !has_char_append, Hx; simpl.
    apply Ascii.eqb_neq in Hq. now rewrite Hq. }
  destruct row as [|c' row]; [exact Hcell|].
  change (has_char x ((DQ ++ c ++ DQ) ++ "," ++
            String.concat "," (map (fun c => DQ ++ c ++ DQ) (c' :: row))) = false).
  rewrite (has_char_append x (DQ ++ c ++ DQ)), Hcell.
  rewrite (has_char_append x ","), IH; simpl.
  apply Ascii.eqb_neq in Hc. now rewrite Hc.
Qed.

End FormatterFacts.

Section LineEndings.
Context {F : Type} `{PyFloat F}.

Lemma header_line_crlf (h : string) : ends_with (CR ++ NL) (header_line h) = true.
Proof. apply ends_with_append. Qed.

Lemma symbol_no_char (x : ascii) (c : string) :
  x <> "."%char -> x <> "?"%char -> x <> "*"%char ->
  is_symbol c = true -> has_char x c = false.
Proof.
  intros H1 H2 H3 Hc.
  apply Ascii.eqb_neq in H1, H2, H3.
  destruct (is_symbol_cases c Hc) as [->|[->| ->]]; simpl;
    rewrite ?H1, ?H2, ?H3; reflexivity.
Qed.

(** C2, as amended: in SINF mode the text written for a grid row ends with
    a comma, then the quoted carriage return (quote, CR, quote), then CR LF;
    the comma comes before the quoted-CR field.  The text written for a
    header line or a bin row ends with CR LF. *)
Theorem sinf_row_ends_with_comma_quoted_cr
    (grid : Grid) wafer_id (diameter : F) die_count bin_rows :
  let hdr := header grid wafer_id diameter die_count bin_rows in
  format_output grid wafer_id diameter die_count "sinf" bin_rows
  = flat (map header_line hdr) ++ flat (map (row_line "sinf") grid)
  /\ Forall (fun h => ends_with (CR ++ NL) (header_line h) = true) hdr
  /\ Forall (fun row =>
       ends_with ("," ++ DQ ++ CR ++ DQ ++ CR ++ NL) (row_line "sinf" row) = true)
       grid.
Proof.
  intros hdr. split; [apply format_output_flat|]. split.
  - apply Forall_forall; intros h _. apply header_line_crlf.
  - apply Forall_forall; intros row _.
    rewrite row_line_sinf. apply ends_with_append.
Qed.

(** C3, as amended: in LF mode the text written for a grid row of wafer-map
    symbols is the joined cells followed by one line feed, with no carriage
    return and no other line feed in it; the header lines and the bin rows
    end with CR LF whatever the mode. *)
Theorem lf_rows_end_with_single_lf
    (grid : Grid) wafer_id (diameter : F) die_count bin_rows
    (Hsym : Forall (Forall (fun c => is_symbol c = true)) grid) :
  let hdr := header grid wafer_id diameter die_count bin_rows in
  format_output grid wafer_id diameter die_count "lf" bin_rows
  = flat (map header_line hdr) ++ flat (map (row_line "lf") grid)
  /\ Forall (fun h => ends_with (CR ++ NL) (header_line h) = true) hdr
  /\ Forall (fun row =>
       row_line "lf" row = row_cells row ++ NL
       /\ has_char cr (row_cells row) = false
       /\ has_char nl (row_cells row) = false) grid.
Proof.
  intros hdr. split; [apply format_output_flat|]. split.
  - apply Forall_forall; intros h _. apply header_line_crlf.
  - eapply Forall_impl; [|exact Hsym].
    intros row Hrow; cbv beta. split; [reflexivity|].
    split; apply row_cells_no_char; try discriminate;
      (eapply Forall_impl; [|exact Hrow]); intros c Hc;
      apply symbol_no_char; auto; discriminate.
Qed.

End LineEndings.

(** C2, as stated, fails: the output of a one-cell grid in SINF mode does
    not end with quote, CR, quote, comma, CR, LF. *)
Lemma sinf_quoted_cr_before_comma_fails :
  ends_with (DQ ++ CR ++ DQ ++ "," ++ CR ++ NL)
    (format_output (F := Q) [["."]] "W" (200 # 1) 1 "sinf" []) = false.
Proof. vm_compute. reflexivity. Qed.

(** C3, as stated, fails: the LF-mode output holds carriage returns (those
    of its header lines). *)
Lemma lf_output_has_cr :
  has_char cr (format_output (F := Q) [["."]] "W" (200 # 1) 1 "lf" []) = true
  /\ ends_with (CR ++ NL) (header_line (quoted "POST")) = true.
Proof. split; vm_compute; reflexivity. Qed.

Lemma lf_rows_end_with_single_lf_witness :
  Forall (Forall (fun c => is_symbol c = true)) [["."; "?"; "*"]]
  /\ row_line "lf" ["."; "?"; "*"] = row_cells ["."; "?"; "*"] ++ NL.
Proof.
  assert (Hs : Forall (Forall (fun c => is_symbol c = true)) [["."; "?"; "*"]]).
  { repeat constructor. }
  split; [exact Hs|].
  pose proof (lf_rows_end_with_single_lf (F := Q) [["."; "?"; "*"]] "W" (200 # 1) 1 [] Hs)
    as [_ [_ Hrows]].
  inversion Hrows as [|? ? [Hrow _] _]; subst. exact Hrow.
Defined.

(** ** Stripping and splitting *)

Section StripSplit.

Lemma is_empty_append (a b : string) :
  is_empty (a ++ b) = is_empty a && is_empty b.
Proof. destruct a; reflexivity. Qed.

Lemma is_empty_true (s : string) : is_empty s = true -> s = EmptyString.
Proof. destruct s; [reflexivity | discriminate]. Qed.

Lemma lstrip_by_keep (p : ascii -> bool) (c : ascii) (s : string) :
  p c = false -> lstrip_by p (String c s) = String c s.
Proof. intros Hc; simpl; now rewrite Hc. Qed.

Lemma rstrip_by_app_keep (p : ascii -> bool) (a b : string) :
  is_empty (rstrip_by p b) = false ->
  rstrip_by p (a ++ b) = a ++ rstrip_by p b.
Proof.
  intros Hb. induction a as [|c a IH]; [reflexivity|].
  change (String c a ++ b) with (String c (a ++ b)).
  cbn [rstrip_by]. rewrite IH, is_empty_append, Hb, andb_false_r.
  reflexivity.
Qed.

Lemma rstrip_by_last (p : ascii -> bool) (a : string) (c : ascii) :
  p c = false -> rstrip_by p (a ++ String c EmptyString) = a ++ String c EmptyString.
Proof.
  intros Hc.
  assert (Hr : rstrip_by p (String c EmptyString) = String c EmptyString).
  { simpl. now rewrite Hc. }
  rewrite rstrip_by_app_keep; rewrite Hr; reflexivity.
Qed.

Lemma rstrip_by_all (p : ascii -> bool) (w : string) :
  all_chars p w = true -> rstrip_by p w = EmptyString.
Proof.
  induction w as [|c w IH]; [reflexivity|]; simpl.
  intros Hw; apply andb_true_iff in Hw as [Hc Hw].
  now rewrite (IH Hw), Hc.
Qed.

Lemma rstrip_by_drop (p : ascii -> bool) (a w : string) :
  all_chars p w = true -> rstrip_by p (a ++ w) = rstrip_by p a.
Proof.
  intros Hw. induction a as [|c a IH].
  - simpl. now apply rstrip_by_all.
  - change (String c a ++ w) with (String c (a ++ w)).
    cbn [rstrip_by]. now rewrite IH.
Qed.

(** Splitting never gives the empty list. *)
Lemma split_go_nonempty (sep : string) (k : nat) (s : string) :
  split_go sep k s <> [].
Proof.
  revert k; induction s as [|c s IH]; intros k; cbn [split_go]; [discriminate|].
  destruct k; [|apply IH].
  destruct (prefix sep (String c s)); [discriminate|].
  specialize (IH O). destruct (split_go sep 0 s); [contradiction | discriminate].
Qed.

Lemma cons_head_app (c : ascii) (l1 l2 : list string) :
  l1 <> [] -> (cons_head c (l1 ++ l2) = cons_head c l1 ++ l2)%list.
Proof. destruct l1; [contradiction | reflexivity]. Qed.

Lemma prefix_NL (c : ascii) (s : string) : prefix NL (String c s) = Ascii.eqb nl c.
Proof.
  unfold NL; cbn [prefix].
  destruct (ascii_dec nl c) as [Heq|Hne].
  - subst c. rewrite Ascii.eqb_refl. destruct s; reflexivity.
  - symmetry. now apply Ascii.eqb_neq.
Qed.

(** Splitting at line feeds distributes over a line feed. *)
Lemma split_NL_app (a b : string) :
  (split NL (a ++ NL ++ b) = split NL a ++ split NL b)%list.
Proof.
  unfold split. induction a as [|c a IH].
  - change (EmptyString ++ NL ++ b) with (String nl b).
    cbn [split_go]. rewrite prefix_NL, Ascii.eqb_refl. reflexivity.
  - change (String c a ++ NL ++ b) with (String c (a ++ NL ++ b)).
    cbn [split_go]. rewrite !prefix_NL.
    destruct (Ascii.eqb nl c).
    + change (String.length NL - 1)%nat with O. now rewrite IH.
    + rewrite IH. apply cons_head_app, split_go_nonempty.
Qed.

Lemma split_NL_none (s : string) :
  has_char nl s = false -> split NL s = [s].
Proof.
  unfold split. induction s as [|c s IH]; [reflexivity|].
  cbn [has_char split_go]. rewrite prefix_NL.
  intros Hs; apply orb_false_iff in Hs as [Hc Hs].
  now rewrite Hc, (IH Hs).
Qed.

(** The lines of a text made of lines each closed by a line feed. *)
Lemma split_NL_lines (ls : list string) (x : string) :
  split NL (flat (map (fun l => l ++ NL) ls) ++ x)
  = (flat_map (split NL) ls ++ split NL x)%list.
Proof.
  induction ls as [|l ls IH]; [reflexivity|].
  cbn [map flat fold_right flat_map].
  change (fold_right append EmptyString (map (fun l0 => l0 ++ NL) ls))
    with (flat (map (fun l0 => l0 ++ NL) ls)).
  rewrite !append_assoc, split_NL_app, IH, app_assoc. reflexivity.
Qed.

End StripSplit.

(** ** The text of a row and what the reparser reads in it *)

Section RowText.

Lemma row_cells_cons (c : string) (cs : list string) :
  row_cells (c :: cs) = DQ ++ c ++ DQ ++ rest_cells cs.
Proof.
  revert c; induction cs as [|c' cs IH]; intros c.
  - unfold row_cells, join, rest_cells; cbn [map String.concat flat fold_right].
    now rewrite append_nil_r.
  - change (row_cells (c :: c' :: cs))
      with ((DQ ++ c ++ DQ) ++ "," ++ row_cells (c' :: cs)).
    rewrite IH. unfold rest_cells; cbn [map flat fold_right].
    now rewrite !append_assoc.
Qed.

Lemma rest_cells_app (cs1 cs2 : list string) :
  rest_cells (cs1 ++ cs2) = rest_cells cs1 ++ rest_cells cs2.
Proof. unfold rest_cells. now rewrite map_app, flat_app. Qed.

Lemma row_cells_snoc (row : list string) (c : string) :
  row <> [] -> row_cells (row ++ [c]) = row_cells row ++ "," ++ DQ ++ c ++ DQ.
Proof.
  destruct row as [|c0 row]; [contradiction|]; intros _.
  change ((c0 :: row) ++ [c])%list with (c0 :: (row ++ [c]))%list.
  rewrite !row_cells_cons, rest_cells_app.
  unfold rest_cells at 2; cbn [map flat fold_right].
  now rewrite !append_assoc, !append_nil_r.
Qed.

Lemma row_line_payload (line_mode : string) (row : list string) :
  row <> [] ->
  row_line line_mode row
  = row_cells (row ++ extra line_mode) ++ eol_space line_mode ++ NL.
Proof.
  intros Hrow. unfold row_line, extra, eol_space.
  destruct (line_mode =? "sinf")%string.
  - rewrite row_cells_snoc by assumption. now rewrite !append_assoc.
  - rewrite app_nil_r. destruct (line_mode =? "crlf")%string; reflexivity.
Qed.

Lemma okcell_cases (c : string) :
  okcell c = true -> c = "." \/ c = "?" \/ c = "*" \/ c = CR.
Proof.
  unfold okcell; intros Hc; apply orb_true_iff in Hc as [Hc|Hc].
  - destruct (is_symbol_cases c Hc) as [->|[->| ->]]; auto.
  - apply String.eqb_eq in Hc; auto.
Qed.

Lemma symbol_okcell (c : string) : is_symbol c = true -> okcell c = true.
Proof. unfold okcell; intros ->; reflexivity. Qed.

Lemma split_go_miss (sep : string) (c : ascii) (s : string) :
  prefix sep (String c s) = false ->
  split_go sep 0 (String c s) = cons_head c (split_go sep 0 s).
Proof. intros Hp; cbn [split_go]; now rewrite Hp. Qed.

Lemma split_go_hit (s : string) :
  split_go SEP 0 (String dq (String ","%char (String dq s)))
  = EmptyString :: split_go SEP 0 s.
Proof.
  cbn [split_go].
  replace (prefix SEP (String dq (String ","%char (String dq s)))) with true
    by (destruct s; reflexivity).
  reflexivity.
Qed.

Lemma prefix_SEP_other (c : ascii) (s : string) :
  c <> dq -> prefix SEP (String c s) = false.
Proof.
  intros Hc. unfold SEP, DQ; cbn [append prefix].
  destruct (ascii_dec dq c) as [Heq|_]; [now subst c | reflexivity].
Qed.

Lemma prefix_SEP_quote (c : ascii) (s : string) :
  c <> ","%char -> prefix SEP (String dq (String c s)) = false.
Proof.
  intros Hc. unfold SEP, DQ; cbn [append prefix].
  destruct (ascii_dec dq dq) as [_|Hne]; [|reflexivity].
  destruct (ascii_dec ","%char c) as [Heq|_]; [now subst c | reflexivity].
Qed.

(** The pieces of a row text from its first cell on. *)
Lemma split_tail (c : string) (cs : list string) :
  okcell c = true -> Forall (fun c => okcell c = true) cs ->
  split_go SEP 0 (c ++ DQ ++ rest_cells cs) = tail_parts c cs.
Proof.
  intros Hc Hcs; revert c Hc; induction Hcs as [|c' cs Hc' Hcs IH]; intros c Hc.
  - unfold rest_cells; cbn [map flat fold_right tail_parts].
    destruct (okcell_cases c Hc) as [->|[->|[->| ->]]]; reflexivity.
  - assert (Hstep : forall x : ascii, x <> dq ->
              split_go SEP 0 (String x EmptyString ++ DQ ++ rest_cells (c' :: cs))
              = String x EmptyString :: tail_parts c' cs).
    { intros x Hx.
      change (split_go SEP 0
                (String x (String dq (String ","%char (String dq
                   ((c' ++ DQ) ++ rest_cells cs)))))
              = String x EmptyString :: tail_parts c' cs).
      rewrite split_go_miss by (now apply prefix_SEP_other).
      rewrite split_go_hit, append_assoc, (IH c' Hc'). reflexivity. }
    cbn [tail_parts].
    destruct (okcell_cases c Hc) as [->|[->|[->| ->]]];
      apply Hstep; discriminate.
Qed.

End RowText.

Section RowReading.

Lemma uncr_symbol (c : string) : is_symbol c = true -> uncr c = c.
Proof. intros Hc; destruct (is_symbol_cases c Hc) as [->|[->| ->]]; reflexivity. Qed.

Lemma map_uncr_symbols (row : list string) :
  Forall (fun c => is_symbol c = true) row -> map uncr row = row.
Proof.
  induction 1 as [|c row Hc _ IH]; [reflexivity|].
  cbn [map]. now rewrite IH, uncr_symbol.
Qed.

Lemma cells_of_tail (c : string) (cs : list string) :
  okcell c = true -> Forall (fun c => okcell c = true) cs ->
  cells_of (tail_parts c cs) = map uncr (c :: cs).
Proof.
  intros Hc Hcs; revert c Hc; induction Hcs as [|c' cs Hc' _ IH]; intros c Hc.
  - destruct (okcell_cases c Hc) as [->|[->|[->| ->]]]; reflexivity.
  - change (cells_of (tail_parts c (c' :: cs)))
      with (strip_quotes (strip c) :: cells_of (tail_parts c' cs)).
    rewrite (IH c' Hc').
    destruct (okcell_cases c Hc) as [->|[->|[->| ->]]]; reflexivity.
Qed.

Lemma tail_parts_length (c : string) (cs : list string) :
  List.length (tail_parts c cs) = S (List.length cs).
Proof. revert c; induction cs as [|c' cs IH]; intros c; simpl; [|rewrite IH]; reflexivity. Qed.

(** The pieces of the text of a row whose first cell is a symbol. *)
Lemma split_row (c : string) (cs : list string) :
  is_symbol c = true -> Forall (fun c => okcell c = true) cs ->
  split SEP (row_cells (c :: cs)) = cons_head dq (tail_parts c cs).
Proof.
  intros Hc Hcs. rewrite row_cells_cons. unfold split.
  rewrite <- (split_tail c cs (symbol_okcell c Hc) Hcs).
  destruct (is_symbol_cases c Hc) as [->|[->| ->]];
    apply split_go_miss, prefix_SEP_quote; discriminate.
Qed.

Lemma cells_of_row (c : string) (cs : list string) :
  is_symbol c = true -> Forall (fun c => okcell c = true) cs ->
  cells_of (split SEP (row_cells (c :: cs))) = c :: map uncr cs
  /\ List.length (split SEP (row_cells (c :: cs))) = S (List.length cs).
Proof.
  intros Hc Hcs. rewrite split_row by assumption. split.
  - destruct Hcs as [|c' cs Hc' Hcs].
    + destruct (is_symbol_cases c Hc) as [->|[->| ->]]; reflexivity.
    + change (cells_of (cons_head dq (tail_parts c (c' :: cs))))
        with (strip_quotes (strip (String dq c)) :: cells_of (tail_parts c' cs)).
      rewrite cells_of_tail by assumption.
      destruct (is_symbol_cases c Hc) as [->|[->| ->]]; reflexivity.
  - pose proof (tail_parts_length c cs) as Hl.
    destruct (tail_parts c cs); [discriminate | exact Hl].
Qed.

Lemma extra_okcell (line_mode : string) :
  Forall (fun c => okcell c = true) (extra line_mode).
Proof. unfold extra; destruct (_ =? _)%string; repeat constructor. Qed.

Lemma filter_symbols (row : list string) (line_mode : string) :
  Forall (fun c => is_symbol c = true) row ->
  filter (fun c => negb (is_empty c)) (row ++ map uncr (extra line_mode)) = row.
Proof.
  intros Hrow. rewrite filter_app.
  replace (filter _ (map uncr (extra line_mode))) with (@nil string)
    by (unfold extra; destruct (_ =? _)%string; reflexivity).
  rewrite app_nil_r.
  induction Hrow as [|c row Hc _ IH]; [reflexivity|].
  cbn [filter]. rewrite IH.
  destruct (is_symbol_cases c Hc) as [->|[->| ->]]; reflexivity.
Qed.

Lemma forallb_symbols (row : list string) :
  Forall (fun c => is_symbol c = true) row -> forallb is_symbol row = true.
Proof. intros Hrow; apply forallb_forall; now apply Forall_forall. Qed.

(** What the reparser reads in the payload of a row. *)
Lemma read_payload (line_mode : string) (row : list string) :
  row <> [] -> Forall (fun c => is_symbol c = true) row ->
  let parts := split SEP (row_cells (row ++ extra line_mode)) in
  List.length parts = (List.length row + List.length (extra line_mode))%nat
  /\ all_symbols (cells_of parts) = true
  /\ filter (fun c => negb (is_empty c)) (cells_of parts) = row.
Proof.
  intros Hne Hrow.
  destruct row as [|c row]; [contradiction|].
  inversion Hrow as [|? ? Hc Hrow']; subst.
  assert (Hcs : Forall (fun c => okcell c = true) (row ++ extra line_mode)).
  { apply Forall_app; split; [|apply extra_okcell].
    eapply Forall_impl; [|exact Hrow']. apply symbol_okcell. }
  change ((c :: row) ++ extra line_mode)%list with (c :: (row ++ extra line_mode))%list.
  destruct (cells_of_row c _ Hc Hcs) as [Hcells Hlen].
  cbv zeta. rewrite Hcells, Hlen, map_app, (map_uncr_symbols row Hrow').
  change (c :: (row ++ map uncr (extra line_mode)))%list
    with ((c :: row) ++ map uncr (extra line_mode))%list.
  unfold all_symbols. rewrite (filter_symbols (c :: row) line_mode Hrow).
  split; [cbn [List.length]; now rewrite length_app|].
  split; [now apply forallb_symbols | reflexivity].
Qed.

Lemma rest_cells_ends (cs : list string) :
  cs <> [] -> exists x, rest_cells cs = x ++ DQ.
Proof.
  induction cs as [|c cs IH]; [contradiction|]; intros _.
  assert (Heq : rest_cells (c :: cs) = ("," ++ DQ ++ c ++ DQ) ++ rest_cells cs)
    by reflexivity.
  rewrite Heq. destruct cs as [|c' cs].
  - exists ("," ++ DQ ++ c). unfold rest_cells; cbn [map flat fold_right].
    now rewrite !append_assoc, append_nil_r.
  - destruct IH as [x Hx]; [discriminate|].
    exists (("," ++ DQ ++ c ++ DQ) ++ x). now rewrite Hx, !append_assoc.
Qed.

Lemma row_cells_ends (c : string) (cs : list string) :
  exists x, row_cells (c :: cs) = x ++ DQ.
Proof.
  rewrite row_cells_cons. destruct cs as [|c' cs].
  - exists (DQ ++ c). unfold rest_cells; cbn [map flat fold_right].
    now rewrite !append_assoc, append_nil_r.
  - destruct (rest_cells_ends (c' :: cs)) as [x Hx]; [discriminate|].
    exists (DQ ++ c ++ DQ ++ x). now rewrite Hx, !append_assoc.
Qed.

(** Stripping a row text followed by white space leaves the row text. *)
Lemma strip_row (c : string) (cs : list string) (w : string) :
  all_chars isspace w = true ->
  strip (row_cells (c :: cs) ++ w) = row_cells (c :: cs)
  /\ rstrip_by isspace (row_cells (c :: cs) ++ w) = row_cells (c :: cs).
Proof.
  intros Hw.
  assert (Hr : rstrip_by isspace (row_cells (c :: cs) ++ w) = row_cells (c :: cs)).
  { rewrite rstrip_by_drop by assumption.
    destruct (row_cells_ends c cs) as [x ->].
    now apply rstrip_by_last. }
  split; [|exact Hr].
  unfold strip, strip_by. rewrite <- Hr at 2. f_equal.
  rewrite row_cells_cons.
  change ((DQ ++ c ++ DQ ++ rest_cells cs) ++ w)
    with (String dq ((c ++ DQ ++ rest_cells cs) ++ w)).
  now apply lstrip_by_keep.
Qed.

Lemma eol_space_isspace (line_mode : string) :
  all_chars isspace (eol_space line_mode) = true.
Proof.
  unfold eol_space.
  destruct (_ =? _)%string; [reflexivity|destruct (_ =? _)%string; reflexivity].
Qed.

End RowReading.

(** ** Reparsing a formatted document *)

Section RoundTripFacts.
Context {F : Type} `{PyFloat F}.

Lemma flat_lines_eq {A} (f g : A -> string) (l : list A) :
  Forall (fun x => f x = g x) l -> flat (map f l) = flat (map g l).
Proof. induction 1 as [|x l Hx _ IH]; simpl; [reflexivity | now rewrite Hx, IH]. Qed.

Lemma text_shape (grid : Grid) wafer_id (diameter : F) die_count line_mode bin_rows :
  Forall good_row grid ->
  format_output grid wafer_id diameter die_count line_mode bin_rows
  = flat (map (fun l => l ++ NL)
            (map (fun h => h ++ CR)
                 (header grid wafer_id diameter die_count bin_rows)
             ++ map (row_text line_mode) grid)).
Proof.
  intros Hgrid. rewrite format_output_flat, map_app, flat_app, !map_map.
  f_equal; apply flat_lines_eq.
  - apply Forall_forall; intros h _. unfold header_line. now rewrite append_assoc.
  - eapply Forall_impl; [|exact Hgrid]. intros row [Hne _].
    unfold row_text. now rewrite row_line_payload, append_assoc.
Qed.

Lemma okcell_no_nl (c : string) : okcell c = true -> has_char nl c = false.
Proof. intros Hc; destruct (okcell_cases c Hc) as [->|[->|[->| ->]]]; reflexivity. Qed.

Lemma row_text_no_nl (line_mode : string) (row : list string) :
  Forall (fun c => is_symbol c = true) row ->
  has_char nl (row_text line_mode row) = false
  /\ has_char nl (row_cells (row ++ extra line_mode)) = false.
Proof.
  intros Hrow.
  assert (Hc : has_char nl (row_cells (row ++ extra line_mode)) = false).
  { apply row_cells_no_char; try discriminate.
    apply Forall_app; split.
    - eapply Forall_impl; [|exact Hrow]. intros c Hc.
      now apply okcell_no_nl, symbol_okcell.
    - eapply Forall_impl; [|apply extra_okcell]. apply okcell_no_nl. }
  split; [|exact Hc].
  unfold row_text. rewrite has_char_append, Hc.
  unfold eol_space.
  destruct (_ =? _)%string; [reflexivity|destruct (_ =? _)%string; reflexivity].
Qed.

Lemma row_text_line (line_mode : string) (row : list string) :
  good_row row ->
  line_of_row line_mode row (row_text line_mode row)
  /\ line_of_row line_mode row (row_cells (row ++ extra line_mode)).
Proof.
  intros [Hne _]. destruct row as [|c row]; [contradiction|].
  unfold line_of_row, row_text.
  change ((c :: row) ++ extra line_mode)%list with (c :: (row ++ extra line_mode))%list.
  split.
  - apply strip_row, eol_space_isspace.
  - rewrite <- (append_nil_r (row_cells _)) at 1. now apply strip_row.
Qed.

Lemma row_cells_not_empty (c : string) (cs : list string) :
  is_empty (row_cells (c :: cs)) = false.
Proof. now rewrite row_cells_cons. Qed.

Lemma row_of_line_good (line_mode : string) (row : list string) (line : string) :
  good_row row -> line_of_row line_mode row line -> row_of_line line = Some row.
Proof.
  intros [Hne Hrow] Hline. unfold line_of_row in Hline.
  unfold row_of_line. cbv zeta. rewrite !Hline.
  destruct (read_payload line_mode row Hne Hrow) as [Hlen [Hall Hfil]].
  destruct row as [|c row]; [contradiction|].
  change ((c :: row) ++ extra line_mode)%list with (c :: (row ++ extra line_mode))%list in *.
  rewrite row_cells_not_empty, Hall, Hfil.
  destruct (cells_of _) eqn:Hcells; [discriminate Hfil | reflexivity].
Qed.

Lemma looks_like_row_good (line_mode : string) (row : list string) (line : string) :
  good_row row -> (min_cols line_mode <= List.length row)%nat ->
  line_of_row line_mode row line -> looks_like_row line = true.
Proof.
  intros [Hne Hrow] Hmin Hline. unfold line_of_row in Hline.
  unfold looks_like_row. cbv zeta. rewrite !Hline.
  destruct (read_payload line_mode row Hne Hrow) as [Hlen [Hall _]].
  destruct row as [|c row]; [contradiction|].
  change ((c :: row) ++ extra line_mode)%list with (c :: (row ++ extra line_mode))%list in *.
  rewrite row_cells_not_empty, Hall, Hlen.
  replace (_ <? 10)%nat with false; [reflexivity|].
  symmetry; apply Nat.ltb_ge.
  revert Hmin; unfold min_cols, extra.
  destruct (_ =? _)%string; cbn [List.length]; lia.
Qed.

Lemma rows_of_lines (line_mode : string) (rows : Grid) (lines : list string) :
  Forall good_row rows -> Forall2 (line_of_row line_mode) rows lines ->
  rows_of lines = rows.
Proof.
  intros Hrows Hl; induction Hl as [|row line rows lines Hline _ IH]; [reflexivity|].
  inversion Hrows as [|? ? Hrow Hrows']; subst.
  cbn [rows_of]. rewrite (row_of_line_good line_mode row line Hrow Hline).
  now rewrite IH.
Qed.

Lemma first_index_skip (i : nat) (pre : list string) (line : string) (post : list string) :
  Forall (fun l => looks_like_row l = false) pre ->
  looks_like_row line = true ->
  first_index i (pre ++ line :: post) = Some (i + List.length pre)%nat.
Proof.
  intros Hpre Hline; revert i; induction Hpre as [|l pre Hl _ IH]; intros i.
  - cbn [app first_index List.length]. rewrite Hline. f_equal; lia.
  - cbn [app first_index List.length]. rewrite Hl, IH. f_equal; lia.
Qed.

Lemma header_starts (grid : Grid) wafer_id (diameter : F) die_count bin_rows :
  exists t hs, header grid wafer_id diameter die_count bin_rows = String dq t :: hs.
Proof. unfold header, wafer_line. do 2 eexists. reflexivity. Qed.

Lemma header_text_lines_nonempty (hdr : list string) :
  hdr <> [] -> header_text_lines hdr <> [].
Proof.
  destruct hdr as [|h hdr]; [contradiction|]; intros _.
  unfold header_text_lines; cbn [flat_map].
  pose proof (split_go_nonempty NL 0 (h ++ CR)) as Hs. unfold split.
  destruct (split_go NL 0 (h ++ CR)); [contradiction | discriminate].
Qed.

End RoundTripFacts.

Section HeaderFacts.
Context {F : Type} `{PyFloat F}.

Lemma has_char_lstrip (x : ascii) (p : ascii -> bool) (s : string) :
  has_char x s = false -> has_char x (lstrip_by p s) = false.
Proof.
  induction s as [|c s IH]; [reflexivity|]. cbn [lstrip_by].
  intros Hs. destruct (p c); [|exact Hs].
  cbn [has_char] in Hs. apply orb_false_iff in Hs as [_ Hs]. now apply IH.
Qed.

Lemma has_char_rstrip (x : ascii) (p : ascii -> bool) (s : string) :
  has_char x s = false -> has_char x (rstrip_by p s) = false.
Proof.
  induction s as [|c s IH]; [reflexivity|]. cbn [rstrip_by has_char].
  intros Hs. apply orb_false_iff in Hs as [Hc Hs].
  destruct (is_empty (rstrip_by p s) && p c); [reflexivity|].
  cbn [has_char]. now rewrite Hc, IH.
Qed.

Lemma has_char_strip (x : ascii) (s : string) :
  has_char x s = false -> has_char x (strip s) = false.
Proof. intros Hs. now apply has_char_rstrip, has_char_lstrip. Qed.

Lemma prefix_SEP_no_comma (c : ascii) (s : string) :
  has_char ","%char s = false -> prefix SEP (String c s) = false.
Proof.
  intros Hs. unfold SEP, DQ; cbn [append prefix].
  destruct (ascii_dec dq c) as [_|_]; [|reflexivity].
  destruct s as [|b s]; [reflexivity|]. cbn [prefix].
  destruct (ascii_dec ","%char b) as [Heq|_]; [|reflexivity].
  subst b. cbn [has_char] in Hs. now rewrite Ascii.eqb_refl in Hs.
Qed.

(** A text without comma is one piece for the delimiter. *)
Lemma split_SEP_no_comma (t : string) :
  has_char ","%char t = false -> split SEP t = [t].
Proof.
  unfold split. induction t as [|c t IH]; [reflexivity|].
  intros Ht. cbn [has_char] in Ht. apply orb_false_iff in Ht as [_ Ht].
  rewrite split_go_miss by (now apply prefix_SEP_no_comma).
  now rewrite (IH Ht).
Qed.

Lemma no_comma_not_row (line : string) :
  has_char ","%char line = false -> looks_like_row line = false.
Proof.
  intros Hl. unfold looks_like_row. cbv zeta.
  destruct (is_empty (strip line)); [reflexivity|].
  rewrite split_SEP_no_comma by (now apply has_char_strip). reflexivity.
Qed.

Lemma split_NL_no_char (x : ascii) (s : string) :
  has_char x s = false -> Forall (fun l => has_char x l = false) (split NL s).
Proof.
  unfold split. induction s as [|c s IH]; [repeat constructor|].
  intros Hs. cbn [has_char] in Hs. apply orb_false_iff in Hs as [Hc Hs].
  specialize (IH Hs). cbn [split_go]. rewrite prefix_NL.
  destruct (Ascii.eqb nl c).
  - constructor; [reflexivity | exact IH].
  - destruct (split_go NL 0 s) as [|h t]; cbn [cons_head].
    + repeat constructor. cbn [has_char]. now rewrite Hc.
    + inversion IH as [|? ? Hh Ht]; subst. constructor; [|exact Ht].
      cbn [has_char]. now rewrite Hc, Hh.
Qed.

Lemma uint_no_comma (d : Decimal.uint) :
  has_char ","%char (NilEmpty.string_of_uint d) = false.
Proof. induction d; cbn [NilEmpty.string_of_uint has_char]; auto. Qed.

Lemma str_of_int_no_comma (z : Z) : has_char ","%char (str_of_int z) = false.
Proof.
  unfold str_of_int, NilEmpty.string_of_int.
  destruct (Z.to_int z); [|cbn [has_char]]; apply uint_no_comma.
Qed.

(** A header line without comma gives the reparser no line to take for a
    map row. *)
Lemma no_comma_lines_safe (h : string) :
  has_char ","%char h = false ->
  Forall (fun l => looks_like_row l = false) (split NL (h ++ CR)).
Proof.
  intros Hh. eapply Forall_impl; [apply no_comma_not_row|].
  apply split_NL_no_char. now rewrite has_char_append, Hh.
Qed.

Lemma count_line_safe (z : Z) :
  Forall (fun l => looks_like_row l = false)
         (split NL ((DQ ++ str_of_int z ++ DQ) ++ CR)).
Proof.
  apply no_comma_lines_safe.
  now rewrite !has_char_append, str_of_int_no_comma.
Qed.

Lemma header_text_lines_cons (h : string) (hs : list string) :
  header_text_lines (h :: hs) = (split NL (h ++ CR) ++ header_text_lines hs)%list.
Proof. reflexivity. Qed.

Lemma header_text_lines_app (hs1 hs2 : list string) :
  header_text_lines (hs1 ++ hs2)
  = (header_text_lines hs1 ++ header_text_lines hs2)%list.
Proof. unfold header_text_lines. apply flat_map_app. Qed.

(** The fixed lines of the header and its count lines are never taken for
    map rows: only the first line and the bin rows can be. *)
Lemma header_safe (grid : Grid) wafer_id (diameter : F) die_count bin_rows :
  Forall (fun l => looks_like_row l = false)
         (header_text_lines (wafer_line grid wafer_id diameter :: bin_rows)) ->
  Forall (fun l => looks_like_row l = false)
         (header_text_lines (header grid wafer_id diameter die_count bin_rows)).
Proof.
  rewrite header_text_lines_cons. intros Hv. apply Forall_app in Hv as [Hw Hbins].
  unfold header. rewrite header_text_lines_app. apply Forall_app. split.
  - rewrite !header_text_lines_cons.
    repeat (apply Forall_app; split); try exact Hw; try apply count_line_safe;
      try (match goal with
           | |- Forall ?P ?l =>
               let l' := eval vm_compute in l in change (Forall P l')
           end;
           repeat (constructor; [vm_compute; reflexivity|]); constructor).
  - destruct bin_rows as [|b bs]; [constructor|].
    rewrite header_text_lines_cons. apply Forall_app. split; [|exact Hbins].
    apply count_line_safe.
Qed.

End HeaderFacts.

Section RoundTripTheorem.
Context {F : Type} `{PyFloat F}.

Lemma flat_map_split_rows (line_mode : string) (rows : Grid) :
  Forall good_row rows ->
  flat_map (split NL) (map (row_text line_mode) rows) = map (row_text line_mode) rows.
Proof.
  induction 1 as [|row rows [_ Hrow] _ IH]; [reflexivity|].
  cbn [map flat_map]. rewrite IH, split_NL_none; [reflexivity|].
  now apply row_text_no_nl.
Qed.

Lemma flat_map_split_header (hdr : list string) :
  flat_map (split NL) (map (fun h => h ++ CR) hdr) = header_text_lines hdr.
Proof.
  unfold header_text_lines.
  induction hdr as [|h hdr IH]; [reflexivity|].
  cbn [map flat_map]. now rewrite IH.
Qed.

Lemma lines_of_rows (line_mode : string) (rows : Grid) (last : list string) :
  Forall good_row rows -> good_row last ->
  Forall2 (line_of_row line_mode) (rows ++ [last])
    (map (row_text line_mode) rows ++ [row_cells (last ++ extra line_mode)]).
Proof.
  intros Hrows Hlast. apply Forall2_app.
  - induction Hrows as [|row rows Hrow _ IH]; constructor; [|exact IH].
    now apply row_text_line.
  - constructor; [|constructor]. now apply row_text_line.
Qed.

(** The lines the reparser cuts out of a formatted document whose rows are
    good: those of the header, then one for every row. *)
Lemma lines_of_output (grid : Grid) wafer_id (diameter : F) die_count line_mode
      bin_rows (rows : Grid) (last : list string) :
  grid = (rows ++ [last])%list -> Forall good_row grid ->
  split NL (strip (format_output grid wafer_id diameter die_count line_mode bin_rows))
  = (header_text_lines (header grid wafer_id diameter die_count bin_rows)
     ++ (map (row_text line_mode) rows ++ [row_cells (last ++ extra line_mode)]))%list.
Proof.
  intros Hgrid Hgood.
  assert (Hrl : Forall good_row rows /\ good_row last).
  { rewrite Hgrid in Hgood. apply Forall_app in Hgood as [Hr Hl].
    split; [exact Hr | now inversion Hl]. }
  destruct Hrl as [Hrows [Hne Hlast]].
  rewrite text_shape by assumption.
  set (hdr := header grid wafer_id diameter die_count bin_rows).
  destruct (header_starts grid wafer_id diameter die_count bin_rows) as [t [hs Hhdr]].
  fold hdr in Hhdr.
  assert (Htext :
    flat (map (fun l => l ++ NL)
            (map (fun h => h ++ CR) hdr ++ map (row_text line_mode) grid))
    = flat (map (fun l => l ++ NL)
              (map (fun h => h ++ CR) hdr ++ map (row_text line_mode) rows))
      ++ row_cells (last ++ extra line_mode) ++ (eol_space line_mode ++ NL)).
  { rewrite Hgrid, (map_app (row_text line_mode)), app_assoc.
    rewrite (map_app (fun l => l ++ NL)), flat_app.
    cbn [map flat fold_right]. unfold row_text.
    now rewrite append_nil_r, !append_assoc. }
  rewrite Htext. clear Htext.
  set (A := flat (map (fun l => l ++ NL)
                   (map (fun h => h ++ CR) hdr ++ map (row_text line_mode) rows))).
  assert (Hstart : exists T, A = String dq T).
  { unfold A. rewrite Hhdr. eexists. reflexivity. }
  destruct Hstart as [T HT].
  destruct last as [|c cs]; [contradiction|].
  change ((c :: cs) ++ extra line_mode)%list with (c :: (cs ++ extra line_mode))%list.
  assert (Hws : all_chars isspace (eol_space line_mode ++ NL) = true).
  { unfold eol_space.
    destruct (_ =? _)%string; [reflexivity|destruct (_ =? _)%string; reflexivity]. }
  destruct (strip_row c (cs ++ extra line_mode) _ Hws) as [_ Hr].
  assert (Hstrip : strip (A ++ row_cells (c :: cs ++ extra line_mode)
                            ++ eol_space line_mode ++ NL)
                   = A ++ row_cells (c :: cs ++ extra line_mode)).
  { unfold strip, strip_by.
    replace (lstrip_by isspace (A ++ row_cells (c :: cs ++ extra line_mode)
                                  ++ eol_space line_mode ++ NL))
      with (A ++ row_cells (c :: cs ++ extra line_mode) ++ eol_space line_mode ++ NL).
    - rewrite rstrip_by_app_keep; rewrite Hr; [reflexivity|].
      apply row_cells_not_empty.
    - rewrite HT. symmetry. now apply lstrip_by_keep. }
  rewrite Hstrip. unfold A.
  rewrite split_NL_lines, flat_map_app, flat_map_split_header.
  rewrite (flat_map_split_rows line_mode rows Hrows).
  rewrite split_NL_none.
  - now rewrite app_assoc.
  - apply (row_text_no_nl line_mode (c :: cs) Hlast).
Qed.

(** C1, as amended: for a grid with at least one row, whose rows are not
    empty and hold only the symbols [.], [?] and [*], whose first row has at
    least ten cells (nine in SINF mode, where the quoted carriage return
    counts as a tenth piece), and for a first header line (wafer id and
    diameter) and bin rows none of which passes the reparser's test of a map
    row, reparsing the formatted document gives back the grid itself,
    whatever the line-ending mode. *)
Theorem reparse_format_roundtrip
    (grid : Grid) wafer_id (diameter : F) die_count line_mode bin_rows
    (first : list string) (rest : Grid)
    (Hgrid : grid = first :: rest)
    (Hgood : Forall good_row grid)
    (Hcols : (min_cols line_mode <= List.length first)%nat)
    (Hsafe : Forall (fun l => looks_like_row l = false)
               (header_text_lines (wafer_line grid wafer_id diameter :: bin_rows))) :
  reparse (format_output grid wafer_id diameter die_count line_mode bin_rows)
  = Some grid.
Proof.
  pose proof (header_safe grid wafer_id diameter die_count bin_rows Hsafe) as Hhdr.
  assert (Hne : grid <> []) by (rewrite Hgrid; discriminate).
  destruct (exists_last Hne) as [rows [last Hlast]].
  unfold reparse, _update_from_raw_auto. cbv zeta.
  rewrite (lines_of_output grid wafer_id diameter die_count line_mode bin_rows
             rows last Hlast Hgood).
  set (HL := header_text_lines (header grid wafer_id diameter die_count bin_rows)) in *.
  set (RL := (map (row_text line_mode) rows ++ [row_cells (last ++ extra line_mode)])%list).
  assert (Hlines : Forall2 (line_of_row line_mode) grid RL).
  { rewrite Hlast in Hgood |- *. apply Forall_app in Hgood as [Hr Hl].
    apply lines_of_rows; [exact Hr | now inversion Hl]. }
  assert (Hrows : rows_of RL = grid) by (now apply (rows_of_lines line_mode)).
  assert (HHL : HL <> []).
  { apply header_text_lines_nonempty.
    destruct (header_starts grid wafer_id diameter die_count bin_rows) as [t [hs ->]].
    discriminate. }
  destruct RL as [|l1 RL'] eqn:HRL.
  { rewrite Hgrid in Hlines. inversion Hlines. }
  assert (Hl1 : looks_like_row l1 = true).
  { rewrite Hgrid in Hlines, Hgood.
    inversion Hlines as [|? ? ? ? Hline _]; subst.
    inversion Hgood as [|? ? Hfirst _]; subst.
    now apply (looks_like_row_good line_mode first). }
  unfold header_end. rewrite (first_index_skip 0 HL l1 RL' Hhdr Hl1).
  cbn [Nat.add].
  replace (List.length HL =? 0)%nat with false
    by (destruct HL; [contradiction | reflexivity]).
  rewrite skipn_app, skipn_all, Nat.sub_diag. cbn [app skipn].
  rewrite Hrows, Hgrid. reflexivity.
Qed.

End RoundTripTheorem.

(** C1, as stated, fails: a grid of three columns is formatted into a text
    in which the reparser finds no data section. *)
Lemma reparse_format_narrow_grid :
  reparse (format_output (F := Q) [["."; "?"; "*"]; ["."; "."; "."]]
             "W" (200 # 1) 1 "lf" []) = None.
Proof. vm_compute. reflexivity. Qed.

Lemma reparse_format_roundtrip_witness :
  let row := ["."; "?"; "*"; "."; "."; "."; "."; "."; "."] in
  reparse (format_output (F := Q) [row; row] "W" (200 # 1) 2 "sinf" ["bin"])
  = Some [row; row].
Proof.
  intros row.
  apply (reparse_format_roundtrip [row; row] "W" (200 # 1) 2 "sinf" ["bin"]
           row [row]).
  - reflexivity.
  - repeat constructor; discriminate.
  - vm_compute. lia.
  - match goal with
    | |- Forall ?P ?l => let l' := eval vm_compute in l in change (Forall P l')
    end.
    repeat (constructor; [vm_compute; reflexivity|]). constructor.
Defined.

(** ** The reparser on a text without header *)

(** C5: a text whose very first line is a map row of ten cells.  That line
    passes the test of the first loop and is a valid row, yet [header_end]
    keeps its initial value 0 and the routine stores no grid. *)
Theorem reparse_rows_from_first_line :
  let row := ["."; "?"; "*"; "."; "."; "."; "."; "."; "."; "."] in
  let text := row_cells row ++ NL ++ row_cells row ++ NL in
  looks_like_row (row_cells row) = true
  /\ first_index 0 (split NL (strip text)) = Some O
  /\ rows_of (split NL (strip text)) = [row; row]
  /\ reparse text = None.
Proof. vm_compute. repeat split; reflexivity. Qed.

(** ** The grid builder *)

Section BuilderFacts.
Context {F : Type} `{PyFloat F}.

Lemma mem_In (g : Z * Z) (s : DieSet) : mem g s = true <-> In g s.
Proof.
  unfold mem. rewrite existsb_exists. split.
  - intros [h [Hin Heq]]. apply andb_true_iff in Heq as [H1 H2].
    apply Z.eqb_eq in H1, H2. destruct g, h; simpl in *; now subst.
  - intros Hin. exists g. split; [exact Hin|]. now rewrite !Z.eqb_refl.
Qed.

Lemma In_add (g h : Z * Z) (s : DieSet) : In h (add g s) <-> h = g \/ In h s.
Proof.
  unfold add. destruct (mem g s) eqn:Hm.
  - apply mem_In in Hm. split; [auto|]. intros [->|Hin]; assumption.
  - rewrite in_app_iff; simpl. split.
    + intros [Hin|[->|[]]]; auto.
    + intros [->|Hin]; auto.
Qed.

(** What is evaluated without raising has the value of the expression. *)
Lemma pypow_some (x : F) (n : Z) (p : F) : pypow x n = Some p -> p = fpow x n.
Proof.
  unfold pypow. cbv zeta.
  destruct (is_finite x && negb (is_finite (fpow x n))); [discriminate|].
  now intros [= <-].
Qed.

Lemma eval_dist_some (die_x die_y : F) (gx gy : Z) (d : F) :
  eval_dist die_x die_y gx gy = Some d -> d = dist die_x die_y gx gy.
Proof.
  unfold eval_dist, dist.
  destruct (pypow (fmul (of_int gx) die_x) 2) as [a|] eqn:Ha; [|discriminate].
  destruct (pypow (fmul (of_int gy) die_y) 2) as [b|] eqn:Hb; [|discriminate].
  intros [= <-]. now rewrite (pypow_some _ _ _ Ha), (pypow_some _ _ _ Hb).
Qed.

Lemma eval_cell_some (die_set : DieSet) (half die_x die_y : F) (show_edge : bool)
      (gx gy : Z) (c : string) :
  eval_cell die_set half die_x die_y show_edge gx gy = Some c ->
  c = cell die_set half die_x die_y show_edge gx gy.
Proof.
  unfold eval_cell, cell.
  destruct (eval_dist die_x die_y gx gy) as [d|] eqn:Hd; [|discriminate].
  intros [= <-]. now rewrite (eval_dist_some _ _ _ _ _ Hd).
Qed.

(** A loop that raises nothing has mapped its body over the list. *)
Lemma for_each_map {A B : Type} (body : A -> option B) (g : A -> B) (l : list A)
      (bs : list B) :
  (forall a b, body a = Some b -> b = g a) ->
  for_each body l = Some bs -> bs = map g l.
Proof.
  intros Hg. revert bs; induction l as [|a l IH]; intros bs; cbn [for_each map].
  - now intros [= <-].
  - destruct (body a) as [b|] eqn:Hb; [|discriminate].
    destruct (for_each body l) as [bs'|]; [|discriminate].
    intros [= <-]. now rewrite (Hg a b Hb), (IH bs' eq_refl).
Qed.

Lemma for_each_all {A B : Type} (body : A -> option B) (g : A -> B) (l : list A) :
  (forall a, In a l -> body a = Some (g a)) ->
  for_each body l = Some (map g l).
Proof.
  induction l as [|a l IH]; intros Hall; cbn [for_each map]; [reflexivity|].
  rewrite (Hall a (or_introl eq_refl)), IH; [reflexivity|].
  intros a' Ha'. apply Hall. now right.
Qed.

Lemma for_each_ext {A B C : Type} (body : A -> option B) (body' : A -> option C)
      (h : B -> C) (l : list A) (bs : list B) :
  (forall a b, body a = Some b -> body' a = Some (h b)) ->
  for_each body l = Some bs -> for_each body' l = Some (map h bs).
Proof.
  intros Hh. revert bs; induction l as [|a l IH]; intros bs; cbn [for_each].
  - now intros [= <-].
  - destruct (body a) as [b|] eqn:Hb; [|discriminate].
    destruct (for_each body l) as [bs'|]; [|discriminate].
    intros [= <-]. now rewrite (Hh a b Hb), (IH bs' eq_refl).
Qed.

(** Every index of the occupied set lies within the radius. *)
Lemma place_within (half die_x die_y : F) (c : Coord F) (s s' : DieSet) :
  (forall g, In g s -> fleb (dist die_x die_y (fst g) (snd g)) half = true) ->
  place half die_x die_y (Some s) c = Some s' ->
  forall g, In g s' -> fleb (dist die_x die_y (fst g) (snd g)) half = true.
Proof.
  intros Hs Hp g Hg. unfold place in Hp.
  destruct (index_of die_x die_y c) as [[gx gy]|]; [|discriminate].
  destruct (eval_dist die_x die_y gx gy) as [d|] eqn:He; [|discriminate].
  apply eval_dist_some in He. subst d.
  destruct (fleb (dist die_x die_y gx gy) half) eqn:Hd;
    injection Hp as <-; [|now apply Hs].
  apply In_add in Hg as [->|Hg]; [exact Hd | now apply Hs].
Qed.

Lemma fold_place_none (half die_x die_y : F) (coords : list (Coord F)) :
  fold_left (place half die_x die_y) coords None = None.
Proof. induction coords as [|c coords IH]; [reflexivity | exact IH]. Qed.

Lemma die_set_within (coords : list (Coord F)) (half die_x die_y : F) (s : DieSet) :
  die_set_of coords half die_x die_y = Some s ->
  forall g, In g s -> fleb (dist die_x die_y (fst g) (snd g)) half = true.
Proof.
  unfold die_set_of.
  assert (Hgen : forall s0 : DieSet,
    (forall g, In g s0 -> fleb (dist die_x die_y (fst g) (snd g)) half = true) ->
    fold_left (place half die_x die_y) coords (Some s0) = Some s ->
    forall g, In g s -> fleb (dist die_x die_y (fst g) (snd g)) half = true).
  { induction coords as [|c coords IH]; intros s0 Hs0 Hf.
    - injection Hf as <-. exact Hs0.
    - cbn [fold_left] in Hf.
      destruct (place half die_x die_y (Some s0) c) as [s1|] eqn:Hp.
      + apply (IH s1); [|exact Hf]. now apply (place_within half die_x die_y c s0).
      + now rewrite fold_place_none in Hf. }
  apply Hgen. intros g [].
Qed.

Lemma eval_dist_ok (die_x die_y : F) (gx gy : Z) :
  square_ok die_x gx = true -> square_ok die_y gy = true ->
  eval_dist die_x die_y gx gy = Some (dist die_x die_y gx gy).
Proof.
  unfold square_ok, eval_dist, dist.
  destruct (pypow (fmul (of_int gx) die_x) 2) as [a|] eqn:Ha; [|discriminate].
  destruct (pypow (fmul (of_int gy) die_y) 2) as [b|] eqn:Hb; [|discriminate].
  intros _ _. now rewrite (pypow_some _ _ _ Ha), (pypow_some _ _ _ Hb).
Qed.

Lemma In_range_up_iff (lo hi g : Z) : In g (range_up lo hi) <-> lo <= g <= hi.
Proof.
  unfold range_up. rewrite in_map_iff. split.
  - intros [k [<- Hk]]. apply in_seq in Hk. lia.
  - intros Hg. exists (Z.to_nat (g - lo)). split; [lia|]. apply in_seq. lia.
Qed.

Lemma In_range_down_iff (hi lo g : Z) : In g (range_down hi lo) <-> lo <= g <= hi.
Proof.
  unfold range_down. rewrite in_map_iff. split.
  - intros [k [<- Hk]]. apply in_seq in Hk. lia.
  - intros Hg. exists (Z.to_nat (hi - g)). split; [lia|]. apply in_seq. lia.
Qed.

Lemma nth_error_range_up (lo hi : Z) (j : nat) (gx : Z) :
  nth_error (range_up lo hi) j = Some gx -> gx = lo + Z.of_nat j.
Proof.
  unfold range_up. rewrite nth_error_map, nth_error_seq.
  destruct (_ <? _)%nat; [|discriminate]. cbn. now intros [= <-].
Qed.

Lemma nth_error_range_down (hi lo : Z) (i : nat) (gy : Z) :
  nth_error (range_down hi lo) i = Some gy -> gy = hi - Z.of_nat i.
Proof.
  unfold range_down. rewrite nth_error_map, nth_error_seq.
  destruct (_ <? _)%nat; [|discriminate]. cbn. now intros [= <-].
Qed.

(** A grid that is returned is the table of the symbols [cell] gives to the
    indices of the bounding rectangle. *)
Lemma build_grid_table (coords : list (Coord F)) (diameter die_x die_y : F)
      (show_edge : bool) (grid : Grid) :
  build_grid coords diameter die_x die_y show_edge = Some grid ->
  exists die_set min_gx max_gx min_gy max_gy,
    die_set_of coords (fdiv diameter (of_int 2)) die_x die_y = Some die_set
    /\ bounds die_set (fdiv diameter (of_int 2)) die_x die_y
       = Some (min_gx, max_gx, min_gy, max_gy)
    /\ grid = map (fun gy =>
                     map (fun gx => cell die_set (fdiv diameter (of_int 2))
                                      die_x die_y show_edge gx gy)
                         (range_up min_gx max_gx))
                  (range_down max_gy min_gy).
Proof.
  unfold build_grid. cbv zeta.
  destruct (die_set_of coords _ die_x die_y) as [ds|]; [|discriminate].
  destruct (bounds ds _ die_x die_y) as [[[[min_gx max_gx] min_gy] max_gy]|] eqn:Hb;
    [|discriminate].
  intros Hrows. exists ds, min_gx, max_gx, min_gy, max_gy.
  split; [reflexivity|]. split; [exact Hb|].
  apply (for_each_map _ _ _ _ (fun gy row Hrow =>
           for_each_map _ _ _ row (fun gx c => eval_cell_some _ _ _ _ _ gx gy c) Hrow)
         Hrows).
Qed.

Lemma build_grid_cells (coords : list (Coord F)) (diameter die_x die_y : F)
      (show_edge : bool) (grid : Grid) :
  build_grid coords diameter die_x die_y show_edge = Some grid ->
  exists die_set b,
    layout coords diameter die_x die_y = Some (die_set, b)
    /\ die_set_of coords (fdiv diameter (of_int 2)) die_x die_y = Some die_set
    /\ forall i j c, cell_at grid i j = Some c ->
         c = cell die_set (fdiv diameter (of_int 2)) die_x die_y show_edge
               (fst (index_at b i j)) (snd (index_at b i j)).
Proof.
  intros Hbuilt.
  destruct (build_grid_table _ _ _ _ _ _ Hbuilt)
    as [ds [min_gx [max_gx [min_gy [max_gy [Hds [Hb ->]]]]]]].
  unfold layout. cbv zeta. rewrite Hds, Hb.
  exists ds, (min_gx, max_gx, min_gy, max_gy).
  split; [reflexivity|]. split; [reflexivity|].
  intros i j c. unfold cell_at. rewrite nth_error_map.
  destruct (nth_error (range_down max_gy min_gy) i) as [gy|] eqn:Hgy; [|discriminate].
  cbn [option_map]. rewrite nth_error_map.
  destruct (nth_error (range_up min_gx max_gx) j) as [gx|] eqn:Hgx; [|discriminate].
  cbn [option_map]. intros [= <-].
  apply nth_error_range_up in Hgx. apply nth_error_range_down in Hgy.
  cbn [index_at fst snd]. now subst.
Qed.

(** The two kinds of cell that are neither occupied nor edge. *)
Lemma cell_outside (die_set : DieSet) (half die_x die_y : F) (show_edge : bool)
      (gx gy : Z) :
  fltb half (dist die_x die_y gx gy) = true ->
  cell die_set half die_x die_y show_edge gx gy = ".".
Proof. intros Hd; unfold cell, symbol; cbv zeta; now rewrite Hd. Qed.

Lemma cell_inside_empty (die_set : DieSet) (half die_x die_y : F) (show_edge : bool)
      (gx gy : Z) :
  mem (gx, gy) die_set = false ->
  show_edge && has_neighbour die_set gx gy = false ->
  cell die_set half die_x die_y show_edge gx gy = ".".
Proof.
  intros Hm He; unfold cell, symbol; cbv zeta. rewrite Hm, He.
  now destruct (fltb half _).
Qed.

End BuilderFacts.

Section BuilderTheorems.
Context {F : Type} `{PyFloat F}.

(** C7: in a grid built by [build_grid], an occupied cell has its nominal
    centre within the radius (the index-based distance is at most half the
    diameter), and a cell whose distance exceeds the radius holds the symbol
    of an outside cell, not that of an occupied or an edge cell. *)
Theorem grid_containment
    (coords : list (Coord F)) (diameter die_x die_y : F) (show_edge : bool)
    (grid : Grid)
    (Hbuilt : build_grid coords diameter die_x die_y show_edge = Some grid) :
  exists die_set b,
    layout coords diameter die_x die_y = Some (die_set, b)
    /\ forall i j c, cell_at grid i j = Some c ->
         let g := index_at b i j in
         let d := dist die_x die_y (fst g) (snd g) in
         let half := fdiv diameter (of_int 2) in
         (c = "?" -> fleb d half = true)
         /\ (fltb half d = true -> c = "." /\ c <> "?" /\ c <> "*").
Proof.
  destruct (build_grid_cells _ _ _ _ _ _ Hbuilt) as [ds [b [Hlay [Hds Hcell]]]].
  exists ds, b. split; [exact Hlay|].
  intros i j c Hc. cbv zeta. specialize (Hcell i j c Hc).
  set (g := index_at b i j) in *. split.
  - intros ->. unfold cell, symbol in Hcell. cbv zeta in Hcell.
    destruct (fltb _ (dist die_x die_y (fst g) (snd g))); [discriminate|].
    destruct (mem (fst g, snd g) ds) eqn:Hm.
    + apply mem_In in Hm.
      exact (die_set_within coords _ die_x die_y ds Hds (fst g, snd g) Hm).
    + destruct (show_edge && _); discriminate.
  - intros Hd. rewrite (cell_outside ds _ die_x die_y show_edge _ _ Hd) in Hcell.
    subst c. repeat split; discriminate.
Qed.

(** C4, as amended: the grid builder gives the same symbol, a dot, to a
    cell outside the radius and to a cell within the radius that is neither
    occupied nor an edge; the formatter writes the symbol as it is, so the
    two kinds of cell are not told apart in the document. *)
Theorem outside_and_inside_empty_same_symbol
    (die_set : DieSet) (half die_x die_y : F) (show_edge : bool)
    (gx gy gx' gy' : Z)
    (Hout : fltb half (dist die_x die_y gx gy) = true)
    (Hin : fltb half (dist die_x die_y gx' gy') = false)
    (Hfree : mem (gx', gy') die_set = false)
    (Hnoedge : show_edge && has_neighbour die_set gx' gy' = false) :
  cell die_set half die_x die_y show_edge gx gy = "."
  /\ cell die_set half die_x die_y show_edge gx' gy' = "."
  /\ row_cells [cell die_set half die_x die_y show_edge gx gy;
                cell die_set half die_x die_y show_edge gx' gy']
     = DQ ++ "." ++ DQ ++ "," ++ DQ ++ "." ++ DQ.
Proof.
  rewrite (cell_outside _ _ _ _ _ _ _ Hout).
  rewrite (cell_inside_empty _ half die_x die_y _ _ _ Hfree Hnoedge).
  repeat split; reflexivity.
Qed.

Lemma has_neighbour_four (die_set : DieSet) (gx gy : Z) :
  has_neighbour die_set gx gy
  = mem (gx - 1, gy) die_set || mem (gx + 1, gy) die_set
    || mem (gx, gy - 1) die_set || mem (gx, gy + 1) die_set.
Proof.
  unfold has_neighbour, neighbours; cbn [existsb fst snd].
  rewrite !Z.add_0_r, orb_false_r, !orb_assoc. reflexivity.
Qed.

(** C6: in a grid built by [build_grid], a cell (whose distance compares
    with the radius as a number does) is an edge cell exactly when
    [show_edge] is set, the cell is not occupied, its nominal centre lies
    within the radius and one of its four axis neighbours is in the occupied
    set. *)
Theorem edge_adjacency
    (coords : list (Coord F)) (diameter die_x die_y : F) (show_edge : bool)
    (grid : Grid)
    (Hbuilt : build_grid coords diameter die_x die_y show_edge = Some grid) :
  exists die_set b,
    layout coords diameter die_x die_y = Some (die_set, b)
    /\ forall i j c, cell_at grid i j = Some c ->
         let gx := fst (index_at b i j) in
         let gy := snd (index_at b i j) in
         let half := fdiv diameter (of_int 2) in
         comparable half (dist die_x die_y gx gy) ->
         (c = "*" <->
          show_edge = true
          /\ c <> "?"
          /\ fleb (dist die_x die_y gx gy) half = true
          /\ mem (gx - 1, gy) die_set || mem (gx + 1, gy) die_set
             || mem (gx, gy - 1) die_set || mem (gx, gy + 1) die_set = true).
Proof.
  destruct (build_grid_cells _ _ _ _ _ _ Hbuilt) as [ds [b [Hlay [_ Hcell]]]].
  exists ds, b. split; [exact Hlay|].
  intros i j c Hc. cbv zeta. specialize (Hcell i j c Hc).
  set (gx := fst (index_at b i j)) in *. set (gy := snd (index_at b i j)) in *.
  intros Hcmp. unfold comparable in Hcmp.
  rewrite <- has_neighbour_four.
  unfold cell, symbol in Hcell. cbv zeta in Hcell.
  rewrite Hcmp in Hcell.
  destruct (fleb (dist die_x die_y gx gy) _); cbn [negb] in Hcell.
  - destruct (mem (gx, gy) ds).
    + subst c. split; [discriminate|]. intros [_ [Hq _]]. now elim Hq.
    + destruct show_edge, (has_neighbour ds gx gy); cbn [andb] in Hcell; subst c;
        (split;
         [ first [ discriminate | intros _; repeat split; try reflexivity; discriminate ]
         | first [ intros _; reflexivity | intros [H1 [_ [_ H4]]]; discriminate ] ]).
  - subst c. split; [discriminate|]. intros [_ [_ [Hd _]]]. discriminate.
Qed.

End BuilderTheorems.

Section Fallback.
Context {F : Type} `{PyFloat F} `{!SignLaws F}.

Lemma pydiv_pos (a b : F) :
  fltb (of_int 0) b = true -> pydiv a b = Some (fdiv a b).
Proof. intros Hb; unfold pydiv. now rewrite (pos_nonzero b Hb). Qed.

Lemma pymin_pos (a b : F) :
  fltb (of_int 0) a = true -> fltb (of_int 0) b = true ->
  fltb (of_int 0) (pymin a b) = true.
Proof. intros Ha Hb; unfold pymin. now destruct (fltb b a). Qed.

Lemma cell_empty_set (half die_x die_y : F) (show_edge : bool) (gx gy : Z) :
  cell [] half die_x die_y show_edge gx gy = ".".
Proof.
  unfold cell, symbol; cbv zeta. destruct (fltb half _); [reflexivity|].
  cbn. now rewrite andb_false_r.
Qed.

(** A coordinate whose index and distance are evaluated without raising,
    the distance being larger than the radius. *)
Lemma die_set_empty (coords : list (Coord F)) (half die_x die_y : F) :
  Forall (fun c => exists g,
            index_of die_x die_y c = Some g
            /\ square_ok die_x (fst g) = true /\ square_ok die_y (snd g) = true
            /\ fleb (dist die_x die_y (fst g) (snd g)) half = false) coords ->
  die_set_of coords half die_x die_y = Some [].
Proof.
  intros Hnone. unfold die_set_of.
  induction Hnone as [|c coords Hc _ IH]; [reflexivity|].
  cbn [fold_left]. replace (place half die_x die_y (Some []) c) with (Some (@nil (Z * Z))).
  - exact IH.
  - destruct Hc as [[gx gy] [Hi [Hsx [Hsy Hd]]]]. cbn [fst snd] in Hsx, Hsy, Hd.
    unfold place. rewrite Hi, (eval_dist_ok _ _ _ _ Hsx Hsy), Hd. reflexivity.
Qed.

(** C10, as amended: for a positive diameter and positive die sizes, when
    every coordinate gets an index whose distance is evaluated and is not
    within the radius (as when there is no coordinate at all), when the
    quotient of the radius by the smaller die size is finite, and when the
    second powers of [g * die_x] and of [g * die_y] are in range for every
    index [g] from [-r] to [r], [build_grid] returns a square grid of side
    [2 * r + 1], where [r = ceil((diameter / 2) / min(die_x, die_y)) + 1],
    spanning the indices from [-r] to [r] both ways, every cell of which is
    a dot: no occupied cell and, whatever [show_edge], no edge cell. *)
Theorem empty_input_fallback
    (coords : list (Coord F)) (diameter die_x die_y : F) (show_edge : bool)
    (Hdiam : fltb (of_int 0) diameter = true)
    (Hx : fltb (of_int 0) die_x = true)
    (Hy : fltb (of_int 0) die_y = true)
    (Hfinite : is_finite (fdiv (fdiv diameter (of_int 2)) (pymin die_x die_y)) = true)
    (Hcells : Forall (fun g => square_ok die_x g = true /\ square_ok die_y g = true)
                (range_up
                   (- (fceil (fdiv (fdiv diameter (of_int 2)) (pymin die_x die_y)) + 1))
                   (fceil (fdiv (fdiv diameter (of_int 2)) (pymin die_x die_y)) + 1)))
    (Hnone : Forall (fun c => exists g,
                index_of die_x die_y c = Some g
                /\ square_ok die_x (fst g) = true /\ square_ok die_y (snd g) = true
                /\ fleb (dist die_x die_y (fst g) (snd g)) (fdiv diameter (of_int 2))
                   = false) coords) :
  let half := fdiv diameter (of_int 2) in
  let r := fceil (fdiv half (pymin die_x die_y)) + 1 in
  exists grid,
    build_grid coords diameter die_x die_y show_edge = Some grid
    /\ layout coords diameter die_x die_y = Some ([], (- r, r, - r, r))
    /\ 1 <= r
    /\ Z.of_nat (List.length grid) = 2 * r + 1
    /\ Forall (fun row => Z.of_nat (List.length row) = 2 * r + 1
                          /\ Forall (fun c => c = ".") row) grid.
Proof.
  intros half r. fold half in Hfinite, Hcells, Hnone. fold r in Hcells.
  assert (Hset : die_set_of coords half die_x die_y = Some [])
    by (now apply die_set_empty).
  assert (Hmin : fltb (of_int 0) (pymin die_x die_y) = true)
    by (now apply pymin_pos).
  assert (Hb : bounds [] half die_x die_y = Some (- r, r, - r, r)).
  { unfold bounds, pyceil. now rewrite (pydiv_pos half _ Hmin), Hfinite. }
  assert (Hr : 1 <= r).
  { assert (Hhalf : fleb (of_int 0) half = true).
    { apply div_nonneg; [now apply pos_nonneg | apply two_pos |].
      exact (div_finite _ _ Hfinite). }
    pose proof (ceil_nonneg _ Hfinite (div_nonneg _ _ Hhalf Hmin Hfinite)).
    unfold r. lia. }
  rewrite Forall_forall in Hcells.
  exists (map (fun gy => map (fun gx => cell [] half die_x die_y show_edge gx gy)
                             (range_up (- r) r))
              (range_down r (- r))).
  split.
  { unfold build_grid. cbv zeta. fold half. rewrite Hset, Hb.
    apply for_each_all. intros gy Hgy. apply for_each_all. intros gx Hgx.
    apply In_range_down_iff in Hgy. apply (In_range_up_iff (- r) r) in Hgy.
    unfold eval_cell, cell.
    now rewrite (eval_dist_ok _ _ _ _ (proj1 (Hcells gx Hgx)) (proj2 (Hcells gy Hgy))). }
  split.
  { unfold layout. cbv zeta. fold half. now rewrite Hset, Hb. }
  split; [exact Hr|]. split.
  - unfold range_down. rewrite !length_map, length_seq. lia.
  - apply Forall_forall. intros row Hrow.
    apply in_map_iff in Hrow as [gy [<- _]]. split.
    + unfold range_up. rewrite !length_map, length_seq. lia.
    + apply Forall_forall. intros c Hc.
      apply in_map_iff in Hc as [gx [<- _]]. apply cell_empty_set.
Qed.

End Fallback.

(** ** The laws hold for the rationals *)

Section RationalLaws.
Open Scope Q_scope.

Lemma fltb_Q (a b : Q) : fltb a b = true <-> a < b.
Proof.
  cbn. rewrite negb_true_iff. split.
  - intros Hle. apply Qnot_le_lt. intros Hba.
    apply Qle_bool_iff in Hba. congruence.
  - intros Hlt. destruct (Qle_bool b a) eqn:Hle; [|reflexivity].
    apply Qle_bool_iff in Hle. exfalso. exact (Qlt_not_le _ _ Hlt Hle).
Qed.

Lemma fleb_Q (a b : Q) : fleb a b = true <-> a <= b.
Proof. apply Qle_bool_iff. Qed.

Lemma feqb_Q (a b : Q) : feqb a b = true <-> a == b.
Proof. apply Qeq_bool_iff. Qed.

#[export] Instance QSign : SignLaws Q.
Proof.
  constructor.
  - intros a Ha. apply fltb_Q in Ha.
    destruct (feqb a (of_int 0)) eqn:He; [|reflexivity].
    apply feqb_Q in He. rewrite He in Ha. exfalso. exact (Qlt_irrefl _ Ha).
  - intros a Ha. apply fltb_Q in Ha. apply fleb_Q. now apply Qlt_le_weak.
  - reflexivity.
  - reflexivity.
  - intros a b Ha Hb _. apply fleb_Q in Ha. apply fltb_Q in Hb. apply fleb_Q.
    change (fdiv a b) with (a / b). change (of_int 0%Z) with 0 in *.
    apply Qle_shift_div_l; [exact Hb|]. now rewrite Qmult_0_l.
  - intros a _ Ha. apply fleb_Q in Ha. change (of_int 0%Z) with 0 in Ha.
    change (fceil a) with (Qceiling a).
    apply Qle_trans with (z := inject_Z (Qceiling a)) in Ha; [|apply Qle_ceiling].
    rewrite Zle_Qle. exact Ha.
Qed.

End RationalLaws.

(** ** The grid builder on concrete wafers *)

Section BuilderExamples.

Lemma build_one_die :
  build_grid one_die (2 # 1) (1 # 1) (1 # 1) false
  = Some [["."; "."; "."]; ["."; "?"; "."]; ["."; "."; "."]].
Proof. vm_compute. reflexivity. Qed.

Lemma grid_containment_witness :
  exists die_set b,
    layout one_die (2 # 1) (1 # 1) (1 # 1) = Some (die_set, b).
Proof.
  destruct (grid_containment one_die (2 # 1) (1 # 1) (1 # 1) false _ build_one_die)
    as [ds [b [Hl _]]].
  exists ds, b. exact Hl.
Defined.

Lemma build_one_die_edges :
  build_grid one_die (3 # 1) (1 # 1) (1 # 1) true
  = Some [["."; "*"; "."]; ["*"; "?"; "*"]; ["."; "*"; "."]].
Proof. vm_compute. reflexivity. Qed.

Lemma edge_adjacency_witness :
  exists die_set b,
    layout one_die (3 # 1) (1 # 1) (1 # 1) = Some (die_set, b)
    /\ forall i j c,
         cell_at [["."; "*"; "."]; ["*"; "?"; "*"]; ["."; "*"; "."]] i j = Some c ->
         (c = "*" <->
          true = true
          /\ c <> "?"
          /\ fleb (dist (1 # 1) (1 # 1) (fst (index_at b i j)) (snd (index_at b i j)))
                  (fdiv (3 # 1) (of_int 2)) = true
          /\ mem (fst (index_at b i j) - 1, snd (index_at b i j)) die_set
             || mem (fst (index_at b i j) + 1, snd (index_at b i j)) die_set
             || mem (fst (index_at b i j), snd (index_at b i j) - 1) die_set
             || mem (fst (index_at b i j), snd (index_at b i j) + 1) die_set = true).
Proof.
  destruct (edge_adjacency one_die (3 # 1) (1 # 1) (1 # 1) true _ build_one_die_edges)
    as [ds [b [Hl Hcells]]].
  exists ds, b. split; [exact Hl|].
  intros i j c Hc. apply (Hcells i j c Hc). reflexivity.
Defined.

Lemma outside_and_inside_empty_same_symbol_witness :
  cell [(0, 0)] (1 # 1) (1 # 1) (1 # 1) false (-1) 1 = "."
  /\ cell [(0, 0)] (1 # 1) (1 # 1) (1 # 1) false 0 1 = ".".
Proof.
  destruct (outside_and_inside_empty_same_symbol
              [(0, 0)] (1 # 1) (1 # 1) (1 # 1) false (-1) 1 0 1)
    as [H1 [H2 _]]; try (vm_compute; reflexivity).
  split; assumption.
Defined.

(** C4, as stated, fails: on the wafer of [build_one_die] the corner cell
    [(-1, 1)] is outside the radius and the cell [(0, 1)] is within it,
    unoccupied and no edge, and both hold a dot; and no die set, radius,
    die size or index makes the two kinds of cell differ. *)
Lemma outside_inside_empty_distinct_fails :
  (fltb (1 # 1) (dist (1 # 1) (1 # 1) (-1) 1) = true
   /\ fltb (1 # 1) (dist (1 # 1) (1 # 1) 0 1) = false
   /\ cell [(0, 0)] (1 # 1) (1 # 1) (1 # 1) false (-1) 1
      = cell [(0, 0)] (1 # 1) (1 # 1) (1 # 1) false 0 1)
  /\ ~ exists (die_set : DieSet) (half die_x die_y : Q) (show_edge : bool)
         (gx gy gx' gy' : Z),
         fltb half (dist die_x die_y gx gy) = true
         /\ fltb half (dist die_x die_y gx' gy') = false
         /\ mem (gx', gy') die_set = false
         /\ show_edge && has_neighbour die_set gx' gy' = false
         /\ cell die_set half die_x die_y show_edge gx gy
            <> cell die_set half die_x die_y show_edge gx' gy'.
Proof.
  split; [repeat split; vm_compute; reflexivity|].
  intros [ds [half [dx [dy [se [gx [gy [gx' [gy' [Ho [_ [Hm [He Hne]]]]]]]]]]]]].
  apply Hne.
  rewrite (cell_outside ds half dx dy se gx gy Ho).
  now rewrite (cell_inside_empty ds half dx dy se gx' gy' Hm He).
Qed.

End BuilderExamples.

(** ** The grid builder out of the range of the floats *)

Section RangedLaws.
Open Scope Q_scope.

Lemma x_zero : of_int (F := xfloat) 0%Z = Fin 0.
Proof. vm_compute. reflexivity. Qed.

Lemma Q_pos_nonzero (p : Q) : negb (Qle_bool p 0) = true -> Qeq_bool p 0 = false.
Proof.
  intros Hlt. apply negb_true_iff in Hlt.
  destruct (Qeq_bool p 0) eqn:He; [|reflexivity].
  apply Qeq_bool_iff in He.
  assert (Hle : Qle_bool p 0 = true) by (apply Qle_bool_iff; rewrite He; apply Qle_refl).
  congruence.
Qed.

(** The sign laws hold where [round] and [math.ceil] can raise. *)
#[export] Instance XSign : SignLaws xfloat.
Proof.
  constructor.
  - intros a. rewrite x_zero.
    destruct a as [p|s|]; cbv [fltb feqb XFloat x_ltb x_eqb];
      [apply Q_pos_nonzero | reflexivity | reflexivity].
  - intros a. rewrite x_zero.
    destruct a as [p|s|]; cbv [fltb fleb XFloat x_ltb x_leb];
      [| exact (fun h => h) | discriminate].
    intros Hlt. apply (proj1 (fltb_Q 0 p)) in Hlt.
    apply Qle_bool_iff. now apply Qlt_le_weak.
  - vm_compute. reflexivity.
  - intros [p|s|] [q|t|]; cbv [is_finite fdiv XFloat x_div x_finite];
      intros Hf; try reflexivity; discriminate Hf.
  - intros a b. rewrite x_zero.
    destruct a as [p|s|], b as [q|t|];
      cbv [is_finite fltb fleb fdiv XFloat x_div x_finite x_ltb x_leb];
      intros Ha Hb Hf; try discriminate; try reflexivity.
    rewrite (Q_pos_nonzero q Hb) in Hf |- *.
    unfold ranged in Hf |- *.
    destruct (Qle_bool (Qabs (p / q)) max_float); [|discriminate Hf].
    apply Qle_bool_iff in Ha. apply (proj1 (fltb_Q 0 q)) in Hb.
    apply Qle_bool_iff. apply Qle_shift_div_l; [exact Hb|]. now rewrite Qmult_0_l.
  - intros a. rewrite x_zero.
    destruct a as [p|s|]; cbv [is_finite fleb fceil XFloat x_finite x_leb x_ceil];
      intros Hf Ha; try discriminate Hf.
    apply Qle_bool_iff in Ha.
    apply Qle_trans with (z := inject_Z (Qceiling p)) in Ha; [|apply Qle_ceiling].
    rewrite Zle_Qle. exact Ha.
Qed.

End RangedLaws.

Section OutOfRange.

(** C10, as stated, fails.  With the diameter 1, the die sizes 1 and 1e-320
    (all positive) and no coordinate, the quotient of the radius by the
    smaller die size is out of range: its ceiling raises and [build_grid]
    returns no grid, whatever [show_edge].  With the die sizes 1e200 and 1
    the quotient is finite and gives [r = 2], but the second power of
    [-2 * 1e200], in the distance of the first cell, is out of range, and
    [build_grid] raises again. *)
Theorem empty_input_fallback_out_of_range :
  (fltb (of_int 0) (Fin 1) = true
   /\ fltb (of_int 0) tiny = true
   /\ is_finite (fdiv (fdiv (Fin 1) (of_int 2)) (pymin (Fin 1) tiny)) = false
   /\ forall show_edge : bool,
        build_grid (@nil (Coord xfloat)) (Fin 1) (Fin 1) tiny show_edge = None)
  /\ (fltb (of_int 0) huge = true
      /\ bounds (@nil (Z * Z)) (fdiv (Fin 1) (of_int 2)) huge (Fin 1)
         = Some (-2, 2, -2, 2)%Z
      /\ square_ok huge (-2) = false
      /\ forall show_edge : bool,
           build_grid (@nil (Coord xfloat)) (Fin 1) huge (Fin 1) show_edge = None).
Proof.
  split; repeat split; try (intros []); vm_compute; reflexivity.
Qed.

Lemma empty_input_fallback_witness :
  exists grid,
    build_grid (@nil (Coord xfloat)) (Fin (10 # 1)) (Fin 1) (Fin 1) true = Some grid
    /\ Z.of_nat (List.length grid) = 13%Z.
Proof.
  assert (H1 : fltb (of_int 0) (Fin (10 # 1)) = true) by (vm_compute; reflexivity).
  assert (H2 : fltb (of_int 0) (Fin 1) = true) by (vm_compute; reflexivity).
  assert (H3 : is_finite (fdiv (fdiv (Fin (10 # 1)) (of_int 2)) (pymin (Fin 1) (Fin 1)))
               = true) by (vm_compute; reflexivity).
  assert (H4 : Forall (fun g => square_ok (Fin 1) g = true /\ square_ok (Fin 1) g = true)
                 (range_up
                    (- (fceil (fdiv (fdiv (Fin (10 # 1)) (of_int 2))
                                 (pymin (Fin 1) (Fin 1))) + 1))
                    (fceil (fdiv (fdiv (Fin (10 # 1)) (of_int 2))
                              (pymin (Fin 1) (Fin 1))) + 1))).
  { match goal with
    | |- Forall ?P ?l => let l' := eval vm_compute in l in change (Forall P l')
    end.
    repeat (constructor; [split; vm_compute; reflexivity|]). constructor. }
  pose proof (empty_input_fallback (@nil (Coord xfloat)) (Fin (10 # 1)) (Fin 1) (Fin 1)
                true H1 H2 H2 H3 H4 (Forall_nil _)) as Hw.
  cbv zeta in Hw. destruct Hw as [grid [Hg [_ [_ [Hl _]]]]].
  exists grid. split; [exact Hg|]. rewrite Hl. vm_compute. reflexivity.
Defined.

End OutOfRange.

(** ** The coordinate extractor *)

Section ExtractorFacts.
Context {F : Type} `{PyFloat F}.

Lemma drop_prefix_spec (p s r : string) :
  drop_prefix p s = Some r -> s = p ++ r.
Proof.
  revert s; induction p as [|a p IH]; intros s; cbn [drop_prefix].
  - now intros [= ->].
  - destruct s as [|b s]; [discriminate|].
    destruct (Ascii.eqb_spec a b) as [->|_]; [|discriminate].
    intros Hd. cbn [append]. now rewrite (IH s Hd).
Qed.

(** The four patterns exclude one another. *)
Lemma re_xy_shape (line : string) :
  re_xy line <> None -> exists r, line = "XY" ++ r.
Proof.
  unfold re_xy. destruct (drop_prefix "XY" line) as [r|] eqn:Hd.
  - intros _. exists r. now apply drop_prefix_spec.
  - intros Hn. now elim Hn.
Qed.

Lemma re_endel_shape (line : string) :
  re_endel line = true -> exists r, line = "ENDEL" ++ r.
Proof.
  unfold re_endel. destruct (drop_prefix "ENDEL" line) as [r|] eqn:Hd.
  - intros _. exists r. now apply drop_prefix_spec.
  - discriminate.
Qed.

Lemma xy_is_only_xy (line : string) :
  is_xy line = true -> is_sref line = false /\ is_sname line = false.
Proof.
  unfold is_xy, is_sref, is_sname. intros Hxy.
  destruct (re_xy_shape (strip line)) as [r ->].
  - intros Hn. now rewrite Hn in Hxy.
  - split; reflexivity.
Qed.

Lemma endel_is_only_endel (line : string) :
  is_endel line = true ->
  is_sref line = false /\ is_sname line = false /\ is_xy line = false.
Proof.
  unfold is_endel, is_xy, is_sref, is_sname. intros He.
  destruct (re_endel_shape (strip line) He) as [r ->].
  repeat split; reflexivity.
Qed.

Lemma run_app (names : list string) (st : state) (l1 l2 : list string) :
  run names st (l1 ++ l2) = run names (run names st l1) l2.
Proof. apply fold_left_app. Qed.

Lemma run_cons (names : list string) (st : state) (l : string) (ls : list string) :
  run names st (l :: ls) = run names (step names st l) ls.
Proof. reflexivity. Qed.

(** A line that is not an [SREF] line leaves a closed block closed. *)
Lemma step_stays_outside (names : list string) (st : state) (line : string) :
  in_sref st = false -> is_sref line = false ->
  step names st line = st.
Proof.
  unfold is_sref, step; intros Hin Hs. cbv zeta. now rewrite Hs, Hin.
Qed.

Lemma run_stays_outside (names : list string) (lines : list string) (st : state) :
  in_sref st = false -> (forall l, In l lines -> is_sref l = false) ->
  run names st lines = st.
Proof.
  revert st; induction lines as [|l lines IH]; intros st Hin Hs; [reflexivity|].
  rewrite run_cons.
  rewrite step_stays_outside; [|exact Hin|apply Hs; now left].
  apply IH; [exact Hin|]. intros l' Hl'. apply Hs. now right.
Qed.

Lemma step_endel_closes (names : list string) (st : state) (line : string) :
  is_endel line = true -> in_sref (step names st line) = false.
Proof.
  intros He. destruct (endel_is_only_endel line He) as [Hs [Hn Hx]].
  unfold is_sref, is_sname, is_xy, is_endel in *. unfold step. cbv zeta.
  rewrite Hs. destruct (in_sref st) eqn:Hin; cbn [negb]; [|exact Hin].
  destruct (re_sname (strip line)); [discriminate|].
  destruct (re_xy (strip line)); [discriminate|].
  now rewrite He.
Qed.

(** A line that is not an [SNAME] line sets no structure name. *)
Lemma step_keeps_no_name (names : list string) (st : state) (line : string) :
  cur_sname st = None -> is_sname line = false ->
  cur_sname (step names st line) = None.
Proof.
  unfold is_sname, step; intros Hc Hn. cbv zeta.
  destruct (re_sref (strip line)); [reflexivity|].
  destruct (negb (in_sref st)); [exact Hc|].
  destruct (re_sname (strip line)); [discriminate|].
  destruct (re_xy (strip line)) as [[a b]|].
  - rewrite Hc. cbn [accepts]. exact Hc.
  - destruct (re_endel (strip line)); exact Hc.
Qed.

Lemma run_keeps_no_name (names : list string) (lines : list string) (st : state) :
  cur_sname st = None -> (forall l, In l lines -> is_sname l = false) ->
  cur_sname (run names st lines) = None.
Proof.
  revert st; induction lines as [|l lines IH]; intros st Hc Hn; [exact Hc|].
  rewrite run_cons. apply IH.
  - apply step_keeps_no_name; [exact Hc|]. apply Hn; now left.
  - intros l' Hl'. apply Hn. now right.
Qed.

Lemma step_sref_clears (names : list string) (st : state) (line : string) :
  is_sref line = true -> cur_sname (step names st line) = None.
Proof. unfold is_sref, step; intros Hs. cbv zeta. now rewrite Hs. Qed.

(** The state the [XY] line of the claim is met in. *)
Lemma state_outside_block (names : list string) (pre : list string) :
  outside_block pre -> in_sref (run (F := F) names init pre) = false.
Proof.
  intros [Hno|[l1 [e [l2 [-> [He Hno]]]]]].
  - now rewrite run_stays_outside.
  - rewrite run_app, run_cons.
    rewrite (run_stays_outside names l2); [| |exact Hno];
      now apply step_endel_closes.
Qed.

Lemma state_before_sname (names : list string) (pre : list string) :
  before_sname pre -> cur_sname (run (F := F) names init pre) = None.
Proof.
  intros [l1 [s [l2 [-> [Hs Hno]]]]].
  rewrite run_app, run_cons.
  apply run_keeps_no_name; [|exact Hno]. now apply step_sref_clears.
Qed.

Lemma step_xy_silent (names : list string) (st : state) (line : string) :
  is_xy line = true -> in_sref st = false \/ cur_sname st = None ->
  step names st line = st.
Proof.
  intros Hxy Hst. destruct (xy_is_only_xy line Hxy) as [Hs Hn].
  unfold is_xy, is_sref, is_sname in *. unfold step. cbv zeta. rewrite Hs.
  destruct (in_sref st) eqn:Hin; cbn [negb]; [|reflexivity].
  destruct Hst as [Hst|Hst]; [discriminate|].
  destruct (re_sname (strip line)); [discriminate|].
  destruct (re_xy (strip line)) as [[a b]|]; [|discriminate].
  now rewrite Hst.
Qed.

(** C8: an [XY] line of a listing that lies outside every [SREF ... ENDEL]
    block, or inside a block before any [SNAME] line of it, gives no
    placement record: the records extracted up to and including the line
    are those extracted before it, and the records of the whole listing are
    those of the listing without the line, whatever the filter. *)
Theorem extraction_scoping
    (text : string) (names : list string) (pre : list string) (line : string)
    (post : list string)
    (Hlines : splitlines text = (pre ++ line :: post)%list)
    (Hxy : is_xy line = true)
    (Hscope : outside_block pre \/ before_sname pre) :
  parse_lines (F := F) names (pre ++ [line]) = parse_lines names pre
  /\ parse_gds2 (F := F) text names = parse_lines names (pre ++ post).
Proof.
  assert (Hstep : step names (run (F := F) names init pre) line
                  = run names init pre).
  { apply step_xy_silent; [exact Hxy|].
    destruct Hscope as [Ho|Hb].
    - left. now apply state_outside_block.
    - right. now apply state_before_sname. }
  unfold parse_gds2, parse_lines. rewrite Hlines, !run_app, !run_cons.
  now rewrite Hstep.
Qed.

End ExtractorFacts.

Lemma extraction_scoping_witness :
  parse_gds2 (F := Q)
    ("SREF" ++ NL ++ "XY 1:2" ++ NL ++ "SNAME a" ++ NL ++ "XY 3:4" ++ NL ++ "ENDEL")
    []
  = parse_lines [] (["SREF"] ++ ["SNAME a"; "XY 3:4"; "ENDEL"]).
Proof.
  apply (extraction_scoping _ [] ["SREF"] "XY 1:2" ["SNAME a"; "XY 3:4"; "ENDEL"]).
  - reflexivity.
  - reflexivity.
  - right. exists [], "SREF", []. repeat split. intros l [].
Defined.

(** ** The pitch detector *)

Section SortingFacts.
Context {F : Type} `{PyFloat F} `{!OrderLaws F}.

Lemma feqb_congr (a b c : F) : feqb a b = true -> feqb a c = feqb b c.
Proof.
  intros Hab.
  destruct (feqb a c) eqn:Hac, (feqb b c) eqn:Hbc; try reflexivity.
  - rewrite feqb_sym in Hab. now rewrite (feqb_trans b a c Hab Hac) in Hbc.
  - now rewrite (feqb_trans a b c Hab Hbc) in Hac.
Qed.

Lemma In_insert (x z : F) (l : list F) : In z (insert x l) <-> z = x \/ In z l.
Proof.
  induction l as [|y l IH]; cbn [insert].
  - simpl. intuition.
  - destruct (fltb y x); cbn [In]; [rewrite IH|]; intuition.
Qed.

Lemma In_sorted (z : F) (l : list F) : In z (sorted l) <-> In z l.
Proof.
  unfold sorted. induction l as [|x l IH]; cbn [fold_right]; [reflexivity|].
  rewrite In_insert, IH. cbn [In]. intuition.
Qed.

Lemma In_distinct (z : F) (l : list F) : In z (distinct l) -> In z l.
Proof.
  revert z; induction l as [|x l IH]; intros z; cbn [distinct In]; [auto|].
  intros [->|Hz]; [now left|]. apply filter_In in Hz as [Hz _]. right; now apply IH.
Qed.

Lemma distinct_covers (v : F) (l : list F) :
  In v l -> exists u, In u (distinct l) /\ feqb u v = true.
Proof.
  induction l as [|x l IH]; [intros []|]. cbn [distinct In].
  intros [->|Hv].
  - exists v. split; [now left | apply feqb_refl].
  - destruct (IH Hv) as [u [Hu Huv]].
    destruct (feqb x u) eqn:Hxu.
    + exists x. split; [now left|]. now apply (feqb_trans x u v).
    + exists u. split; [|exact Huv]. right. apply filter_In.
      split; [exact Hu | now rewrite Hxu].
Qed.

Lemma all_differ_filter (p : F -> bool) (l : list F) :
  all_differ l -> all_differ (filter p l).
Proof.
  unfold all_differ. induction 1 as [|a l Ha _ IH]; cbn [filter]; [constructor|].
  destruct (p a); [|exact IH]. constructor; [|exact IH].
  apply Forall_forall. intros b Hb. apply filter_In in Hb as [Hb _].
  revert b Hb. now apply Forall_forall.
Qed.

Lemma all_differ_distinct (l : list F) : all_differ (distinct l).
Proof.
  induction l as [|x l IH]; cbn [distinct]; [constructor|].
  constructor; [|now apply all_differ_filter].
  apply Forall_forall. intros y Hy. apply filter_In in Hy as [_ Hy].
  now apply negb_true_iff in Hy.
Qed.

Lemma all_differ_insert (x : F) (l : list F) :
  Forall (fun y => feqb x y = false) l -> all_differ l -> all_differ (insert x l).
Proof.
  unfold all_differ. intros Hx Hl; induction Hl as [|y l Hy Hl IH]; cbn [insert].
  - repeat constructor.
  - inversion Hx as [|? ? Hxy Hx']; subst.
    destruct (fltb y x).
    + constructor; [|now apply IH].
      apply Forall_forall. intros z Hz. apply In_insert in Hz as [->|Hz].
      * now rewrite feqb_sym.
      * revert z Hz. now apply Forall_forall.
    + constructor; [exact Hx|]. now constructor.
Qed.

Lemma all_differ_sorted (l : list F) : all_differ l -> all_differ (sorted l).
Proof.
  intros Hl. unfold all_differ in Hl. induction Hl as [|x l Hx _ IH].
  - constructor.
  - change (sorted (x :: l)) with (insert x (sorted l)).
    apply all_differ_insert; [|exact IH].
    apply Forall_forall. intros y Hy. apply (proj1 (In_sorted y l)) in Hy.
    revert y Hy. now apply Forall_forall.
Qed.

Lemma insert_weakly_sorted (x : F) (l : list F) :
  Sorted not_after l -> Sorted not_after (insert x l).
Proof.
  induction 1 as [|y l Hl IH Hy]; cbn [insert]; [repeat constructor|].
  destruct (fltb y x) eqn:Hyx.
  - constructor; [exact IH|].
    destruct l as [|z l]; cbn [insert].
    + constructor. unfold not_after. now apply fltb_asym.
    + destruct (fltb z x); constructor.
      * now inversion Hy.
      * unfold not_after. now apply fltb_asym.
  - constructor; [now constructor|]. constructor. exact Hyx.
Qed.

Lemma sorted_weakly (l : list F) : Sorted not_after (sorted l).
Proof.
  unfold sorted. induction l as [|x l IH]; cbn [fold_right]; [constructor|].
  now apply insert_weakly_sorted.
Qed.

Lemma weakly_sorted_strict (l : list F) :
  Sorted not_after l -> all_differ l -> Sorted (fun a b => fltb a b = true) l.
Proof.
  induction 1 as [|a l Hl IH Ha]; intros Hd; [constructor|].
  unfold all_differ in Hd. inversion Hd as [|? ? Hda Hdl]; subst.
  constructor; [now apply IH|].
  destruct Ha as [|b l Hab]; constructor.
  inversion Hda as [|? ? Hne _]; subst.
  destruct (fltb a b) eqn:Hlt; [reflexivity|].
  now rewrite (fltb_total a b Hlt Hab) in Hne.
Qed.

Lemma sorted_distinct_ascending (l : list F) : ascending (sorted (distinct l)).
Proof.
  apply Sorted_StronglySorted.
  - intros a b c. apply fltb_trans.
  - apply weakly_sorted_strict; [apply sorted_weakly|].
    apply all_differ_sorted, all_differ_distinct.
Qed.

(** [sorted(set(values))] is the ascending list of the distinct values. *)
Lemma sorted_distinct_spec (values : list F) :
  distinct_sorted values (sorted (distinct values)).
Proof.
  split; [apply sorted_distinct_ascending|]. split.
  - intros v Hv. now apply In_distinct, In_sorted.
  - intros v Hv. destruct (distinct_covers v values Hv) as [u [Hu Huv]].
    exists u. split; [now apply In_sorted | exact Huv].
Qed.

(** On an ascending list the differences the code keeps are all the
    consecutive differences, and so are those of the design document. *)
Lemma ascending_differences (vals : list F) :
  ascending vals ->
  filter (fun d => fltb (of_int 0) d) (abs_diffs vals) = differences vals
  /\ positive_differences vals = differences vals.
Proof.
  unfold ascending, positive_differences.
  induction 1 as [|a l Hl IH Ha]; [split; reflexivity|].
  destruct l as [|b l]; [split; reflexivity|].
  inversion Ha as [|? ? Hab _]; subst.
  pose proof (fsub_pos a b Hab) as Hpos.
  destruct IH as [IH1 IH2].
  cbn [abs_diffs differences filter].
  rewrite (fabs_pos _ Hpos), Hpos, (fpos_nonzero _ Hpos). cbn [negb filter].
  rewrite Hpos. cbn [abs_diffs differences] in IH1, IH2.
  split; f_equal; assumption.
Qed.

End SortingFacts.

Section CounterFacts.
Context {F : Type} `{PyFloat F} `{!OrderLaws F}.

Lemma occurrences_snoc (k d : F) (l : list F) :
  occurrences k (l ++ [d])
  = (occurrences k l + if feqb k d then 1 else 0)%nat.
Proof.
  unfold occurrences. rewrite filter_app, length_app. cbn [filter].
  now destruct (feqb k d).
Qed.

Lemma occurrences_congr (a b : F) (l : list F) :
  feqb a b = true -> occurrences a l = occurrences b l.
Proof.
  intros Hab. unfold occurrences. f_equal. apply filter_ext.
  intros e. now apply feqb_congr.
Qed.

Lemma occurrences_none (d : F) (l : list F) :
  (forall e, In e l -> feqb d e = false) -> occurrences d l = O.
Proof.
  unfold occurrences. induction l as [|e l IH]; intros Hl; [reflexivity|].
  cbn [filter]. rewrite (Hl e) by now left.
  apply IH. intros e' He'. apply Hl. now right.
Qed.

Lemma all_differ_snoc (l : list F) (x : F) :
  all_differ l -> Forall (fun a => feqb a x = false) l -> all_differ (l ++ [x]).
Proof.
  unfold all_differ. induction 1 as [|a l Ha _ IH]; intros Hx; cbn [app].
  - repeat constructor.
  - inversion Hx as [|? ? Hax Hx']; subst. constructor; [|now apply IH].
    apply Forall_app. split; [exact Ha | now constructor].
Qed.

Lemma all_differ_after (l1 : list F) (a : F) (l2 : list F) :
  all_differ (l1 ++ a :: l2) -> Forall (fun b => feqb a b = false) l2.
Proof.
  unfold all_differ. induction l1 as [|x l1 IH]; cbn [app]; intros Hd;
    inversion Hd; subst; [assumption | now apply IH].
Qed.

(** What [count_up] does: it adds one to the first key equal to [d], or
    puts [d] at the end when no key equals it. *)
Lemma count_up_cases (d : F) (c : list (F * nat)) :
  (exists c1 k n c2,
      c = (c1 ++ (k, n) :: c2)%list /\ feqb k d = true
      /\ (forall p, In p c1 -> feqb (fst p) d = false)
      /\ count_up d c = (c1 ++ (k, S n) :: c2)%list)
  \/ ((forall p, In p c -> feqb (fst p) d = false)
      /\ count_up d c = (c ++ [(d, 1%nat)])%list).
Proof.
  induction c as [|[k n] c IH]; cbn [count_up].
  - right. split; [intros p []|reflexivity].
  - destruct (feqb k d) eqn:Hkd.
    + left. exists [], k, n, c. repeat split; auto. intros p [].
    + destruct IH as [[c1 [k' [n' [c2 [-> [Hk' [Hc1 ->]]]]]]]|[Hc ->]].
      * left. exists ((k, n) :: c1), k', n', c2. repeat split; auto.
        intros p [<-|Hp]; [exact Hkd | now apply Hc1].
      * right. split; [|reflexivity].
        intros p [<-|Hp]; [exact Hkd | now apply Hc].
Qed.

Lemma counted_step (c : list (F * nat)) (l : list F) (d : F) :
  counted c l -> counted (count_up d c) (l ++ [d]).
Proof.
  intros [Hdiff [Hcount Hcover]].
  destruct (count_up_cases d c)
    as [[c1 [k [n [c2 [Hc [Hkd [Hc1 ->]]]]]]]|[Hmiss ->]].
  - subst c.
    assert (Hc2 : forall k' n', In (k', n') c2 -> feqb k' d = false).
    { intros k' n' Hin. rewrite map_app in Hdiff. cbn [map fst] in Hdiff.
      apply all_differ_after in Hdiff.
      assert (Hkk' : feqb k k' = false).
      { revert Hdiff. rewrite Forall_forall. intros Hd. apply Hd.
        apply in_map_iff. now exists (k', n'). }
      destruct (feqb k' d) eqn:Hk'd; [|reflexivity].
      rewrite (feqb_congr k d k' Hkd), feqb_sym in Hkk'. congruence. }
    split; [|split].
    + rewrite map_app in Hdiff |- *. exact Hdiff.
    + intros k' n' Hin. apply in_app_iff in Hin as [Hin|[Heq|Hin]].
      * destruct (Hcount k' n') as [Hk' ->]; [apply in_app_iff; now left|].
        split; [apply in_app_iff; now left|].
        pose proof (Hc1 _ Hin) as Hk'd. cbn [fst] in Hk'd.
        rewrite occurrences_snoc, Hk'd. lia.
      * injection Heq as <- <-.
        destruct (Hcount k n) as [Hk ->]; [apply in_app_iff; right; now left|].
        split; [apply in_app_iff; now left|].
        rewrite occurrences_snoc, Hkd. lia.
      * destruct (Hcount k' n') as [Hk' ->];
          [apply in_app_iff; right; now right|].
        split; [apply in_app_iff; now left|].
        rewrite occurrences_snoc, (Hc2 k' _ Hin). lia.
    + intros e He. apply in_app_iff in He as [He|[<-|[]]].
      * destruct (Hcover e He) as [k' [n' [Hin Hk'e]]].
        apply in_app_iff in Hin as [Hin|[Heq|Hin]].
        -- exists k', n'. split; [apply in_app_iff; now left | exact Hk'e].
        -- injection Heq as <- <-. exists k, (S n).
           split; [apply in_app_iff; right; now left | exact Hk'e].
        -- exists k', n'. split; [apply in_app_iff; right; now right | exact Hk'e].
      * exists k, (S n). split; [apply in_app_iff; right; now left | exact Hkd].
  - assert (Hfresh : forall e, In e l -> feqb d e = false).
    { intros e He. destruct (Hcover e He) as [k [n [Hin Hke]]].
      destruct (feqb d e) eqn:Hde; [|reflexivity].
      pose proof (Hmiss (k, n) Hin) as Hkd. cbn [fst] in Hkd.
      rewrite feqb_sym in Hde. rewrite (feqb_trans k e d Hke Hde) in Hkd.
      discriminate. }
    split; [|split].
    + rewrite map_app. cbn [map fst]. apply all_differ_snoc; [exact Hdiff|].
      apply Forall_forall. intros k Hk. apply in_map_iff in Hk as [p [<- Hp]].
      now apply Hmiss.
    + intros k n Hin. apply in_app_iff in Hin as [Hin|[Heq|[]]].
      * destruct (Hcount k n Hin) as [Hk ->].
        split; [apply in_app_iff; now left|].
        pose proof (Hmiss _ Hin) as Hkd. cbn [fst] in Hkd.
        rewrite occurrences_snoc, Hkd. lia.
      * injection Heq as <- <-.
        split; [apply in_app_iff; right; now left|].
        rewrite occurrences_snoc, feqb_refl, (occurrences_none d l Hfresh).
        reflexivity.
    + intros e He. apply in_app_iff in He as [He|[<-|[]]].
      * destruct (Hcover e He) as [k [n [Hin Hke]]].
        exists k, n. split; [apply in_app_iff; now left | exact Hke].
      * exists d, 1%nat. split; [apply in_app_iff; right; now left | apply feqb_refl].
Qed.

Lemma counted_fold (l2 : list F) (c : list (F * nat)) (l1 : list F) :
  counted c l1 ->
  counted (fold_left (fun c d => count_up d c) l2 c) (l1 ++ l2).
Proof.
  revert c l1; induction l2 as [|d l2 IH]; intros c l1 Hc.
  - now rewrite app_nil_r.
  - cbn [fold_left].
    replace (l1 ++ d :: l2)%list with ((l1 ++ [d]) ++ l2)%list
      by (now rewrite <- app_assoc).
    apply IH. now apply counted_step.
Qed.

Lemma Counter_counted (l : list F) : counted (Counter l) l.
Proof.
  apply (counted_fold l [] []). split; [constructor|].
  split; [intros k n [] | intros e []].
Qed.

Lemma max_item_spec (items : list (F * nat)) (best : F * nat) :
  let m := max_item best items in
  (m = best \/ In m items)
  /\ (snd best <= snd m)%nat
  /\ forall it, In it items -> (snd it <= snd m)%nat.
Proof.
  revert best; induction items as [|it items IH]; intros best; cbn [max_item fold_left].
  - split; [now left|]. split; [lia | intros it []].
  - fold (max_item (if (snd best <? snd it)%nat then it else best) items).
    destruct (IH (if (snd best <? snd it)%nat then it else best)) as [Hm [Hb Hall]].
    destruct (snd best <? snd it)%nat eqn:Hlt.
    + apply Nat.ltb_lt in Hlt. split; [right; destruct Hm as [->|Hm]; [now left|now right]|].
      split; [lia|]. intros it' [<-|Hin]; [exact Hb | now apply Hall].
    + apply Nat.ltb_ge in Hlt. split; [destruct Hm as [->|Hm]; [now left|right; now right]|].
      split; [exact Hb|]. intros it' [<-|Hin]; [lia | now apply Hall].
Qed.

(** [Counter(l).most_common(1)[0][0]] is a most frequent value of [l]. *)
Lemma most_common_spec (l : list F) (it : F * nat) (items : list (F * nat)) :
  Counter l = it :: items -> most_frequent (fst (max_item it items)) l.
Proof.
  intros Hc. destruct (Counter_counted l) as [_ [Hcount Hcover]].
  rewrite Hc in Hcount, Hcover.
  destruct (max_item_spec items it) as [Hm [Hb Hall]].
  set (m := max_item it items) in *.
  assert (Hin : In m (it :: items)) by (destruct Hm as [->|Hm]; [now left|now right]).
  destruct m as [d n]. destruct (Hcount d n Hin) as [Hd Hn]. cbn [fst snd] in *.
  split; [exact Hd|].
  intros d' Hd'. destruct (Hcover d' Hd') as [k [n' [Hk Hkd']]].
  destruct (Hcount k n' Hk) as [_ Hn'].
  rewrite <- (occurrences_congr k d' l Hkd'), <- Hn', <- Hn.
  destruct Hk as [Heq|Hk]; [rewrite Heq in Hb; exact Hb | exact (Hall _ Hk)].
Qed.

Lemma Counter_nil (l : list F) : Counter l = [] -> l = [].
Proof.
  intros Hc. destruct (Counter_counted l) as [_ [_ Hcover]].
  destruct l as [|e l]; [reflexivity|].
  destruct (Hcover e) as [k [n [Hin _]]]; [now left|].
  rewrite Hc in Hin. destruct Hin.
Qed.

End CounterFacts.

Section PitchTheorem.
Context {F : Type} `{PyFloat F} `{!OrderLaws F}.

Lemma most_common_diff_spec (vals : list F) :
  ascending vals ->
  match most_common_diff vals with
  | None => (List.length vals < 2)%nat \/ positive_differences vals = []
  | Some d =>
      (2 <= List.length vals)%nat /\ most_frequent d (positive_differences vals)
  end.
Proof.
  intros Hasc. destruct (ascending_differences vals Hasc) as [Hcode Hspec].
  unfold most_common_diff.
  destruct (List.length vals <? 2)%nat eqn:Hlen.
  - left. now apply Nat.ltb_lt.
  - apply Nat.ltb_ge in Hlen. cbv zeta. rewrite Hcode, Hspec.
    destruct (differences vals) as [|d0 ds] eqn:Hd; [now right|].
    destruct (Counter (d0 :: ds)) as [|it items] eqn:Hc.
    + now apply Counter_nil in Hc.
    + split; [exact Hlen | now apply most_common_spec].
Qed.

(** C9: over floats with a total order, [detect_pitch] gives for each axis,
    independently of the other, the most frequent of the positive
    consecutive differences of the ascending list of the distinct
    coordinate values (zero differences discarded), and gives nothing for
    an axis with fewer than two distinct values or no positive
    difference. *)
Theorem detect_pitch_most_frequent_difference (coords : list (Coord F)) :
  pitch_spec (map (fun c => fst (fst c)) coords) (fst (detect_pitch coords))
  /\ pitch_spec (map (fun c => snd (fst c)) coords) (snd (detect_pitch coords)).
Proof.
  unfold detect_pitch, pitch_spec. cbv zeta. cbn [fst snd]. split.
  - exists (sorted (distinct (map (fun c => fst (fst c)) coords))).
    split; [apply sorted_distinct_spec|].
    apply most_common_diff_spec, sorted_distinct_ascending.
  - exists (sorted (distinct (map (fun c => snd (fst c)) coords))).
    split; [apply sorted_distinct_spec|].
    apply most_common_diff_spec, sorted_distinct_ascending.
Qed.

End PitchTheorem.

Section RationalOrder.
Open Scope Q_scope.

Lemma fltb_Q_false (a b : Q) : fltb a b = false <-> b <= a.
Proof.
  split.
  - intros Hf. apply Qnot_lt_le. intros Hlt. apply fltb_Q in Hlt. congruence.
  - intros Hle. destruct (fltb a b) eqn:Hlt; [|reflexivity].
    apply fltb_Q in Hlt. exfalso. exact (Qlt_not_le _ _ Hlt Hle).
Qed.

#[export] Instance QOrder : OrderLaws Q.
Proof.
  constructor.
  - intros a. apply Qeq_bool_refl.
  - intros a b. destruct (feqb a b) eqn:Hab, (feqb b a) eqn:Hba; try reflexivity.
    + apply feqb_Q in Hab. symmetry in Hab. apply feqb_Q in Hab. congruence.
    + apply feqb_Q in Hba. symmetry in Hba. apply feqb_Q in Hba. congruence.
  - intros a b c. apply Qeq_bool_trans.
  - intros a b Hab. apply fltb_Q in Hab. apply fltb_Q_false. now apply Qlt_le_weak.
  - intros a b c Hab Hbc. apply fltb_Q in Hab, Hbc. apply fltb_Q.
    now apply Qlt_trans with b.
  - intros a b Hab Hba. apply fltb_Q_false in Hab, Hba. apply feqb_Q.
    now apply Qle_antisym.
  - intros a b Hab. apply fltb_Q in Hab. apply fltb_Q.
    change (fsub b a) with (b + - a). change (of_int 0%Z) with 0.
    now apply Qlt_minus_iff in Hab.
  - intros d Hd. apply fltb_Q in Hd. change (of_int 0%Z) with 0 in Hd.
    change (fabs d) with (Qabs d). destruct d as [n den].
    unfold Qlt in Hd. cbn in Hd. unfold Qabs. f_equal. lia.
  - intros a Ha. apply fltb_Q in Ha.
    destruct (feqb a (of_int 0%Z)) eqn:He; [|reflexivity].
    apply feqb_Q in He. rewrite He in Ha. exfalso. exact (Qlt_irrefl _ Ha).
Qed.

End RationalOrder.

(** Three dies in a row at the pitch 1.473 mm. *)
Lemma detect_pitch_three_dies :
  detect_pitch three_dies = (Some (1473 # 1000), None).
Proof. vm_compute. reflexivity. Qed.

Lemma detect_pitch_most_frequent_difference_witness :
  pitch_spec (map (fun c => fst (fst c)) three_dies) (fst (detect_pitch three_dies)).
Proof. exact (proj1 (detect_pitch_most_frequent_difference three_dies)). Defined.

(** * Further properties of the extractor *)

Section ExtractorMore.
Context {F : Type} `{PyFloat F}.

Lemma accepts_named (names : list string) (cur : option string) :
  names <> [] ->
  accepts names cur
  = match accepts [] cur with
    | Some n => if existsb (String.eqb n) names then Some n else None
    | None => None
    end.
Proof.
  intros Hne. destruct cur as [n|]; [|reflexivity]. cbn [accepts].
  destruct (is_empty n); [reflexivity|].
  destruct names as [|n0 names]; [contradiction|]. reflexivity.
Qed.

Lemma accepts_nonempty (names : list string) (cur : option string) (n : string) :
  accepts names cur = Some n -> cur = Some n /\ is_empty n = false.
Proof.
  destruct cur as [m|]; [|discriminate]. cbn [accepts].
  destruct (is_empty m) eqn:Hm; [discriminate|].
  destruct (is_empty_list names || existsb (String.eqb m) names); [|discriminate].
  intros [= <-]. now split.
Qed.

(** The loop with a filter goes through the same blocks and names as the
    loop without, and keeps the records the filter names. *)
Lemma step_filtered (names : list string) (st_f st_all : state) (line : string) :
  names <> [] ->
  in_sref st_f = in_sref st_all -> cur_sname st_f = cur_sname st_all ->
  coords st_f = filter (named_in names) (coords st_all) ->
  in_sref (step names st_f line) = in_sref (step [] st_all line)
  /\ cur_sname (step names st_f line) = cur_sname (step [] st_all line)
  /\ coords (step names st_f line)
     = filter (named_in names) (coords (step [] st_all line)).
Proof.
  intros Hne Hin Hcur Hco. unfold step. cbv zeta.
  destruct (re_sref (strip line)); [now repeat split|].
  rewrite Hin. destruct (negb (in_sref st_all)); [now repeat split|].
  destruct (re_sname (strip line)); [now repeat split|].
  destruct (re_xy (strip line)) as [[a b]|].
  - rewrite (accepts_named names _ Hne), Hcur.
    destruct (accepts [] (cur_sname st_all)) as [n|]; [|now repeat split].
    cbn [in_sref cur_sname coords]. rewrite filter_app. cbn [filter].
    unfold named_in at 2. cbn [snd].
    destruct (existsb (String.eqb n) names); cbn [in_sref cur_sname coords].
    + repeat split; try assumption. now rewrite Hco.
    + repeat split; try assumption. now rewrite app_nil_r.
  - destruct (re_endel (strip line)); now repeat split.
Qed.

Lemma run_filtered (names : list string) (lines : list string) (st_f st_all : state) :
  names <> [] ->
  in_sref st_f = in_sref st_all -> cur_sname st_f = cur_sname st_all ->
  coords st_f = filter (named_in names) (coords st_all) ->
  coords (run names st_f lines)
  = filter (named_in names) (coords (run [] st_all lines)).
Proof.
  intros Hne. revert st_f st_all.
  induction lines as [|l lines IH]; intros st_f st_all Hin Hcur Hco; [exact Hco|].
  rewrite !run_cons.
  destruct (step_filtered names st_f st_all l Hne Hin Hcur Hco) as [H1 [H2 H3]].
  now apply IH.
Qed.

(** X1: with a filter that is not empty, [parse_gds2] returns the records
    it returns without filter whose structure name is in the filter, in the
    same order; so every returned name is in the filter. *)
Theorem filter_correctness (text : string) (names : list string)
    (Hne : names <> []) :
  parse_gds2 (F := F) text names
  = filter (named_in names) (parse_gds2 text [])
  /\ Forall (fun c => In (snd c) names) (parse_gds2 (F := F) text names).
Proof.
  assert (Heq : parse_gds2 (F := F) text names
                = filter (named_in names) (parse_gds2 text [])).
  { unfold parse_gds2, parse_lines. now apply run_filtered. }
  split; [exact Heq|].
  rewrite Heq. apply Forall_forall. intros c Hc.
  apply filter_In in Hc as [_ Hc]. unfold named_in in Hc.
  apply existsb_exists in Hc as [n [Hn Heqn]].
  apply String.eqb_eq in Heqn. now rewrite Heqn.
Qed.

Lemma step_grows (names : list string) (st : state) (line : string) :
  exists more, coords (step names st line) = (coords st ++ more)%list.
Proof.
  unfold step. cbv zeta.
  destruct (re_sref (strip line)); [exists []; now rewrite app_nil_r|].
  destruct (negb (in_sref st)); [exists []; now rewrite app_nil_r|].
  destruct (re_sname (strip line)); [exists []; now rewrite app_nil_r|].
  destruct (re_xy (strip line)) as [[a b]|].
  - destruct (accepts names (cur_sname st)) as [n|].
    + eexists. reflexivity.
    + exists []. now rewrite app_nil_r.
  - destruct (re_endel (strip line)); exists []; now rewrite app_nil_r.
Qed.

Lemma run_grows (names : list string) (lines : list string) (st : state) :
  exists more, coords (run names st lines) = (coords st ++ more)%list.
Proof.
  revert st; induction lines as [|l lines IH]; intros st.
  - exists []. now rewrite app_nil_r.
  - rewrite run_cons. destruct (IH (step names st l)) as [m2 ->].
    destruct (step_grows names st l) as [m1 ->].
    exists (m1 ++ m2)%list. now rewrite app_assoc.
Qed.

(** X2: the records of a listing start with the records of any of its
    beginnings: a later line never removes or reorders a record. *)
Theorem records_only_grow (text : string) (names : list string)
    (pre post : list string)
    (Hlines : splitlines text = (pre ++ post)%list) :
  exists more,
    parse_gds2 (F := F) text names = (parse_lines names pre ++ more)%list.
Proof.
  unfold parse_gds2, parse_lines. rewrite Hlines, run_app.
  apply run_grows.
Qed.

(** X3: a listing without any [SREF] line gives no record. *)
Theorem no_sref_no_record (text : string) (names : list string)
    (Hno : forall l, In l (splitlines text) -> is_sref l = false) :
  parse_gds2 (F := F) text names = [].
Proof.
  unfold parse_gds2, parse_lines. now rewrite run_stays_outside.
Qed.

Lemma re_sname_shape (line n : string) :
  re_sname line = Some n -> (exists r, line = "SNAME" ++ r) /\ is_empty n = false.
Proof.
  unfold re_sname. destruct (drop_prefix "SNAME" line) as [r|] eqn:Hd; [|discriminate].
  destruct r as [|c r]; [discriminate|].
  destruct (isspace c); [|discriminate].
  destruct (is_empty (lstrip_by isspace r)) eqn:He; [discriminate|].
  destruct (has_newline (lstrip_by isspace r)); [discriminate|].
  intros [= <-]. split; [|exact He].
  exists (String c r). exact (drop_prefix_spec _ _ _ Hd).
Qed.

(** X4: whatever precedes it, a block made of an [SREF] line, an [SNAME]
    line and an [XY] line gives one more record, made of the two numbers of
    the [XY] line divided by 1e6 and of the name of the [SNAME] line,
    provided the filter is empty or holds the name. *)
Theorem block_gives_record (names pre : list string) (s l1 l2 n a b : string)
    (Hs : is_sref s = true)
    (Hn : re_sname (strip l1) = Some n)
    (Hxy : re_xy (strip l2) = Some (a, b))
    (Hok : names = [] \/ In n names) :
  parse_lines (F := F) names (pre ++ [s; l1; l2])
  = (parse_lines names pre
     ++ [(fdiv (float_of_str a) (of_int 1000000),
          fdiv (float_of_str b) (of_int 1000000), n)])%list.
Proof.
  unfold parse_lines. rewrite run_app, !run_cons. cbn [run fold_left].
  set (st := run (F := F) names init pre).
  destruct (re_sname_shape _ _ Hn) as [[r1 Hl1] Hne].
  assert (Hxy' : is_xy l2 = true) by (unfold is_xy; now rewrite Hxy).
  destruct (xy_is_only_xy l2 Hxy') as [Hx1 Hx2].
  unfold is_sref, is_sname in *.
  assert (Hs1 : step names st s = mkState true None (coords st)).
  { unfold step. cbv zeta. now rewrite Hs. }
  rewrite Hs1.
  assert (Hs2 : step names (mkState true None (coords st)) l1
                = mkState true (Some n) (coords st)).
  { unfold step. cbv zeta. rewrite Hl1 at 1. cbn [re_sref drop_prefix Ascii.eqb].
    replace (re_sref ("SNAME" ++ r1)) with false by reflexivity.
    cbn [in_sref negb]. now rewrite Hn. }
  rewrite Hs2.
  unfold step. cbv zeta. rewrite Hx1. cbn [in_sref negb cur_sname coords].
  destruct (re_sname (strip l2)); [discriminate|].
  rewrite Hxy. cbn [accepts]. rewrite Hne.
  destruct Hok as [->|Hin]; [reflexivity|].
  replace (is_empty_list names || existsb (String.eqb n) names) with true;
    [reflexivity|].
  symmetry. apply orb_true_iff. right. apply existsb_exists.
  exists n. split; [exact Hin | apply String.eqb_refl].
Qed.

End ExtractorMore.

Section Patterns.

Lemma span_digits_app (a r : string) :
  all_chars is_digit a = true ->
  match r with EmptyString => true | String c _ => negb (is_digit c) end = true ->
  span_digits (a ++ r) = (a, r).
Proof.
  intros Ha Hr. induction a as [|c a IH].
  - destruct r as [|c r]; [reflexivity|]. cbn [append span_digits].
    apply negb_true_iff in Hr. now rewrite Hr.
  - cbn [all_chars] in Ha. apply andb_true_iff in Ha as [Hc Ha].
    change (String c a ++ r) with (String c (a ++ r)).
    cbn [span_digits]. now rewrite Hc, (IH Ha).
Qed.

Lemma ends_number_no_digit (rest : string) :
  ends_number rest = true ->
  match rest with EmptyString => true | String c _ => negb (is_digit c) end = true.
Proof.
  destruct rest as [|c rest]; [reflexivity|]. cbn [ends_number].
  intros Hr. now apply andb_true_iff in Hr as [Hr _].
Qed.

(** The number pattern reads an unsigned numeral up to what ends it. *)
Lemma take_number_numeral (a rest : string) :
  numeral a = true -> ends_number rest = true ->
  take_number (a ++ rest) = Some (a, rest).
Proof.
  unfold numeral. intros Ha Hr. apply andb_true_iff in Ha as [Hne Ha].
  destruct a as [|c a]; [discriminate|].
  pose proof Ha as Hc. cbn [all_chars] in Hc. apply andb_true_iff in Hc as [Hc _].
  assert (Hminus : (nat_of_ascii c =? 45)%nat = false).
  { unfold is_digit in Hc. cbv zeta in Hc. apply andb_true_iff in Hc as [Hlo _].
    apply Nat.leb_le in Hlo. apply Nat.eqb_neq. lia. }
  pose proof (span_digits_app (String c a) rest Ha (ends_number_no_digit rest Hr))
    as Hspan.
  change (String c a ++ rest) with (String c (a ++ rest)) in *.
  unfold take_number. cbv beta iota. rewrite Hminus, Hspan.
  cbn [is_empty]. destruct rest as [|d rest]; [reflexivity|].
  cbn [ends_number] in Hr. apply andb_true_iff in Hr as [_ Hdot].
  apply negb_true_iff in Hdot. now rewrite Hdot.
Qed.

Lemma digit_not_space (c : ascii) : is_digit c = true -> isspace c = false.
Proof.
  unfold is_digit, isspace. cbv zeta. set (n := nat_of_ascii c).
  intros Hd. apply andb_true_iff in Hd as [Hlo Hhi].
  apply Nat.leb_le in Hlo, Hhi.
  repeat match goal with
         | |- context [(?x <=? ?y)%nat] => destruct (Nat.leb_spec x y)
         | |- context [(?x =? ?y)%nat] => destruct (Nat.eqb_spec x y)
         end; cbn; try reflexivity; lia.
Qed.

Lemma lstrip_numeral (s t : string) :
  numeral s = true -> lstrip_by isspace (s ++ t) = s ++ t.
Proof.
  unfold numeral. intros Hs. apply andb_true_iff in Hs as [Hne Hs].
  destruct s as [|c s]; [discriminate|].
  cbn [all_chars] in Hs. apply andb_true_iff in Hs as [Hc _].
  change (String c s ++ t) with (String c (s ++ t)).
  apply lstrip_by_keep. now apply digit_not_space.
Qed.

(** X5: the [XY] pattern reads a line [XY a:b] with two unsigned integer
    numerals as the pair [(a, b)], and takes no notice of what follows the
    second number (further pairs included); the [SNAME] pattern reads a line
    [SNAME n] with a plain name as [n]. *)
Theorem patterns_read_plain_lines (a b rest n : string)
    (Ha : numeral a = true) (Hb : numeral b = true)
    (Hrest : ends_number rest = true) (Hn : plain_name n = true) :
  re_xy ("XY " ++ a ++ ":" ++ b ++ rest) = Some (a, b)
  /\ re_sname ("SNAME " ++ n) = Some n.
Proof.
  split.
  - change ("XY " ++ a ++ ":" ++ b ++ rest)
      with (String "X" (String "Y" (String " " (a ++ String ":" (b ++ rest))))).
    unfold re_xy. cbn [drop_prefix Ascii.eqb Bool.eqb].
    replace (isspace " ") with true by reflexivity.
    rewrite (lstrip_numeral a _ Ha).
    rewrite (take_number_numeral a (String ":" (b ++ rest)) Ha) by reflexivity.
    rewrite lstrip_by_keep by reflexivity.
    replace (nat_of_ascii ":" =? 58)%nat with true by reflexivity.
    rewrite (lstrip_numeral b _ Hb).
    now rewrite (take_number_numeral b rest Hb Hrest).
  - change ("SNAME " ++ n)
      with (String "S" (String "N" (String "A" (String "M" (String "E"
              (String " " n)))))).
    unfold re_sname. cbn [drop_prefix Ascii.eqb Bool.eqb].
    replace (isspace " ") with true by reflexivity.
    destruct n as [|c n]; [discriminate|].
    cbn [plain_name] in Hn. apply andb_true_iff in Hn as [Hc Hnl].
    apply negb_true_iff in Hc, Hnl.
    rewrite (lstrip_by_keep isspace c n Hc). cbn [is_empty orb].
    now rewrite Hnl.
Qed.

Lemma patterns_read_plain_lines_witness :
  re_xy ("XY " ++ "1473000" ++ ":" ++ "2946000" ++ " 5:6") = Some ("1473000", "2946000")
  /\ re_sname ("SNAME " ++ "z5_subdef1") = Some "z5_subdef1".
Proof.
  apply (patterns_read_plain_lines "1473000" "2946000" " 5:6" "z5_subdef1");
    reflexivity.
Defined.

End Patterns.

Section ExtractorWitnesses.

Lemma filter_correctness_witness :
  parse_gds2 (F := Q) two_blocks ["a"]
  = filter (named_in ["a"]) (parse_gds2 two_blocks []).
Proof.
  apply (filter_correctness (F := Q) two_blocks ["a"]). discriminate.
Defined.

Lemma records_only_grow_witness :
  exists more,
    parse_gds2 (F := Q) two_blocks []
    = (parse_lines [] ["SREF"; "SNAME a"; "XY 1:2"] ++ more)%list.
Proof.
  apply (records_only_grow (F := Q) two_blocks []
           ["SREF"; "SNAME a"; "XY 1:2"] ["ENDEL"; "SREF"; "SNAME b"; "XY 3:4"; "ENDEL"]).
  reflexivity.
Defined.

Lemma no_sref_no_record_witness :
  parse_gds2 (F := Q) ("SNAME a" ++ NL ++ "XY 1:2" ++ NL ++ "ENDEL") [] = [].
Proof.
  apply (no_sref_no_record (F := Q)).
  intros l Hl. vm_compute in Hl.
  destruct Hl as [<-|[<-|[<-|[]]]]; reflexivity.
Defined.

Lemma block_gives_record_witness :
  parse_lines (F := Q) ["a"] (["XY 9:9"] ++ ["SREF"; "SNAME a"; "XY 1473000:0"])
  = (parse_lines ["a"] ["XY 9:9"]
     ++ [(fdiv (float_of_str "1473000") (of_int 1000000),
          fdiv (float_of_str "0") (of_int 1000000), "a")])%list.
Proof.
  apply (block_gives_record (F := Q) ["a"] ["XY 9:9"] "SREF" "SNAME a" "XY 1473000:0").
  - reflexivity.
  - reflexivity.
  - reflexivity.
  - right. now left.
Defined.

End ExtractorWitnesses.

(** * Further properties of the pitch detector *)

Section PitchMore.
Context {F : Type} `{PyFloat F}.

Lemma count_up_keys (d : F) (c : list (F * nat)) (p : F * nat) :
  In p (count_up d c) -> fst p = d \/ In (fst p) (map fst c).
Proof.
  induction c as [|[k n] c IH]; cbn [count_up].
  - intros [<-|[]]. now left.
  - destruct (feqb k d).
    + intros [<-|Hp]; right; [now left|]. right. now apply in_map.
    + intros [<-|Hp]; [right; now left|].
      destruct (IH Hp) as [Hd|Hk]; [now left | right; now right].
Qed.

Lemma counter_keys (l : list F) (c : list (F * nat)) (p : F * nat) :
  In p (fold_left (fun c d => count_up d c) l c) ->
  In (fst p) l \/ In (fst p) (map fst c).
Proof.
  revert c; induction l as [|d l IH]; intros c; cbn [fold_left].
  - intros Hp. right. now apply in_map.
  - intros Hp. destruct (IH _ Hp) as [Hl|Hc]; [left; now right|].
    apply in_map_iff in Hc as [q [Hq Hin]].
    destruct (count_up_keys d c q Hin) as [Hd|Hk].
    + left. left. congruence.
    + right. congruence.
Qed.

(** The value [most_common_diff] returns is one of the differences kept. *)
Lemma most_common_diff_in (vals : list F) (d : F) :
  most_common_diff vals = Some d ->
  In d (filter (fun d => fltb (of_int 0) d) (abs_diffs vals)).
Proof.
  unfold most_common_diff. destruct (List.length vals <? 2)%nat; [discriminate|].
  cbv zeta.
  set (ds := filter (fun d0 : F => fltb (of_int 0) d0) (abs_diffs vals)).
  destruct ds as [|d0 ds'] eqn:Hds; [discriminate|]. rewrite <- Hds.
  destruct (Counter ds) as [|it items] eqn:Hc; [discriminate|].
  intros [= <-].
  destruct (max_item_spec items it) as [Hm _].
  assert (Hin : In (max_item it items) (Counter ds)).
  { rewrite Hc. destruct Hm as [->|Hm]; [now left | now right]. }
  unfold Counter in Hin. destruct (counter_keys ds [] _ Hin) as [Hl|[]].
  exact Hl.
Qed.

(** X6: a pitch [detect_pitch] returns, on either axis, is greater than
    zero; no property of the float operations is needed for that. *)
Theorem pitch_is_positive (coords : list (Coord F)) (d : F)
    (Hd : fst (detect_pitch coords) = Some d \/ snd (detect_pitch coords) = Some d) :
  fltb (of_int 0) d = true.
Proof.
  unfold detect_pitch in Hd. cbv zeta in Hd. cbn [fst snd] in Hd.
  destruct Hd as [Hd|Hd]; apply most_common_diff_in in Hd;
    apply filter_In in Hd as [_ Hd]; exact Hd.
Qed.

Lemma filter_none {A} (p : A -> bool) (l : list A) :
  (forall x, In x l -> p x = false) -> filter p l = [].
Proof.
  induction l as [|x l IH]; intros Hl; [reflexivity|]. cbn [filter].
  rewrite (Hl x) by now left. apply IH. intros y Hy. apply Hl. now right.
Qed.

Lemma In_distinct_free (z : F) (l : list F) : In z (distinct l) -> In z l.
Proof.
  revert z; induction l as [|x l IH]; intros z; cbn [distinct In]; [auto|].
  intros [->|Hz]; [now left|]. apply filter_In in Hz as [Hz _]. right; now apply IH.
Qed.

Lemma one_value_no_pitch (l : list F) :
  (forall a b, In a l -> In b l -> feqb a b = true) ->
  most_common_diff (sorted (distinct l)) = None.
Proof.
  intros Hall. destruct l as [|x l]; [reflexivity|].
  cbn [distinct]. rewrite filter_none; [reflexivity|].
  intros y Hy. apply In_distinct_free in Hy.
  rewrite (Hall x y); [reflexivity | now left | now right].
Qed.

(** X7: an axis on which all the coordinates have the same value (so also
    an empty list of coordinates, or a single one) gets no pitch. *)
Theorem one_value_axis_has_no_pitch (coords : list (Coord F)) :
  ((forall c c', In c coords -> In c' coords ->
      feqb (fst (fst c)) (fst (fst c')) = true) ->
   fst (detect_pitch coords) = None)
  /\ ((forall c c', In c coords -> In c' coords ->
         feqb (snd (fst c)) (snd (fst c')) = true) ->
      snd (detect_pitch coords) = None).
Proof.
  unfold detect_pitch. cbv zeta. cbn [fst snd].
  split; intros Hall; apply one_value_no_pitch; intros a b Ha Hb;
    apply in_map_iff in Ha as [ca [<- Hca]];
    apply in_map_iff in Hb as [cb [<- Hcb]]; now apply Hall.
Qed.

(** X8: over floats with a total order, when the consecutive differences of
    the sorted distinct values of the first axis are all equal to [d] (the
    dies form a regular row), [detect_pitch] returns that pitch. *)
Theorem regular_row_pitch `{!OrderLaws F} (coords : list (Coord F)) (d : F)
    (Hlen : (2 <= List.length (sorted (distinct (map (fun c => fst (fst c)) coords))))%nat)
    (Hreg : Forall (fun e => feqb e d = true)
              (differences (sorted (distinct (map (fun c => fst (fst c)) coords))))) :
  exists d', fst (detect_pitch coords) = Some d' /\ feqb d' d = true.
Proof.
  unfold detect_pitch. cbv zeta. cbn [fst].
  set (vals := sorted (distinct (map (fun c => fst (fst c)) coords))) in *.
  pose proof (sorted_distinct_ascending (map (fun c => fst (fst c)) coords)) as Hasc.
  fold vals in Hasc.
  pose proof (most_common_diff_spec vals Hasc) as Hspec.
  destruct (ascending_differences vals Hasc) as [_ Hpos].
  destruct (most_common_diff vals) as [d'|].
  - exists d'. split; [reflexivity|].
    destruct Hspec as [_ [Hin _]]. rewrite Hpos in Hin.
    revert d' Hin. now apply Forall_forall.
  - exfalso. destruct Hspec as [Hlt|Hnil]; [lia|].
    rewrite Hpos in Hnil.
    destruct vals as [|a [|b vals']]; cbn [List.length] in Hlen; try lia.
    discriminate Hnil.
Qed.

End PitchMore.

Section PitchWitnesses.

Lemma pitch_is_positive_witness : fltb (of_int 0) (1473 # 1000) = true.
Proof.
  apply (pitch_is_positive three_dies (1473 # 1000)). left. vm_compute. reflexivity.
Defined.

Lemma one_value_axis_has_no_pitch_witness : snd (detect_pitch three_dies) = None.
Proof.
  apply (proj2 (one_value_axis_has_no_pitch three_dies)).
  intros c c' Hc Hc'.
  destruct Hc as [<-|[<-|[<-|[]]]]; destruct Hc' as [<-|[<-|[<-|[]]]]; reflexivity.
Defined.

Lemma regular_row_pitch_witness :
  exists d', fst (detect_pitch three_dies) = Some d' /\ feqb d' (1473 # 1000) = true.
Proof.
  apply (regular_row_pitch three_dies (1473 # 1000)).
  - vm_compute. lia.
  - match goal with
    | |- Forall ?P ?l => let l' := eval vm_compute in l in change (Forall P l')
    end.
    repeat (constructor; [vm_compute; reflexivity|]). constructor.
Defined.

End PitchWitnesses.

(** * Further properties of the grid builder *)

Section BuilderMore.
Context {F : Type} `{PyFloat F}.

Lemma cell_is_symbol (die_set : DieSet) (half die_x die_y : F) (show_edge : bool)
      (gx gy : Z) :
  is_symbol (cell die_set half die_x die_y show_edge gx gy) = true.
Proof.
  unfold cell, symbol. cbv zeta.
  destruct (fltb half _); [reflexivity|].
  destruct (mem (gx, gy) die_set); [reflexivity|].
  destruct (show_edge && has_neighbour die_set gx gy); reflexivity.
Qed.

(** X9: a grid built by [build_grid] is rectangular: it has one row for
    every index from [min_gy] to [max_gy] and, in every row, one cell for
    every index from [min_gx] to [max_gx]; and every cell is one of the
    three symbols. *)
Theorem grid_is_rectangular
    (coords : list (Coord F)) (diameter die_x die_y : F) (show_edge : bool)
    (grid : Grid)
    (Hbuilt : build_grid coords diameter die_x die_y show_edge = Some grid) :
  exists die_set min_gx max_gx min_gy max_gy,
    layout coords diameter die_x die_y
    = Some (die_set, (min_gx, max_gx, min_gy, max_gy))
    /\ List.length grid = Z.to_nat (max_gy + 1 - min_gy)
    /\ Forall (fun row =>
         List.length row = Z.to_nat (max_gx + 1 - min_gx)
         /\ Forall (fun c => is_symbol c = true) row) grid.
Proof.
  destruct (build_grid_table _ _ _ _ _ _ Hbuilt)
    as [ds [min_gx [max_gx [min_gy [max_gy [Hds [Hb ->]]]]]]].
  unfold layout. cbv zeta. rewrite Hds, Hb.
  exists ds, min_gx, max_gx, min_gy, max_gy.
  split; [reflexivity|]. split.
  - unfold range_down. now rewrite !length_map, length_seq.
  - apply Forall_forall. intros row Hrow.
    apply in_map_iff in Hrow as [gy [<- _]]. split.
    + unfold range_up. now rewrite !length_map, length_seq.
    + apply Forall_forall. intros c Hc.
      apply in_map_iff in Hc as [gx [<- _]]. apply cell_is_symbol.
Qed.

Lemma min_of_spec (l : list Z) (z : Z) :
  min_of z l <= z /\ forall x, In x l -> min_of z l <= x.
Proof.
  unfold min_of. revert z; induction l as [|y l IH]; intros z; cbn [fold_left].
  - split; [lia | intros x []].
  - destruct (IH (Z.min z y)) as [H1 H2]. split; [lia|].
    intros x [<-|Hx]; [lia | now apply H2].
Qed.

Lemma max_of_spec (l : list Z) (z : Z) :
  z <= max_of z l /\ forall x, In x l -> x <= max_of z l.
Proof.
  unfold max_of. revert z; induction l as [|y l IH]; intros z; cbn [fold_left].
  - split; [lia | intros x []].
  - destruct (IH (Z.max z y)) as [H1 H2]. split; [lia|].
    intros x [<-|Hx]; [lia | now apply H2].
Qed.

(** The bounds leave a margin of one cell around the occupied indices. *)
Lemma bounds_margin (die_set : DieSet) (half die_x die_y : F)
      (min_gx max_gx min_gy max_gy : Z) (g : Z * Z) :
  bounds die_set half die_x die_y = Some (min_gx, max_gx, min_gy, max_gy) ->
  In g die_set ->
  min_gx < fst g < max_gx /\ min_gy < snd g < max_gy.
Proof.
  unfold bounds. destruct die_set as [|g0 rest]; [intros _ []|].
  intros [= <- <- <- <-] Hg.
  destruct (min_of_spec (map fst rest) (fst g0)) as [Hx1 Hx2].
  destruct (max_of_spec (map fst rest) (fst g0)) as [Hx3 Hx4].
  destruct (min_of_spec (map snd rest) (snd g0)) as [Hy1 Hy2].
  destruct (max_of_spec (map snd rest) (snd g0)) as [Hy3 Hy4].
  destruct Hg as [<-|Hg]; [lia|].
  specialize (Hx2 (fst g) (in_map fst _ _ Hg)).
  specialize (Hx4 (fst g) (in_map fst _ _ Hg)).
  specialize (Hy2 (snd g) (in_map snd _ _ Hg)).
  specialize (Hy4 (snd g) (in_map snd _ _ Hg)). lia.
Qed.

(** What the first loop leaves in the set: the set it started from and the
    indices within the radius of the coordinates it went through, every one
    of which has an index and a distance. *)
Lemma fold_place_spec (half die_x die_y : F) (coords : list (Coord F))
      (s0 s : DieSet) :
  fold_left (place half die_x die_y) coords (Some s0) = Some s ->
  (forall g, In g s0 -> In g s)
  /\ (forall c, In c coords -> exists g,
        index_of die_x die_y c = Some g
        /\ eval_dist die_x die_y (fst g) (snd g)
           = Some (dist die_x die_y (fst g) (snd g))
        /\ (fleb (dist die_x die_y (fst g) (snd g)) half = true -> In g s))
  /\ (forall g, In g s -> In g s0 \/
        exists c, In c coords /\ index_of die_x die_y c = Some g).
Proof.
  revert s0; induction coords as [|c coords IH]; intros s0 Hf.
  - injection Hf as <-. split; [auto|]. split; [intros c []|auto].
  - cbn [fold_left] in Hf.
    destruct (place half die_x die_y (Some s0) c) as [s1|] eqn:Hp;
      [|now rewrite fold_place_none in Hf].
    destruct (IH s1 Hf) as [H1 [H2 H3]].
    unfold place in Hp.
    destruct (index_of die_x die_y c) as [[gx gy]|] eqn:Hi; [|discriminate].
    destruct (eval_dist die_x die_y gx gy) as [d|] eqn:He; [|discriminate].
    pose proof (eval_dist_some _ _ _ _ _ He) as Hdd. subst d.
    destruct (fleb (dist die_x die_y gx gy) half) eqn:Hd; injection Hp as <-.
    + split; [|split].
      * intros g Hg. apply H1, In_add. now right.
      * intros c' [<-|Hc']; [|now apply H2].
        exists (gx, gy). split; [exact Hi|]. split; [exact He|].
        intros _. apply H1, In_add. now left.
      * intros g Hg. destruct (H3 g Hg) as [Hg0|[c' [Hc' Hi']]].
        -- apply In_add in Hg0 as [->|Hg0]; [|now left].
           right. exists c. split; [now left | exact Hi].
        -- right. exists c'. split; [now right | exact Hi'].
    + split; [|split].
      * intros g Hg. now apply H1.
      * intros c' [<-|Hc']; [|now apply H2].
        exists (gx, gy). split; [exact Hi|]. split; [exact He|].
        cbn [fst snd]. congruence.
      * intros g Hg. destruct (H3 g Hg) as [Hg0|[c' [Hc' Hi']]]; [now left|].
        right. exists c'. split; [now right | exact Hi'].
Qed.

Lemma nth_error_range_up_at (lo hi gx : Z) :
  lo <= gx <= hi -> nth_error (range_up lo hi) (Z.to_nat (gx - lo)) = Some gx.
Proof.
  intros Hg. unfold range_up. rewrite nth_error_map, nth_error_seq.
  replace (_ <? _)%nat with true by (symmetry; apply Nat.ltb_lt; lia).
  cbn. f_equal. lia.
Qed.

Lemma nth_error_range_down_at (hi lo gy : Z) :
  lo <= gy <= hi -> nth_error (range_down hi lo) (Z.to_nat (hi - gy)) = Some gy.
Proof.
  intros Hg. unfold range_down. rewrite nth_error_map, nth_error_seq.
  replace (_ <? _)%nat with true by (symmetry; apply Nat.ltb_lt; lia).
  cbn. f_equal. lia.
Qed.

(** X10: every coordinate whose index lies within the radius is on the map:
    its index is strictly inside the bounds (one cell of margin on every
    side) and the cell of that index holds the symbol of a die. *)
Theorem die_within_radius_is_shown
    (coords : list (Coord F)) (diameter die_x die_y : F) (show_edge : bool)
    (grid : Grid) (c : Coord F) (gx gy : Z)
    (Hbuilt : build_grid coords diameter die_x die_y show_edge = Some grid)
    (Hc : In c coords)
    (Hi : index_of die_x die_y c = Some (gx, gy))
    (Hd : fleb (dist die_x die_y gx gy) (fdiv diameter (of_int 2)) = true)
    (Hcmp : comparable (fdiv diameter (of_int 2)) (dist die_x die_y gx gy)) :
  exists die_set min_gx max_gx min_gy max_gy,
    layout coords diameter die_x die_y
    = Some (die_set, (min_gx, max_gx, min_gy, max_gy))
    /\ min_gx < gx < max_gx /\ min_gy < gy < max_gy
    /\ cell_at grid (Z.to_nat (max_gy - gy)) (Z.to_nat (gx - min_gx)) = Some "?".
Proof.
  destruct (build_grid_table _ _ _ _ _ _ Hbuilt)
    as [ds [min_gx [max_gx [min_gy [max_gy [Hds [Hb ->]]]]]]].
  unfold layout. cbv zeta. rewrite Hds, Hb.
  exists ds, min_gx, max_gx, min_gy, max_gy.
  split; [reflexivity|].
  destruct (fold_place_spec _ _ _ _ _ _ Hds) as [_ [Hall _]].
  destruct (Hall c Hc) as [g [Hg [_ Hin]]]. rewrite Hi in Hg. injection Hg as <-.
  specialize (Hin Hd).
  destruct (bounds_margin _ _ _ _ _ _ _ _ _ Hb Hin) as [Hx Hy]. cbn [fst snd] in Hx, Hy.
  split; [exact Hx|]. split; [exact Hy|].
  unfold cell_at. rewrite nth_error_map, nth_error_range_down_at by lia.
  cbn [option_map]. rewrite nth_error_map, nth_error_range_up_at by lia.
  cbn [option_map]. f_equal.
  unfold cell, symbol. cbv zeta. unfold comparable in Hcmp. rewrite Hcmp, Hd. cbn [negb].
  apply mem_In in Hin. now rewrite Hin.
Qed.

Lemma symbol_unstar (die_set : DieSet) (half : F) (gx gy : Z) (d : F) :
  symbol die_set half false gx gy d = unstar (symbol die_set half true gx gy d).
Proof.
  unfold symbol. cbv zeta.
  destruct (fltb half d); [reflexivity|].
  destruct (mem (gx, gy) die_set); [reflexivity|].
  cbn [andb]. destruct (has_neighbour die_set gx gy); reflexivity.
Qed.

(** X11: the edge flag changes nothing but the edge marks: the grid built
    without it is the grid built with it in which every star is a dot; so
    it has no star, and the same size and the same dies. *)
Theorem edge_flag_only_adds_stars
    (coords : list (Coord F)) (diameter die_x die_y : F) (grid : Grid)
    (Hbuilt : build_grid coords diameter die_x die_y true = Some grid) :
  build_grid coords diameter die_x die_y false = Some (map (map unstar) grid)
  /\ Forall (Forall (fun c => c <> "*")) (map (map unstar) grid).
Proof.
  split.
  - unfold build_grid in *. cbv zeta in *.
    destruct (die_set_of coords _ die_x die_y) as [ds|]; [|discriminate].
    destruct (bounds ds _ die_x die_y) as [[[[min_gx max_gx] min_gy] max_gy]|];
      [|discriminate].
    refine (for_each_ext _ _ (map unstar) _ _ _ Hbuilt).
    intros gy row Hrow. refine (for_each_ext _ _ unstar _ _ _ Hrow).
    intros gx c. unfold eval_cell.
    destruct (eval_dist die_x die_y gx gy) as [d|]; [|discriminate].
    intros [= <-]. f_equal. apply symbol_unstar.
  - apply Forall_forall. intros row Hrow. apply in_map_iff in Hrow as [r [<- _]].
    apply Forall_forall. intros c Hc. apply in_map_iff in Hc as [c0 [<- _]].
    unfold unstar. destruct (c0 =? "*")%string eqn:Hs; [discriminate|].
    now apply String.eqb_neq.
Qed.


Lemma place_known (half die_x die_y : F) (s : DieSet) (c : Coord F) (g : Z * Z) :
  index_of die_x die_y c = Some g ->
  eval_dist die_x die_y (fst g) (snd g) = Some (dist die_x die_y (fst g) (snd g)) ->
  (fleb (dist die_x die_y (fst g) (snd g)) half = true -> In g s) ->
  place half die_x die_y (Some s) c = Some s.
Proof.
  intros Hi He Hin. unfold place. rewrite Hi. destruct g as [gx gy].
  cbn [fst snd] in Hin, He. rewrite He.
  destruct (fleb (dist die_x die_y gx gy) half); [|reflexivity].
  unfold add. apply mem_In in Hin; [|reflexivity]. now rewrite Hin.
Qed.

(** X13: coordinates that are already in the list change nothing: the grid
    of a list followed by some of its own coordinates is the grid of the
    list. *)
Theorem repeated_coordinates_change_nothing
    (coords extra : list (Coord F)) (diameter die_x die_y : F) (show_edge : bool)
    (Hextra : incl extra coords) :
  build_grid (coords ++ extra) diameter die_x die_y show_edge
  = build_grid coords diameter die_x die_y show_edge.
Proof.
  unfold build_grid. cbv zeta.
  replace (die_set_of (coords ++ extra) (fdiv diameter (of_int 2)) die_x die_y)
    with (die_set_of coords (fdiv diameter (of_int 2)) die_x die_y); [reflexivity|].
  unfold die_set_of. rewrite fold_left_app.
  destruct (fold_left (place (fdiv diameter (of_int 2)) die_x die_y) coords (Some []))
    as [ds|] eqn:Hds; [|now rewrite fold_place_none].
  destruct (fold_place_spec _ _ _ _ _ _ Hds) as [_ [Hall _]].
  clear Hds. induction extra as [|c extra IH]; [reflexivity|].
  cbn [fold_left].
  destruct (Hall c (Hextra c (or_introl eq_refl))) as [g [Hi [He Hin]]].
  rewrite (place_known _ _ _ ds c g Hi He Hin).
  apply IH. intros c' Hc'. apply Hextra. now right.
Qed.

End BuilderMore.

Section BuilderWitnesses.

Lemma grid_is_rectangular_witness :
  exists die_set min_gx max_gx min_gy max_gy,
    layout one_die (2 # 1) (1 # 1) (1 # 1)
    = Some (die_set, (min_gx, max_gx, min_gy, max_gy))
    /\ List.length [["."; "."; "."]; ["."; "?"; "."]; ["."; "."; "."]]
       = Z.to_nat (max_gy + 1 - min_gy).
Proof.
  destruct (grid_is_rectangular one_die (2 # 1) (1 # 1) (1 # 1) false _ build_one_die)
    as [ds [a [b [c [d [Hl [Hlen _]]]]]]].
  exists ds, a, b, c, d. split; [exact Hl | exact Hlen].
Defined.

Lemma die_within_radius_is_shown_witness :
  exists die_set min_gx max_gx min_gy max_gy,
    layout one_die (2 # 1) (1 # 1) (1 # 1)
    = Some (die_set, (min_gx, max_gx, min_gy, max_gy))
    /\ min_gx < 0 < max_gx /\ min_gy < 0 < max_gy
    /\ cell_at [["."; "."; "."]; ["."; "?"; "."]; ["."; "."; "."]]
         (Z.to_nat (max_gy - 0)) (Z.to_nat (0 - min_gx)) = Some "?".
Proof.
  apply (die_within_radius_is_shown one_die (2 # 1) (1 # 1) (1 # 1) false _
           (0 # 1, 0 # 1, "die") 0 0 build_one_die).
  - now left.
  - reflexivity.
  - reflexivity.
  - reflexivity.
Defined.

Lemma edge_flag_only_adds_stars_witness :
  build_grid one_die (3 # 1) (1 # 1) (1 # 1) false
  = Some (map (map unstar) [["."; "*"; "."]; ["*"; "?"; "*"]; ["."; "*"; "."]]).
Proof.
  apply (edge_flag_only_adds_stars one_die (3 # 1) (1 # 1) (1 # 1) _
           build_one_die_edges).
Defined.


Lemma repeated_coordinates_change_nothing_witness :
  build_grid (three_dies ++ one_die) (10 # 1) (1473 # 1000) (1 # 1) true
  = build_grid three_dies (10 # 1) (1473 # 1000) (1 # 1) true.
Proof.
  apply (repeated_coordinates_change_nothing three_dies one_die).
  intros c [<-|[]]. now left.
Defined.

End BuilderWitnesses.

(** * The die count of the statistics *)

Section DieCount.
Context {F : Type} `{PyFloat F}.

Lemma count_dies_concat (grid : Grid) :
  count_dies grid = List.length (filter (String.eqb "?") (List.concat grid)).
Proof.
  unfold count_dies. induction grid as [|row grid IH]; [reflexivity|].
  cbn [fold_right List.concat]. now rewrite filter_app, length_app, IH.
Qed.

Lemma filter_map_length {A B} (p : B -> bool) (h : A -> B) (l : list A) :
  List.length (filter p (map h l)) = List.length (filter (fun x => p (h x)) l).
Proof.
  induction l as [|x l IH]; [reflexivity|]. cbn [map filter].
  destruct (p (h x)); cbn [List.length]; now rewrite IH.
Qed.

Lemma grid_as_box (f : Z -> Z -> string) (min_gx max_gx min_gy max_gy : Z) :
  List.concat (map (fun gy => map (fun gx => f gx gy) (range_up min_gx max_gx))
              (range_down max_gy min_gy))
  = map (fun g => f (fst g) (snd g)) (box (min_gx, max_gx, min_gy, max_gy)).
Proof.
  unfold box. induction (range_down max_gy min_gy) as [|gy ys IH]; [reflexivity|].
  cbn [map List.concat flat_map]. rewrite IH, map_app, map_map. reflexivity.
Qed.

Lemma NoDup_map_inj {A B} (f : A -> B) (l : list A) :
  (forall x y, f x = f y -> x = y) -> NoDup l -> NoDup (map f l).
Proof.
  intros Hinj. induction 1 as [|x l Hx _ IH]; cbn [map]; constructor; [|exact IH].
  intros Hin. apply in_map_iff in Hin as [y [Hy Hin]].
  apply Hinj in Hy. now subst y.
Qed.

Lemma range_up_NoDup (lo hi : Z) : NoDup (range_up lo hi).
Proof.
  unfold range_up. apply NoDup_map_inj; [intros x y; lia | apply seq_NoDup].
Qed.

Lemma range_down_NoDup (hi lo : Z) : NoDup (range_down hi lo).
Proof.
  unfold range_down. apply NoDup_map_inj; [intros x y; lia | apply seq_NoDup].
Qed.

Lemma In_box (b : Z * Z * Z * Z) (g : Z * Z) :
  In g (box b) <->
  let '(min_gx, max_gx, min_gy, max_gy) := b in
  In (fst g) (range_up min_gx max_gx) /\ In (snd g) (range_down max_gy min_gy).
Proof.
  destruct b as [[[min_gx max_gx] min_gy] max_gy]. unfold box.
  rewrite in_flat_map. split.
  - intros [gy [Hgy Hg]]. apply in_map_iff in Hg as [gx [<- Hgx]]. now split.
  - intros [Hx Hy]. exists (snd g). split; [exact Hy|].
    apply in_map_iff. exists (fst g). split; [now destruct g | exact Hx].
Qed.

Lemma box_NoDup (b : Z * Z * Z * Z) : NoDup (box b).
Proof.
  destruct b as [[[min_gx max_gx] min_gy] max_gy]. unfold box.
  pose proof (range_down_NoDup max_gy min_gy) as Hys.
  induction Hys as [|gy ys Hgy _ IH]; [constructor|].
  cbn [flat_map]. apply NoDup_app.
  - apply NoDup_map_inj; [|apply range_up_NoDup]. now intros x y [= ->].
  - exact IH.
  - intros g Hg Hg'. apply in_map_iff in Hg as [gx [<- _]].
    apply in_flat_map in Hg' as [gy' [Hgy' Hg']].
    apply in_map_iff in Hg' as [gx' [[= _ ->] _]]. contradiction.
Qed.

Lemma add_NoDup (g : Z * Z) (s : DieSet) : NoDup s -> NoDup (add g s).
Proof.
  intros Hs. unfold add. destruct (mem g s) eqn:Hm; [exact Hs|].
  apply NoDup_app; [exact Hs | repeat constructor; intros [] |].
  intros a Ha [<-|[]]. apply mem_In in Ha. congruence.
Qed.

Lemma add_length (g : Z * Z) (s : DieSet) :
  (List.length (add g s) <= S (List.length s))%nat.
Proof.
  unfold add. destruct (mem g s); [lia|]. rewrite length_app. cbn. lia.
Qed.

(** The occupied set holds no index twice, and no more indices than there
    are coordinates. *)
Lemma fold_place_NoDup (half die_x die_y : F) (coords : list (Coord F))
      (s0 s : DieSet) :
  fold_left (place half die_x die_y) coords (Some s0) = Some s ->
  NoDup s0 ->
  NoDup s /\ (List.length s <= List.length s0 + List.length coords)%nat.
Proof.
  revert s0; induction coords as [|c coords IH]; intros s0 Hf Hs0.
  - injection Hf as <-. split; [exact Hs0 | cbn; lia].
  - cbn [fold_left] in Hf.
    destruct (place half die_x die_y (Some s0) c) as [s1|] eqn:Hp;
      [|now rewrite fold_place_none in Hf].
    unfold place in Hp.
    destruct (index_of die_x die_y c) as [[gx gy]|]; [|discriminate].
    destruct (eval_dist die_x die_y gx gy) as [d|]; [|discriminate].
    destruct (fleb d half); injection Hp as <-.
    + destruct (IH _ Hf (add_NoDup _ _ Hs0)) as [Hn Hl]. split; [exact Hn|].
      pose proof (add_length (gx, gy) s0). cbn [List.length]. lia.
    + destruct (IH _ Hf Hs0) as [Hn Hl]. split; [exact Hn|].
      cbn [List.length]. lia.
Qed.

Lemma In_range_up (lo hi gx : Z) : lo <= gx <= hi -> In gx (range_up lo hi).
Proof. intros Hg. eapply nth_error_In. now apply nth_error_range_up_at. Qed.

Lemma In_range_down (hi lo gy : Z) : lo <= gy <= hi -> In gy (range_down hi lo).
Proof. intros Hg. eapply nth_error_In. now apply nth_error_range_down_at. Qed.

(** X14: the die count of the statistics, taken on a grid built by
    [build_grid], is the number of distinct occupied indices (provided their
    distances compare with the radius as numbers do), and that number is at
    most the number of coordinates. *)
Theorem die_count_is_occupied_count
    (coords : list (Coord F)) (diameter die_x die_y : F) (show_edge : bool)
    (grid : Grid)
    (Hbuilt : build_grid coords diameter die_x die_y show_edge = Some grid) :
  exists die_set b,
    layout coords diameter die_x die_y = Some (die_set, b)
    /\ NoDup die_set
    /\ (List.length die_set <= List.length coords)%nat
    /\ ((forall g, In g die_set ->
           comparable (fdiv diameter (of_int 2)) (dist die_x die_y (fst g) (snd g))) ->
        count_dies grid = List.length die_set).
Proof.
  destruct (build_grid_table _ _ _ _ _ _ Hbuilt)
    as [ds [min_gx [max_gx [min_gy [max_gy [Hds [Hb ->]]]]]]].
  unfold layout. cbv zeta. rewrite Hds, Hb.
  exists ds, (min_gx, max_gx, min_gy, max_gy).
  split; [reflexivity|].
  destruct (fold_place_NoDup _ _ _ _ _ _ Hds (NoDup_nil _)) as [Hnd Hlen].
  split; [exact Hnd|]. split; [exact Hlen|].
  intros Hcmp.
  rewrite count_dies_concat.
  rewrite (grid_as_box (fun gx gy => cell ds _ die_x die_y show_edge gx gy)).
  rewrite filter_map_length.
  set (half := fdiv diameter (of_int 2)) in *.
  assert (Hq : forall g,
    String.eqb "?" (cell ds half die_x die_y show_edge (fst g) (snd g)) = mem g ds).
  { intros [gx gy]. cbn [fst snd]. unfold cell, symbol. cbv zeta.
    destruct (mem (gx, gy) ds) eqn:Hm.
    - apply mem_In in Hm.
      pose proof (die_set_within coords half die_x die_y ds Hds _ Hm) as Hd.
      specialize (Hcmp _ Hm). unfold comparable in Hcmp. cbn [fst snd] in Hd, Hcmp.
      now rewrite Hcmp, Hd.
    - destruct (fltb half _); [reflexivity|].
      destruct (show_edge && has_neighbour ds gx gy); reflexivity. }
  rewrite (filter_ext _ _ Hq).
  apply Nat.le_antisymm.
  - apply NoDup_incl_length; [apply NoDup_filter, box_NoDup|].
    intros g Hg. apply filter_In in Hg as [_ Hg]. now apply mem_In.
  - apply NoDup_incl_length; [exact Hnd|].
    intros g Hg. apply filter_In. split; [|now apply mem_In].
    apply In_box.
    destruct (bounds_margin _ _ _ _ _ _ _ _ _ Hb Hg) as [Hx Hy].
    split; [apply In_range_up | apply In_range_down]; lia.
Qed.

End DieCount.

Lemma die_count_is_occupied_count_witness :
  exists die_set b,
    layout one_die (2 # 1) (1 # 1) (1 # 1) = Some (die_set, b)
    /\ count_dies [["."; "."; "."]; ["."; "?"; "."]; ["."; "."; "."]]
       = List.length die_set.
Proof.
  destruct (die_count_is_occupied_count one_die (2 # 1) (1 # 1) (1 # 1) false _
              build_one_die) as [ds [b [Hl [_ [_ Hc]]]]].
  exists ds, b. split; [exact Hl|]. apply Hc. intros g _. reflexivity.
Defined.

(** * Further properties of the reparser and of the formatter *)

Section ReparserMore.

Lemma row_of_line_symbols (line : string) (row : list string) :
  row_of_line line = Some row -> Forall (fun c => is_symbol c = true) row.
Proof.
  unfold row_of_line. cbv zeta.
  destruct (is_empty (strip line)); [discriminate|].
  destruct (negb _ && all_symbols (cells_of (split SEP (strip line)))) eqn:Hok;
    [|discriminate].
  intros [= <-]. apply andb_true_iff in Hok as [_ Hall].
  unfold all_symbols in Hall. apply Forall_forall.
  now apply forallb_forall.
Qed.

Lemma rows_of_symbols (lines : list string) :
  Forall (Forall (fun c => is_symbol c = true)) (rows_of lines).
Proof.
  induction lines as [|l lines IH]; cbn [rows_of]; [constructor|].
  destruct (row_of_line l) as [row|] eqn:Hr; [|exact IH].
  constructor; [now apply (row_of_line_symbols l) | exact IH].
Qed.

(** X15: a grid the reparser returns has at least one row, and all its
    cells are wafer-map symbols, whatever the text. *)
Theorem reparsed_grid_is_well_formed (text : string) (grid : Grid)
    (Hre : reparse text = Some grid) :
  grid <> [] /\ Forall (Forall (fun c => is_symbol c = true)) grid.
Proof.
  unfold reparse, _update_from_raw_auto in Hre. cbv zeta in Hre.
  destruct (header_end _ =? 0)%nat; [discriminate|].
  destruct (rows_of _) as [|row rows] eqn:Hrows; [discriminate|].
  injection Hre as <-. split; [discriminate|].
  rewrite <- Hrows. apply rows_of_symbols.
Qed.

Lemma split_cells_nonempty (s : string) : cells_of (split SEP s) <> [].
Proof.
  unfold cells_of, split. pose proof (split_go_nonempty SEP 0 s) as Hs.
  destruct (split_go SEP 0 s); [contradiction | discriminate].
Qed.

(** The line that starts the data section is itself a row. *)
Lemma data_start_is_row (line : string) :
  looks_like_row line = true -> exists row, row_of_line line = Some row.
Proof.
  unfold looks_like_row, row_of_line. cbv zeta.
  destruct (is_empty (strip line)); [discriminate|].
  destruct (_ <? 10)%nat; [discriminate|]. intros Hall. rewrite Hall.
  pose proof (split_cells_nonempty (strip line)) as Hne.
  destruct (cells_of (split SEP (strip line))); [contradiction|].
  eexists. reflexivity.
Qed.

(** X16: when the lines of the stripped text are some lines that do not
    look like a map row (at least one), then a line that does, then further
    lines, the reparser returns the row of that line followed by the rows
    of the further lines: a data section that is found always gives a
    grid, and what precedes it plays no part. *)
Theorem reparse_from_data_start
    (text : string) (pre : list string) (line : string) (post : list string)
    (Hlines : split NL (strip text) = (pre ++ line :: post)%list)
    (Hpre : pre <> [])
    (Hhead : Forall (fun l => looks_like_row l = false) pre)
    (Hline : looks_like_row line = true) :
  exists row,
    row_of_line line = Some row
    /\ reparse text = Some (row :: rows_of post).
Proof.
  destruct (data_start_is_row line Hline) as [row Hrow].
  exists row. split; [exact Hrow|].
  unfold reparse, _update_from_raw_auto. cbv zeta. rewrite Hlines.
  unfold header_end. rewrite (first_index_skip 0 pre line post Hhead Hline).
  cbn [Nat.add].
  replace (List.length pre =? 0)%nat with false
    by (destruct pre; [contradiction | reflexivity]).
  rewrite skipn_app, skipn_all, Nat.sub_diag. cbn [app skipn rows_of].
  now rewrite Hrow.
Qed.

(** X17: a line mode that is neither [sinf] nor [crlf] is formatted as the
    mode [lf]; and in the mode [crlf] the text of a row ends with CR LF. *)
Theorem other_modes {F : Type} `{PyFloat F}
    (grid : Grid) wafer_id (diameter : F) die_count line_mode bin_rows
    (Hsinf : line_mode <> "sinf") (Hcrlf : line_mode <> "crlf") :
  format_output grid wafer_id diameter die_count line_mode bin_rows
  = format_output grid wafer_id diameter die_count "lf" bin_rows
  /\ Forall (fun row => ends_with (CR ++ NL) (row_line "crlf" row) = true) grid.
Proof.
  split.
  - rewrite !format_output_flat. f_equal. f_equal.
    apply map_ext. intros row. unfold row_line.
    apply String.eqb_neq in Hsinf, Hcrlf. now rewrite Hsinf, Hcrlf.
  - apply Forall_forall. intros row _.
    change (row_line "crlf" row) with (row_cells row ++ CR ++ NL).
    apply ends_with_append.
Qed.

End ReparserMore.

Section ReparserWitnesses.

Lemma reparsed_grid_is_well_formed_witness :
  [["."; "?"; "*"; "."; "."; "."; "."; "."; "."; "."]] <> [].
Proof.
  apply (reparsed_grid_is_well_formed
           ("header" ++ NL ++ row_cells ["."; "?"; "*"; "."; "."; "."; "."; "."; "."; "."])).
  vm_compute. reflexivity.
Defined.

Lemma reparse_from_data_start_witness :
  exists row,
    row_of_line (row_cells ["."; "?"; "*"; "."; "."; "."; "."; "."; "."; "."]) = Some row
    /\ reparse ("header" ++ NL
                ++ row_cells ["."; "?"; "*"; "."; "."; "."; "."; "."; "."; "."]
                ++ NL ++ "junk")
       = Some (row :: rows_of ["junk"]).
Proof.
  apply (reparse_from_data_start _ ["header"] _ ["junk"]).
  - vm_compute. reflexivity.
  - discriminate.
  - repeat constructor.
  - vm_compute. reflexivity.
Defined.

Lemma other_modes_witness :
  format_output (F := Q) [["."; "?"]] "W" (200 # 1) 1 "unix" []
  = format_output [["."; "?"]] "W" (200 # 1) 1 "lf" [].
Proof.
  apply (other_modes (F := Q) [["."; "?"]] "W" (200 # 1) 1 "unix" []); discriminate.
Defined.

End ReparserWitnesses.

(** * The routines around the core *)

Section StripFacts.

Lemma rstrip_by_idem (p : ascii -> bool) (s : string) :
  rstrip_by p (rstrip_by p s) = rstrip_by p s.
Proof.
  induction s as [|c s IH]; [reflexivity|]. cbn [rstrip_by].
  destruct (is_empty (rstrip_by p s) && p c) eqn:Hc; [reflexivity|].
  cbn [rstrip_by]. now rewrite IH, Hc.
Qed.

Lemma lstrip_by_head (p : ascii -> bool) (s : string) :
  lstrip_by p s = EmptyString
  \/ exists c r, lstrip_by p s = String c r /\ p c = false.
Proof.
  induction s as [|c s IH]; [now left|]. cbn [lstrip_by].
  destruct (p c) eqn:Hc; [exact IH|]. right. now exists c, s.
Qed.

Lemma strip_by_idem (p : ascii -> bool) (s : string) :
  strip_by p (strip_by p s) = strip_by p s.
Proof.
  unfold strip_by.
  destruct (lstrip_by_head p s) as [->|[c [r [-> Hc]]]]; [reflexivity|].
  cbn [rstrip_by]. rewrite Hc, andb_false_r.
  rewrite (lstrip_by_keep p c _ Hc).
  change (String c (rstrip_by p r)) with (String c EmptyString ++ rstrip_by p r).
  destruct (is_empty (rstrip_by p r)) eqn:He.
  - apply is_empty_true in He. rewrite He. cbn. now rewrite Hc.
  - rewrite rstrip_by_app_keep; rewrite rstrip_by_idem; [reflexivity | exact He].
Qed.

Lemma strip_idem (s : string) : strip (strip s) = strip s.
Proof. apply strip_by_idem. Qed.

(** The lines of [splitlines] hold no line boundary. *)
Lemma splitlines_no_break (x : ascii) (s : string) :
  is_linebreak x = true ->
  Forall (fun l => has_char x l = false) (splitlines s).
Proof.
  intros Hx. induction s as [|c s IH]; [constructor|].
  cbn [splitlines]. destruct (is_linebreak c) eqn:Hc.
  - destruct s as [|c' s']; [repeat constructor|].
    destruct ((nat_of_ascii c =? 13)%nat && (nat_of_ascii c' =? 10)%nat) eqn:Hcrlf.
    + apply andb_true_iff in Hcrlf as [_ H2]. apply Nat.eqb_eq in H2.
      constructor; [reflexivity|].
      cbn [splitlines] in IH.
      assert (Hlb : is_linebreak c' = true)
        by (unfold is_linebreak; cbv zeta; now rewrite H2).
      rewrite Hlb in IH.
      destruct s' as [|c2 s2]; [constructor|].
      assert (Hno : (nat_of_ascii c' =? 13)%nat = false) by (now rewrite H2).
      rewrite Hno in IH. cbn [andb] in IH. now inversion IH.
    + constructor; [reflexivity | exact IH].
  - assert (Hxc : Ascii.eqb x c = false).
    { apply Ascii.eqb_neq. intros ->. congruence. }
    destruct (splitlines s) as [|h t]; cbn [cons_head].
    + repeat constructor. cbn [has_char]. now rewrite Hxc.
    + inversion IH as [|? ? Hh Ht]; subst. constructor; [|exact Ht].
      cbn [has_char]. now rewrite Hxc, Hh.
Qed.

End StripFacts.

Section FieldsMore.

(** X18: the bin rows [_get_bin_rows] hands to the formatter are not empty,
    have no white space around them (stripping them again changes nothing)
    and hold no line boundary, so that each of them is one line of the
    header. *)
Theorem bin_rows_are_clean_lines (raw : string) :
  Forall (fun r =>
            is_empty r = false
            /\ strip r = r
            /\ forall x, is_linebreak x = true -> has_char x r = false)
         (get_bin_rows raw).
Proof.
  unfold get_bin_rows. apply Forall_forall. intros r Hr.
  apply in_map_iff in Hr as [ln [<- Hln]].
  apply filter_In in Hln as [Hln Hne]. apply negb_true_iff in Hne.
  split; [exact Hne|]. split; [apply strip_idem|].
  intros x Hx. apply has_char_strip.
  pose proof (splitlines_no_break x raw Hx) as Hall.
  rewrite Forall_forall in Hall. now apply Hall.
Qed.

Lemma prefix_one (x c : ascii) (s : string) :
  prefix (String x EmptyString) (String c s) = Ascii.eqb x c.
Proof.
  cbn [prefix]. destruct (ascii_dec x c) as [Heq|Hne].
  - subst c. rewrite Ascii.eqb_refl. destruct s; reflexivity.
  - symmetry. now apply Ascii.eqb_neq.
Qed.

(** The pieces cut at a character do not hold it. *)
Lemma split_one_pieces (x : ascii) (s : string) :
  Forall (fun p => has_char x p = false) (split (String x EmptyString) s).
Proof.
  unfold split. induction s as [|c s IH]; [repeat constructor|].
  cbn [split_go]. rewrite prefix_one.
  destruct (Ascii.eqb x c) eqn:Hc.
  - constructor; [reflexivity | exact IH].
  - destruct (split_go (String x EmptyString) 0 s) as [|h t]; cbn [cons_head].
    + repeat constructor. cbn [has_char]. now rewrite Hc.
    + inversion IH as [|? ? Hh Ht]; subst. constructor; [|exact Ht].
      cbn [has_char]. now rewrite Hc, Hh.
Qed.

(** X19: the structure names read in the filter field are not empty, have
    no white space around them and hold no comma. *)
Theorem structure_names_are_clean (field : string) :
  Forall (fun n =>
            is_empty n = false /\ strip n = n /\ has_char ","%char n = false)
         (parse_structs field).
Proof.
  unfold parse_structs. apply Forall_forall. intros n Hn.
  apply in_map_iff in Hn as [p [<- Hp]].
  apply filter_In in Hp as [Hp Hne]. apply negb_true_iff in Hne.
  split; [exact Hne|]. split; [apply strip_idem|].
  apply has_char_strip.
  pose proof (split_one_pieces ","%char field) as Hall.
  rewrite Forall_forall in Hall. now apply Hall.
Qed.

End FieldsMore.

Section ConversionMore.
Context {F : Type} `{PyFloat F}.

(** Reparsing a formatted grid of good rows, in terms of the lines of the
    whole header. *)
Lemma reparse_formatted
    (grid : Grid) wafer_id (diameter : F) die_count line_mode bin_rows
    (first : list string) (rest : Grid) :
  grid = first :: rest ->
  Forall good_row grid ->
  (min_cols line_mode <= List.length first)%nat ->
  Forall (fun l => looks_like_row l = false)
         (header_text_lines (header grid wafer_id diameter die_count bin_rows)) ->
  reparse (format_output grid wafer_id diameter die_count line_mode bin_rows)
  = Some grid.
Proof.
  intros Hgrid Hgood Hcols Hhdr.
  assert (Hne : grid <> []) by (rewrite Hgrid; discriminate).
  destruct (exists_last Hne) as [rows [last Hlast]].
  assert (Hlines : Forall2 (line_of_row line_mode) grid
            (map (row_text line_mode) rows ++ [row_cells (last ++ extra line_mode)])).
  { rewrite Hlast in Hgood |- *. apply Forall_app in Hgood as [Hr Hl].
    apply lines_of_rows; [exact Hr | now inversion Hl]. }
  pose proof (rows_of_lines line_mode grid _ Hgood Hlines) as Hrows.
  destruct (map (row_text line_mode) rows ++ [row_cells (last ++ extra line_mode)])%list
    as [|l1 tail] eqn:Htail.
  { rewrite Hgrid in Hlines. inversion Hlines. }
  assert (Hl1 : looks_like_row l1 = true).
  { rewrite Hgrid in Hlines, Hgood.
    inversion Hlines as [|? ? ? ? Hline _]; subst.
    inversion Hgood as [|? ? Hfirst _]; subst.
    now apply (looks_like_row_good line_mode first). }
  unfold reparse, _update_from_raw_auto. cbv zeta.
  rewrite (lines_of_output grid wafer_id diameter die_count line_mode bin_rows
             rows last Hlast Hgood), Htail.
  set (HL := header_text_lines (header grid wafer_id diameter die_count bin_rows)) in *.
  assert (HHL : HL <> []).
  { apply header_text_lines_nonempty.
    destruct (header_starts grid wafer_id diameter die_count bin_rows) as [t [hs ->]].
    discriminate. }
  unfold header_end. rewrite (first_index_skip 0 HL l1 tail Hhdr Hl1).
  cbn [Nat.add].
  replace (List.length HL =? 0)%nat with false
    by (destruct HL; [contradiction | reflexivity]).
  rewrite skipn_app, skipn_all, Nat.sub_diag. cbn [app skipn].
  rewrite Hrows, Hgrid. reflexivity.
Qed.

End ConversionMore.

Section ConversionTheorem.
Context {F : Type} `{PyFloat F}.

(** The rows of a built grid that has columns are good rows. *)
Lemma built_rows_good
    (coords : list (Coord F)) (diameter die_x die_y : F) (show_edge : bool)
    (grid : Grid) :
  build_grid coords diameter die_x die_y show_edge = Some grid ->
  (0 < n_cols grid)%nat ->
  Forall good_row grid.
Proof.
  intros Hbuilt.
  destruct (build_grid_table _ _ _ _ _ _ Hbuilt)
    as [ds [min_gx [max_gx [min_gy [max_gy [_ [_ ->]]]]]]].
  intros Hcols.
  assert (Hxs : range_up min_gx max_gx <> []).
  { destruct (range_down max_gy min_gy) as [|gy ys]; [cbn in Hcols; lia|].
    cbn [map n_cols] in Hcols. rewrite length_map in Hcols.
    destruct (range_up min_gx max_gx); [cbn in Hcols; lia | discriminate]. }
  apply Forall_forall. intros row Hrow.
  apply in_map_iff in Hrow as [gy [<- _]]. split.
  - destruct (range_up min_gx max_gx); [contradiction | discriminate].
  - apply Forall_forall. intros c Hc.
    apply in_map_iff in Hc as [gx [<- _]].
    unfold cell, symbol. cbv zeta.
    destruct (fltb _ _); [reflexivity|].
    destruct (mem (gx, gy) ds); [reflexivity|].
    destruct (show_edge && has_neighbour ds gx gy); reflexivity.
Qed.

(** X20: when [_convert_worker] succeeds, the number of dies it reports is
    the number of records extracted (at least one), and the text it produced
    reparses to the very grid it produced, provided the grid has at least
    ten columns (nine in SINF mode) and neither the first header line nor a
    bin row looks like a map row. *)
Theorem conversion_round_trip
    (gds_text wafer_id_field : string) (diameter die_x die_y : F)
    (structs_field : string) (show_edge : bool) (line_mode bin_text : string)
    (grid : Grid) (out : string) (n_dies : nat)
    (Hdone : convert_worker gds_text wafer_id_field diameter die_x die_y
               structs_field show_edge line_mode bin_text = Done grid out n_dies)
    (Hcols : (min_cols line_mode <= n_cols grid)%nat)
    (Hsafe : Forall (fun l => looks_like_row l = false)
               (header_text_lines
                  (wafer_line grid
                     (if is_empty wafer_id_field then "GDS2_WAFER_MAP"
                      else wafer_id_field) diameter
                   :: get_bin_rows bin_text))) :
  reparse out = Some grid
  /\ n_dies = List.length (parse_gds2 (F := F) gds_text (parse_structs structs_field))
  /\ (1 <= n_dies)%nat.
Proof.
  unfold convert_worker in Hdone. cbv zeta in Hdone.
  destruct (parse_gds2 gds_text (parse_structs structs_field)) as [|c0 cs] eqn:Hcoords;
    [discriminate|].
  destruct (build_grid (c0 :: cs) diameter die_x die_y show_edge) as [g|] eqn:Hb;
    [|discriminate].
  injection Hdone as <- <- <-.
  split; [|split; [reflexivity | cbn [List.length]; lia]].
  assert (Hpos : (0 < n_cols g)%nat).
  { unfold min_cols in Hcols. destruct (line_mode =? "sinf")%string; lia. }
  pose proof (built_rows_good _ _ _ _ _ _ Hb Hpos) as Hgood.
  destruct g as [|first rest] eqn:Hg; [cbn in Hpos; lia|].
  rewrite <- Hg in *.
  apply (reparse_formatted g _ diameter _ line_mode _ first rest Hg Hgood).
  - rewrite Hg in Hcols. exact Hcols.
  - now apply header_safe.
Qed.

End ConversionTheorem.

Lemma convert_two_dies_apart :
  convert_worker (F := Q) two_dies_apart "" (20 # 1) (1 # 1) (1 # 1)
    " a , " false "lf" (" bin " ++ NL)
  = Done two_dies_apart_grid
      (format_output two_dies_apart_grid "GDS2_WAFER_MAP" (20 # 1) 2 "lf" ["bin"])
      2.
Proof. vm_compute. reflexivity. Qed.

Lemma conversion_round_trip_witness :
  reparse (format_output (F := Q) two_dies_apart_grid "GDS2_WAFER_MAP" (20 # 1) 2
             "lf" ["bin"])
  = Some two_dies_apart_grid
  /\ 2%nat = List.length (parse_gds2 (F := Q) two_dies_apart (parse_structs " a , "))
  /\ (1 <= 2)%nat.
Proof.
  apply (conversion_round_trip two_dies_apart "" (20 # 1) (1 # 1) (1 # 1)
           " a , " false "lf" (" bin " ++ NL) _ _ _ convert_two_dies_apart).
  - vm_compute. lia.
  - match goal with
    | |- Forall ?P ?l => let l' := eval vm_compute in l in change (Forall P l')
    end.
    repeat (constructor; [vm_compute; reflexivity|]). constructor.
Defined.

Section ViewMore.

(** X21: the cell size [_fit] sets is at least one pixel; and when the
    canvas (less its margin of 8 pixels) has at least one pixel for every
    column and every row, the map drawn at that size fits into it, and
    would not fit at one pixel more. *)
Theorem fit_fits (grid : Grid) (w h px : Z)
    (Hfit : fit grid w h = FitPx px) :
  let rows := Z.of_nat (n_rows grid) in
  let cols := Z.of_nat (n_cols grid) in
  1 <= px
  /\ (cols <= w - 8 -> rows <= h - 8 ->
      cols * px <= w - 8 /\ rows * px <= h - 8
      /\ (w - 8 < cols * (px + 1) \/ h - 8 < rows * (px + 1))).
Proof.
  unfold fit in Hfit. destruct grid as [|first rest]; [discriminate|].
  unfold n_rows, n_cols.
  assert (Hrows : 0 < Z.of_nat (List.length (first :: rest)))
    by (cbn [List.length]; lia).
  remember (Z.of_nat (List.length (first :: rest))) as rows eqn:Er.
  remember (Z.of_nat (List.length first)) as cols eqn:Ec.
  destruct ((w <=? 1) || (h <=? 1)); [discriminate|]. cbv zeta in Hfit.
  destruct (cols =? 0) eqn:Hc0; [discriminate|].
  injection Hfit as <-. apply Z.eqb_neq in Hc0.
  assert (Hcols : 0 < cols) by lia.
  cbv zeta.
  split; [lia|]. intros Hw Hh.
  pose proof (Z.mul_div_le (w - 8) cols Hcols) as Hw1.
  pose proof (Z.mul_succ_div_gt (w - 8) cols Hcols) as Hw2.
  pose proof (Z.mul_div_le (h - 8) rows Hrows) as Hh1.
  pose proof (Z.mul_succ_div_gt (h - 8) rows Hrows) as Hh2.
  assert (Hqw : 1 <= (w - 8) / cols) by (apply Z.div_le_lower_bound; lia).
  assert (Hqh : 1 <= (h - 8) / rows) by (apply Z.div_le_lower_bound; lia).
  rewrite Z.max_r by lia.
  destruct (Z.min_spec ((w - 8) / cols) ((h - 8) / rows)) as [[Hlt ->]|[Hge ->]].
  - split; [lia|]. split; [nia|]. left. unfold Z.succ in Hw2. lia.
  - split; [nia|]. split; [lia|]. right. unfold Z.succ in Hh2. lia.
Qed.

Lemma fit_fits_witness :
  1 <= 16
  /\ (3 <= 108 - 8 -> 3 <= 58 - 8 ->
      3 * 16 <= 108 - 8 /\ 3 * 16 <= 58 - 8
      /\ (108 - 8 < 3 * (16 + 1) \/ 58 - 8 < 3 * (16 + 1))).
Proof.
  exact (fit_fits [["."; "?"; "."]; ["?"; "?"; "?"]; ["."; "?"; "."]] 108 58 16
           eq_refl).
Defined.

Lemma substring_tail (n : nat) (s : string) :
  (n <= String.length s)%nat ->
  exists pre,
    s = pre ++ substring n (String.length s - n) s
    /\ String.length pre = n
    /\ String.length (substring n (String.length s - n) s) = (String.length s - n)%nat.
Proof.
  revert s; induction n as [|n IH]; intros s Hn.
  - exists EmptyString. rewrite Nat.sub_0_r.
    assert (Hall : forall t, substring 0 (String.length t) t = t).
    { induction t as [|c t IHt]; [reflexivity|]. cbn. now rewrite IHt. }
    rewrite Hall. repeat split.
  - destruct s as [|c s]; [cbn in Hn; lia|].
    cbn [String.length] in Hn |- *. destruct (IH s) as [pre [Heq [Hlen Hsub]]]; [lia|].
    exists (String c pre). cbn [substring Nat.sub append String.length].
    rewrite <- Heq, Hlen, Hsub. repeat split.
Qed.

Lemma append_length (a b : string) :
  String.length (a ++ b) = (String.length a + String.length b)%nat.
Proof. induction a as [|c a IH]; cbn; [reflexivity | now rewrite IH]. Qed.

(** X22: the file label is at most 30 characters long; a name of at most 30
    characters is shown as it is, a longer one as three points followed by
    its last 27 characters. *)
Theorem file_label_is_short (name : string) :
  (String.length (file_label name) <= 30)%nat
  /\ ((String.length name <= 30)%nat -> file_label name = name)
  /\ ((30 < String.length name)%nat ->
      exists pre tail,
        name = pre ++ tail /\ String.length tail = 27%nat
        /\ file_label name = "..." ++ tail).
Proof.
  unfold file_label.
  destruct (String.length name <=? 30)%nat eqn:Hlen.
  - apply Nat.leb_le in Hlen. split; [exact Hlen|]. split; [reflexivity|]. lia.
  - apply Nat.leb_gt in Hlen.
    destruct (substring_tail (String.length name - 27) name) as [pre [Heq [_ Hsub]]];
      [lia|].
    replace (String.length name - (String.length name - 27))%nat with 27%nat in * by lia.
    split; [|split; [lia|]].
    + rewrite append_length, Hsub. cbn. lia.
    + intros _. exists pre, (substring (String.length name - 27) 27 name).
      split; [exact Heq|]. split; [exact Hsub | reflexivity].
Qed.

Lemma file_label_is_short_witness :
  (String.length (file_label "wafer_lot_0042_layout_final_rev3.gds") <= 30)%nat
  /\ exists pre tail,
       "wafer_lot_0042_layout_final_rev3.gds" = pre ++ tail
       /\ String.length tail = 27%nat
       /\ file_label "wafer_lot_0042_layout_final_rev3.gds" = "..." ++ tail.
Proof.
  destruct (file_label_is_short "wafer_lot_0042_layout_final_rev3.gds")
    as [Hlen [_ Hlong]].
  split; [exact Hlen|]. apply Hlong. vm_compute. lia.
Defined.

End ViewMore.
